(** * Jarvis chat assistant: the document-to-answer pipeline

    A shallow embedding of the retrieval pipeline of the Flask application
    ([src/app.py]) and of its companions ([src/processor.py],
    [src/embedding.py], [src/chat.py], [src/config.py],
    [src/database.py]): text extraction, chunking, index construction,
    nearest-neighbour retrieval, prompt assembly, the per-session
    conversation state, and the in-memory stores of users and
    conversations.

    Conventions.
    - A Python [str] is a [string]; one [ascii] stands for one character
      (code points below 256), so [len] is [String.length].
    - Python integers are [Z].
    - A Python exception is a value of [exn]; code that may raise returns
      [Exc A], and [try]/[except] is written out.
    - The third-party libraries the sources call (langchain's recursive
      splitter, faiss' flat L2 index) are modelled from their published
      behaviour; the two models (sentence encoder, generative model) are
      parameters. *)

From Stdlib Require Import String Ascii List ZArith QArith Lia Bool Arith.
From Stdlib Require Import DecimalString Sorted Permutation.
Import ListNotations.

Open Scope string_scope.
Open Scope list_scope.
Open Scope nat_scope.

(* ------------------------------------------------------------------ *)
(** ** Exceptions *)

Inductive exn : Type :=
| Exception (kind : string) (msg : string).

(** [str(e)] *)
Definition str_exn (e : exn) : string :=
  match e with Exception _ msg => msg end.

Inductive Exc (A : Type) : Type :=
| Ok (a : A)
| Raise (e : exn).
Arguments Ok {A} a.
Arguments Raise {A} e.

Definition exc_bind {A B : Type} (m : Exc A) (f : A -> Exc B) : Exc B :=
  match m with
  | Ok a => f a
  | Raise e => Raise e
  end.

Declare Scope exc_scope.
Delimit Scope exc_scope with exc.
Notation "x <- m ;; k" := (exc_bind m (fun x => k))
  (at level 61, m at next level, right associativity) : exc_scope.
Open Scope exc_scope.

(** A loop [for x in l: st = body(st, x)] whose body may raise. *)
Fixpoint for_each {A S : Type} (body : S -> A -> Exc S) (l : list A) (st : S)
  : Exc S :=
  match l with
  | [] => Ok st
  | x :: l' => st' <- body st x ;; for_each body l' st'
  end.

Definition IndexError : exn := Exception "IndexError" "list index out of range".

(* ------------------------------------------------------------------ *)
(** ** Python strings *)

Module PyStr.

(** [len(s)] *)
Definition len (s : string) : Z := Z.of_nat (String.length s).

(** [c.isspace()] on the code points below 256: TAB..CR, FS..US, space,
    NEL and the no-break space. *)
Definition isspace (c : ascii) : bool :=
  let n := nat_of_ascii c in
  ((9 <=? n) && (n <=? 13)) || ((28 <=? n) && (n <=? 32))
  || (n =? 133) || (n =? 160).

Fixpoint lstrip (s : string) : string :=
  match s with
  | EmptyString => EmptyString
  | String c s' => if isspace c then lstrip s' else s
  end.

Fixpoint rstrip (s : string) : string :=
  match s with
  | EmptyString => EmptyString
  | String c s' =>
      match rstrip s' with
      | EmptyString => if isspace c then EmptyString else String c EmptyString
      | r => String c r
      end
  end.

(** [s.strip()] *)
Definition strip (s : string) : string := rstrip (lstrip s).

(** Truth value of a string: [if s:] *)
Definition truthy (s : string) : bool := negb (String.eqb s "").

(** [c.lower()] on the letters A..Z. *)
Definition lower_char (c : ascii) : ascii :=
  let n := nat_of_ascii c in
  if (65 <=? n) && (n <=? 90) then ascii_of_nat (n + 32) else c.

Fixpoint lower (s : string) : string :=
  match s with
  | EmptyString => EmptyString
  | String c s' => String (lower_char c) (lower s')
  end.

(** [s.startswith(p)] *)
Definition startswith (p s : string) : bool := String.prefix p s.

(** [s.endswith(p)] *)
Fixpoint endswith (p s : string) : bool :=
  String.eqb p s
  || match s with
     | EmptyString => false
     | String _ s' => endswith p s'
     end.

(** [sep in text], which is what [re.search(re.escape(sep), text)] decides. *)
Fixpoint contains (sep text : string) : bool :=
  String.prefix sep text
  || match text with
     | EmptyString => false
     | String _ t => contains sep t
     end.

(** [list(text)]: one string per character. *)
Fixpoint chars (text : string) : list string :=
  match text with
  | EmptyString => []
  | String c t => String c EmptyString :: chars t
  end.

(** [sep.join(l)] *)
Definition join (sep : string) (l : list string) : string :=
  String.concat sep l.

(** [re.split("(" + re.escape(sep) + ")", text)] for a non-empty literal
    [sep]: the pieces between the leftmost non-overlapping occurrences of
    [sep], with [sep] itself between two pieces.  [skip] counts the
    characters of a matched separator still to pass over, [cur] is the piece
    being read. *)
Fixpoint re_split_from (sep : string) (skip : nat) (cur : string)
  (text : string) : list string :=
  match text with
  | EmptyString => [cur]
  | String c rest =>
      match skip with
      | S n => re_split_from sep n cur rest
      | O =>
          if String.prefix sep text
          then cur :: sep :: re_split_from sep (String.length sep - 1) "" rest
          else re_split_from sep 0 (cur ++ String c "") rest
      end
  end.

Definition re_split (sep text : string) : list string :=
  re_split_from sep 0 "" text.

(** [str(n)] for an integer. *)
Definition str_Z (n : Z) : string := NilEmpty.string_of_int (Z.to_int n).

End PyStr.
Import PyStr.

(* ------------------------------------------------------------------ *)
(** ** langchain: RecursiveCharacterTextSplitter

    The splitter of [langchain.text_splitter], with the options the sources
    leave at their defaults ([keep_separator=True], [strip_whitespace=True],
    [is_separator_regex=False]) and [length_function=len]. *)

Module TextSplitter.

Record t : Type := mk {
  chunk_size : Z;
  chunk_overlap : Z;
  separators : list string
}.

Definition ValueError (msg : string) : exn := Exception "ValueError" msg.

(** [TextSplitter.__init__]: the configuration checks. *)
Definition RecursiveCharacterTextSplitter (size overlap : Z)
  (seps : list string) : Exc t :=
  if (size <=? 0)%Z then
    Raise (ValueError ("chunk_size must be > 0, got " ++ str_Z size))
  else if (overlap <? 0)%Z then
    Raise (ValueError ("chunk_overlap must be >= 0, got " ++ str_Z overlap))
  else if (overlap >? size)%Z then
    Raise (ValueError ("Got a larger chunk overlap (" ++ str_Z overlap
                       ++ ") than chunk size (" ++ str_Z size
                       ++ "), should be smaller."))
  else Ok (mk size overlap seps).

(** [[_splits[i] + _splits[i + 1] for i in range(1, len(_splits), 2)]] on
    the tail of [_splits]: each separator is glued to the piece after it.
    [re.split] with one group returns an odd number of items, so the tail
    has even length and the last case is not reached. *)
Fixpoint pair_up (l : list string) : list string :=
  match l with
  | a :: b :: l' => (a ++ b)%string :: pair_up l'
  | _ => l
  end.

(** [_split_text_with_regex(text, separator, keep_separator=True)] *)
Definition split_text_with_regex (text separator : string) : list string :=
  let splits :=
    if truthy separator then
      match re_split separator text with
      | [] => []
      | s0 :: tl => s0 :: pair_up tl
      end
    else chars text in
  filter truthy splits.

(** [_join_docs] *)
Definition join_docs (docs : list string) (separator : string)
  : option string :=
  let text := strip (join separator docs) in
  if String.eqb text "" then None else Some text.

Definition append_doc (docs : list string) (doc : option string)
  : list string :=
  match doc with
  | Some d => docs ++ [d]
  | None => docs
  end.

Section Merge.
Variable ts : t.
Variable separator : string.

Definition has_items (l : list string) : bool := (0 <? length l)%nat.

(** The guard of the [while] loop of [_merge_splits]. *)
Definition must_drop (_len total : Z) (current_doc : list string) : bool :=
  (total >? chunk_overlap ts)%Z
  || ((total + _len + (if has_items current_doc then len separator else 0)
       >? chunk_size ts)%Z
      && (total >? 0)%Z).

(** The [while] loop: drop pieces from the front of [current_doc] until the
    rest fits.  [current_doc[0]] on an empty list raises. *)
Fixpoint drop_front (_len total : Z) (current_doc : list string)
  : Exc (Z * list string) :=
  if must_drop _len total current_doc then
    match current_doc with
    | [] => Raise IndexError
    | d0 :: rest =>
        drop_front _len
          (total - (len d0
                    + (if (1 <? length current_doc)%nat then len separator
                       else 0)))%Z
          rest
    end
  else Ok (total, current_doc).

(** One turn of the [for d in splits] loop of [_merge_splits]; the state is
    [(docs, current_doc, total)].  When [d] does not fit, the pieces
    collected so far are emitted and the front is dropped; then [d] is
    appended. *)
Definition merge_step (st : list string * list string * Z) (d : string)
  : Exc (list string * list string * Z) :=
  let '(docs, current_doc, total) := st in
  let _len := len d in
  st' <-
    (if (total + _len + (if has_items current_doc then len separator else 0)
         >? chunk_size ts)%Z
     then
       if has_items current_doc then
         let docs' := append_doc docs (join_docs current_doc separator) in
         r <- drop_front _len total current_doc ;;
         Ok (docs', snd r, fst r)
       else Ok st
     else Ok st) ;;
  let '(docs, current_doc, total) := st' in
  let current_doc := current_doc ++ [d] in
  Ok (docs, current_doc,
      (total + _len
       + (if (1 <? length current_doc)%nat then len separator else 0))%Z).

(** [_merge_splits(splits, separator)] *)
Definition merge_splits (splits : list string) : Exc (list string) :=
  st <- for_each merge_step splits ([], [], 0%Z) ;;
  let '(docs, current_doc, _) := st in
  Ok (append_doc docs (join_docs current_doc separator)).

End Merge.

(** One turn of the [for s in splits] loop of [_split_text]; the state is
    [(final_chunks, _good_splits)].  [recurse] is [None] when
    [new_separators] is empty and the recursive call otherwise. *)
Definition split_step (ts : t) (_separator : string)
  (recurse : option (string -> Exc (list string)))
  (st : list string * list string) (s : string)
  : Exc (list string * list string) :=
  let '(final_chunks, good) := st in
  if (len s <? chunk_size ts)%Z then Ok (final_chunks, good ++ [s])
  else
    final1 <- match good with
              | [] => Ok final_chunks
              | _ => merged <- merge_splits ts _separator good ;;
                     Ok (final_chunks ++ merged)
              end ;;
    match recurse with
    | None => Ok (final1 ++ [s], [])
    | Some f => other <- f s ;; Ok (final1 ++ other, [])
    end.

(** The body of [_split_text] once [separator] and [new_separators] are
    chosen.  With [keep_separator] the pieces are merged with [""]. *)
Definition split_with (ts : t) (separator : string)
  (recurse : option (string -> Exc (list string))) (text : string)
  : Exc (list string) :=
  let splits := split_text_with_regex text separator in
  let _separator := "" in
  st <- for_each (split_step ts _separator recurse) splits ([], []) ;;
  let '(final_chunks, good) := st in
  match good with
  | [] => Ok final_chunks
  | _ => merged <- merge_splits ts _separator good ;;
         Ok (final_chunks ++ merged)
  end.

(** [_split_text(text, separators)].  The first separator that is [""] or
    occurs in [text] is used, and the separators after it serve the pieces
    that are still too long; when none occurs the last one is used.
    [separators[-1]] on an empty list raises. *)
Fixpoint split_text_rec (ts : t) (seps : list string) (text : string)
  {struct seps} : Exc (list string) :=
  match seps with
  | [] => Raise IndexError
  | _s :: rest =>
      if String.eqb _s "" then split_with ts "" None text
      else if contains _s text then
        split_with ts _s
          (match rest with
           | [] => None
           | _ => Some (split_text_rec ts rest)
           end) text
      else
        match rest with
        | [] => split_with ts _s None text
        | _ => split_text_rec ts rest text
        end
  end.

(** [split_text(text)] *)
Definition split_text (ts : t) (text : string) : Exc (list string) :=
  split_text_rec ts (separators ts) text.

End TextSplitter.

(* ------------------------------------------------------------------ *)
(** ** Documents *)

(** A Python [dict] with string keys, in insertion order. *)
Module Dict.

Inductive value : Type :=
| VStr (s : string)
| VInt (n : Z).

Definition t : Type := list (string * value).

Fixpoint get (k : string) (d : t) : option value :=
  match d with
  | [] => None
  | (k', v) :: d' => if String.eqb k k' then Some v else get k d'
  end.

(** [d[k] = v] *)
Fixpoint set (k : string) (v : value) (d : t) : t :=
  match d with
  | [] => [(k, v)]
  | (k', v') :: d' =>
      if String.eqb k k' then (k, v) :: d' else (k', v') :: set k v d'
  end.

(** [d.update(upd)] *)
Definition update (d upd : t) : t :=
  fold_left (fun acc kv => set (fst kv) (snd kv) acc) upd d.

End Dict.

(** [langchain.schema.Document] *)
Record Document : Type := mkDocument {
  page_content : string;
  metadata : Dict.t
}.

Definition nl : string := String "010"%char "".

(** [separators=["\n\n", "\n", " ", ""]] *)
Definition separators : list string := [(nl ++ nl)%string; nl; " "; ""].

(** [enumerate(l)], counting from [i]. *)
Fixpoint enumerate_from {A : Type} (i : Z) (l : list A) : list (Z * A) :=
  match l with
  | [] => []
  | x :: l' => (i, x) :: enumerate_from (i + 1)%Z l'
  end.

Definition enumerate {A : Type} (l : list A) : list (Z * A) :=
  enumerate_from 0%Z l.

(** The loop shared by [create_text_chunks] and [create_document_chunks]:
    [for i, chunk in enumerate(chunks): if chunk.strip(): documents.append(...)] *)
Fixpoint collect_documents (meta : Z -> string -> Dict.t)
  (ichunks : list (Z * string)) : list Document :=
  match ichunks with
  | [] => []
  | (i, chunk) :: rest =>
      if truthy (strip chunk)
      then mkDocument (strip chunk) (meta i chunk) :: collect_documents meta rest
      else collect_documents meta rest
  end.

(** [create_text_chunks(text, filename, chunk_size, chunk_overlap)] of
    [src/app.py]; the [except] clause re-raises. *)
Definition create_text_chunks (text filename : string)
  (chunk_size chunk_overlap : Z) : Exc (list Document) :=
  text_splitter <-
    TextSplitter.RecursiveCharacterTextSplitter chunk_size chunk_overlap
      separators ;;
  chunks <- TextSplitter.split_text text_splitter text ;;
  Ok (collect_documents
        (fun i _ =>
           [("source", Dict.VStr filename);
            ("chunk_id", Dict.VInt i);
            ("total_chunks", Dict.VInt (Z.of_nat (length chunks)))])
        (enumerate chunks)).

(** The defaults [chunk_size=1000, chunk_overlap=200]. *)
Definition create_text_chunks_default (text filename : string)
  : Exc (list Document) :=
  create_text_chunks text filename 1000 200.

(** [PDFProcessor] of [src/processor.py]; [CHUNK_SIZE] and [CHUNK_OVERLAP]
    are read from the configuration. *)
Module PDFProcessor.

Record t : Type := mk { text_splitter : TextSplitter.t }.

Definition init (CHUNK_SIZE CHUNK_OVERLAP : Z) : Exc t :=
  splitter <-
    TextSplitter.RecursiveCharacterTextSplitter CHUNK_SIZE CHUNK_OVERLAP
      separators ;;
  Ok (mk splitter).

(** [create_document_chunks(self, text, metadata=None)] *)
Definition create_document_chunks (self : t) (text : string)
  (metadata : option Dict.t) : Exc (list Document) :=
  if negb (truthy text) || negb (truthy (strip text)) then Ok []
  else
    chunks <- TextSplitter.split_text (text_splitter self) text ;;
    Ok (collect_documents
          (fun i chunk =>
             Dict.update
               (match metadata with Some m => m | None => [] end)
               [("chunk_id", Dict.VInt i);
                ("total_chunks", Dict.VInt (Z.of_nat (length chunks)));
                ("chunk_size", Dict.VInt (len chunk))])
          (enumerate chunks)).

End PDFProcessor.

(* ------------------------------------------------------------------ *)
(** ** Python lists *)

(** [l[i]]: a negative [i] counts from the end. *)
Definition py_index {A : Type} (l : list A) (i : Z) : Exc A :=
  let n := Z.of_nat (length l) in
  let j := if (i <? 0)%Z then (i + n)%Z else i in
  if (j <? 0)%Z then Raise IndexError
  else match nth_error l (Z.to_nat j) with
       | Some x => Ok x
       | None => Raise IndexError
       end.

(* ------------------------------------------------------------------ *)
(** ** faiss: IndexFlatL2

    The exact (brute force) index: [search] ranks every stored vector by
    its distance to the query, returns the labels of the [k] nearest and
    fills what is missing with the label [-1].  Distances are rationals;
    [l2] is the squared Euclidean distance as the index computes it. *)

Module Faiss.
Section Index.
(** A row of float32 numbers, its length, and the squared Euclidean
    distance of two rows as the index computes it (in float32; a float is
    a rational). *)
Variable vec : Type.
Variable dim : vec -> Z.
Variable l2 : vec -> vec -> Q.

Record IndexFlatL2 : Type := mk {
  d : Z;
  xb : list vec
}.

Definition ntotal (idx : IndexFlatL2) : nat := length (xb idx).

(** [index.add(x)] *)
Definition add (idx : IndexFlatL2) (x : list vec) : IndexFlatL2 :=
  mk (d idx) (xb idx ++ x).

(** Insertion behind every entry that is at most as far: entries at the
    same distance stay in the order they were added. *)
Fixpoint insert_by_distance (e : Q * Z) (l : list (Q * Z)) : list (Q * Z) :=
  match l with
  | [] => [e]
  | h :: t =>
      if Qle_bool (fst h) (fst e) then h :: insert_by_distance e t
      else e :: l
  end.

Definition rank (q : vec) (stored : list vec) : list (Q * Z) :=
  fold_left (fun acc e => insert_by_distance e acc)
    (map (fun iv => (l2 q (snd iv), fst iv)) (enumerate stored)) [].

(** The labels row of [index.search(q, k)] for one query. *)
Definition search_labels (idx : IndexFlatL2) (q : vec) (k : nat) : list Z :=
  let top := firstn k (rank q (xb idx)) in
  map snd top ++ repeat (-1)%Z (k - length top).

(** [n, d = x.shape]: the length of the rows of a batch; the shape of an
    empty batch has one entry only. *)
Definition row_length (x : list vec) : Exc Z :=
  match x with
  | [] =>
      Raise (Exception "ValueError"
               "not enough values to unpack (expected 2, got 1)")
  | r :: _ => Ok (dim r)
  end.

(** [index.search(x, k)]: one labels row per query.  The wrapper asserts
    [d == self.d] and then [k > 0]. *)
Definition search (idx : IndexFlatL2) (x : list vec) (k : Z)
  : Exc (list (list Z)) :=
  d' <- row_length x ;;
  if negb (d' =? d idx)%Z then Raise (Exception "AssertionError" "")
  else if (k <=? 0)%Z then Raise (Exception "AssertionError" "")
  else Ok (map (fun q => search_labels idx q (Z.to_nat k)) x).

End Index.
End Faiss.

(* ------------------------------------------------------------------ *)
(** ** The application: [src/app.py] *)

(** The Flask session: the keys the routes below read and write.  A key
    that is absent is [None]. *)
Record FileInfo : Type := mkFileInfo {
  name : string;
  size : string;
  text_length : Z
}.

Record Message : Type := mkMessage {
  role : string;
  content : string;
  timestamp : string
}.

Record Session : Type := mkSession {
  username : option string;
  uploaded_files : option (list FileInfo);
  messages : option (list Message)
}.

(** [session.get(key, [])] *)
Definition get_list {A : Type} (field : option (list A)) : list A :=
  match field with
  | Some l => l
  | None => []
  end.

(** One file of an upload request: its name, the size of the saved file and
    what [extract_text_from_pdf] returns or raises on it. *)
Record UploadedFile : Type := mkUploadedFile {
  filename : string;
  file_size : Z;
  extracted : Exc string
}.

Inductive UploadReply : Type :=
| UploadFailure (message : string)
| UploadSuccess (message : string) (processed_files total_chunks : Z)
    (ai_enabled : bool) (errors : list string).

Inductive ChatReply : Type :=
| ChatFailure (message : string)
| ChatSuccess (response : string) (timestamp : string).

(** The body of a chat request as [request.get_json()] gives it: a JSON
    object, of which the route reads the key [message], or another JSON
    value.  A value that is not a text is named by its Python type:
    [NoneType] for [null], [int], [list] and so on. *)
Inductive JsonValue : Type :=
| JsonString (s : string)
| JsonOther (type_name : string).

Inductive JsonBody : Type :=
| JsonObject (message : option JsonValue)
| JsonNotObject (type_name : string).

Definition AttributeError (type_name attribute : string) : exn :=
  Exception "AttributeError"
    ("'" ++ type_name ++ "' object has no attribute '" ++ attribute ++ "'").

(** [data = request.get_json()] and then
    [data.get('message', '').strip()]: only a JSON object has [get], and
    only a text has [strip]. *)
Definition message_of (request_json : Exc JsonBody) : Exc string :=
  data <- request_json ;;
  match data with
  | JsonNotObject type_name => Raise (AttributeError type_name "get")
  | JsonObject None => Ok (strip "")
  | JsonObject (Some (JsonString m)) => Ok (strip m)
  | JsonObject (Some (JsonOther type_name)) =>
      Raise (AttributeError type_name "strip")
  end.

Definition upload_first_message : string :=
  "Please upload some PDF documents first before asking questions!".

Definition unavailable_message : string :=
  "AI is currently unavailable. Please check your API configuration.".

Definition apology (e : exn) : string :=
  ("I apologize, but I encountered an error: " ++ str_exn e)%string.

Definition context_heading : string := "Context from uploaded documents:".

Definition no_context_instruction : string :=
  "- If no context is provided, mention that no documents were found".

(** The f-string of [AIManager.generate_response]. *)
Definition prompt_template (context query : string) : string :=
  ("You are a helpful AI assistant that answers questions based on the provided context from uploaded PDF documents."
   ++ nl ++ nl
   ++ context_heading ++ nl
   ++ context ++ nl ++ nl
   ++ "User Question: " ++ query ++ nl ++ nl
   ++ "Instructions:" ++ nl
   ++ "- Answer the question based on the context provided" ++ nl
   ++ "- If the answer is not in the context, say so politely" ++ nl
   ++ "- Be concise but informative" ++ nl
   ++ no_context_instruction ++ nl ++ nl
   ++ "Answer:")%string.

(** [context = ""], replaced by the top three chunks when there are any. *)
Definition context_of (relevant_docs : list Document) : string :=
  match relevant_docs with
  | [] => ""
  | _ => join nl (map page_content (firstn 3 relevant_docs))
  end.

(** The files loop of [upload]: what one file adds to
    [(processed_files, errors, all_document_chunks)]. *)
Definition process_file (secure_filename : string -> string)
  (st : list FileInfo * list string * list Document) (file : UploadedFile)
  : list FileInfo * list string * list Document :=
  let '(processed, errors, all_document_chunks) := st in
  if String.eqb (filename file) "" then st
  else if negb (endswith ".pdf" (lower (filename file))) then
    (processed,
     errors ++ [(filename file ++ ": Only PDF files are allowed")%string],
     all_document_chunks)
  else
    let fname := secure_filename (filename file) in
    if (file_size file =? 0)%Z then
      (processed, errors ++ [(fname ++ ": File is empty")%string],
       all_document_chunks)
    else
      match
        text_content <- extracted file ;;
        if truthy text_content && (len (strip text_content) >? 0)%Z then
          chunks <- create_text_chunks_default text_content fname ;;
          Ok (Some (text_content, chunks))
        else Ok None
      with
      | Ok (Some (text_content, chunks)) =>
          (processed
             ++ [mkFileInfo fname
                   (str_Z (Z.of_nat (length chunks)) ++ " chunks")%string
                   (len text_content)],
           errors,
           all_document_chunks ++ chunks)
      | Ok None =>
          (processed,
           errors ++ [(fname ++ ": No text could be extracted")%string],
           all_document_chunks)
      | Raise e =>
          (processed,
           errors ++ [("Error processing " ++ fname ++ ": " ++ str_exn e)%string],
           all_document_chunks)
      end.

Section App.

(** The sentence encoder and the generative model.  [vec] is a row of an
    embedding array and [dim] its length; [l2 q v] is the squared distance
    the flat index computes for a query row and a stored row, on their
    [float32] copies ([astype('float32')]). *)
Variable vec : Type.
Variable dim : vec -> Z.
Variable l2 : vec -> vec -> Q.
(** [embedding_model.encode(texts)] *)
Variable encode : list string -> Exc (list vec).
(** [model.generate_content(prompt).text] *)
Variable generate_content : string -> Exc string.
(** [werkzeug.utils.secure_filename] *)
Variable secure_filename : string -> string.

Record AIManager : Type := mkAIManager {
  gemini_available : bool;
  embeddings_available : bool;
  document_chunks : list Document;
  embeddings : option (list vec);
  faiss_index : option (Faiss.IndexFlatL2 vec)
}.

(** Every call that leaves the application for a model or the index. *)
Inductive Call : Type :=
| CallEncode (texts : list string)
| CallIndexAdd (rows : nat)
| CallIndexSearch (k : Z)
| CallGenerate (prompt : string).

(** The process-wide state: the single [ai_manager] and the calls made. *)
Record World : Type := mkWorld {
  ai_manager : AIManager;
  calls : list Call
}.

(** Code that reads and writes the world and may raise; what was written
    before an exception stays written. *)
Definition App (A : Type) : Type := World -> Exc A * World.

Definition ret {A : Type} (a : A) : App A := fun w => (Ok a, w).

Definition bind {A B : Type} (m : App A) (f : A -> App B) : App B :=
  fun w =>
    match m w with
    | (Ok a, w') => f a w'
    | (Raise e, w') => (Raise e, w')
    end.

Definition lift {A : Type} (m : Exc A) : App A := fun w => (m, w).

(** [try: body  except Exception as e: handler(e)] *)
Definition try_except {A : Type} (body : App A) (handler : exn -> App A)
  : App A :=
  fun w =>
    match body w with
    | (Ok a, w') => (Ok a, w')
    | (Raise e, w') => handler e w'
    end.

Definition self : App AIManager := fun w => (Ok (ai_manager w), w).

Definition update_self (f : AIManager -> AIManager) : App unit :=
  fun w => (Ok tt, mkWorld (f (ai_manager w)) (calls w)).

Definition log (c : Call) : App unit :=
  fun w => (Ok tt, mkWorld (ai_manager w) (calls w ++ [c])).

Declare Scope app_scope.
Delimit Scope app_scope with app.
Notation "x <- m ;; k" := (bind m (fun x => k))
  (at level 61, m at next level, right associativity) : app_scope.
Notation "m ;; k" := (bind m (fun _ => k))
  (at level 61, right associativity) : app_scope.
Local Open Scope app_scope.

Definition set_faiss_index (i : option (Faiss.IndexFlatL2 vec))
  (a : AIManager) : AIManager :=
  mkAIManager (gemini_available a) (embeddings_available a)
    (document_chunks a) (embeddings a) i.

Definition set_document_chunks (c : list Document) (a : AIManager)
  : AIManager :=
  mkAIManager (gemini_available a) (embeddings_available a) c (embeddings a)
    (faiss_index a).

Definition set_embeddings (e : option (list vec)) (a : AIManager)
  : AIManager :=
  mkAIManager (gemini_available a) (embeddings_available a)
    (document_chunks a) e (faiss_index a).

(** [embeddings.shape[1]]; an empty batch is encoded as a one-dimensional
    array, whose shape has no second entry. *)
Definition shape1 (rows : list vec) : Exc Z :=
  match rows with
  | [] => Raise (Exception "IndexError" "tuple index out of range")
  | r :: _ => Ok (dim r)
  end.

(** [self.faiss_index.add(x)] *)
Definition faiss_index_add (x : list vec) : App unit :=
  a <- self ;;
  match faiss_index a with
  | None => lift (Raise (Exception "AttributeError" "'NoneType' object has no attribute 'add'"))
  | Some idx =>
      log (CallIndexAdd (length x)) ;;
      update_self (set_faiss_index (Some (Faiss.add vec idx x)))
  end.

(** [AIManager.create_embeddings] *)
Definition create_embeddings (chunks : list Document) : App bool :=
  a <- self ;;
  if negb (embeddings_available a) then ret false
  else
    try_except
      (let texts := map page_content chunks in
       log (CallEncode texts) ;;
       new_embeddings <- lift (encode texts) ;;
       dimension <- lift (shape1 new_embeddings) ;;
       update_self (set_faiss_index (Some (Faiss.mk vec dimension []))) ;;
       faiss_index_add new_embeddings ;;
       update_self (set_document_chunks chunks) ;;
       update_self (set_embeddings (Some new_embeddings)) ;;
       ret true)
      (fun _ => ret false).

(** The loop of [search_similar_documents] over [indices[0]]. *)
Definition gather_chunks (chunks : list Document) (indices : list Z)
  : Exc (list Document) :=
  for_each
    (fun relevant_chunks idx =>
       if (idx <? Z.of_nat (length chunks))%Z then
         (c <- py_index chunks idx ;; Ok (relevant_chunks ++ [c]))%exc
       else Ok relevant_chunks)
    indices [].

(** [AIManager.search_similar_documents] *)
Definition search_similar_documents (query : string) (k : Z)
  : App (list Document) :=
  a <- self ;;
  match embeddings_available a, faiss_index a with
  | true, Some idx =>
      try_except
        (log (CallEncode [query]) ;;
         query_embedding <- lift (encode [query]) ;;
         log (CallIndexSearch k) ;;
         indices <- lift (Faiss.search vec dim l2 idx query_embedding k) ;;
         row <- lift (py_index indices 0%Z) ;;
         a' <- self ;;
         lift (gather_chunks (document_chunks a') row))
        (fun _ => ret [])
  | _, _ => ret []
  end.

(** [AIManager.generate_response] *)
Definition generate_response (query : string) (relevant_docs : list Document)
  : App string :=
  a <- self ;;
  if negb (gemini_available a) then ret unavailable_message
  else
    try_except
      (let prompt := prompt_template (context_of relevant_docs) query in
       log (CallGenerate prompt) ;;
       lift (generate_content prompt))
      (fun e => ret (apology e)).

(** The route [/upload], for a request that carries [files] (or has no
    [files] entry: [None]). *)
Definition upload (session : Session) (request_files : option (list UploadedFile))
  : App (UploadReply * Session) :=
  match username session with
  | None => ret (UploadFailure "Not authenticated", session)
  | Some _ =>
  match request_files with
  | None => ret (UploadFailure "No files provided", session)
  | Some files =>
      if forallb (fun f => String.eqb (filename f) "") files then
        ret (UploadFailure "No valid files selected", session)
      else
        let '(processed, errors, all_document_chunks) :=
          fold_left (process_file secure_filename) files ([], [], []) in
        match all_document_chunks with
        | [] => ret false
        | _ => create_embeddings all_document_chunks
        end ;;
        a <- self ;;
        match processed with
        | _ :: _ =>
            let message :=
              ("Successfully processed " ++ str_Z (Z.of_nat (length processed))
               ++ " files with AI capabilities"
               ++ match errors with
                  | [] => ""
                  | _ => ". Errors: " ++ join "; " (firstn 3 errors)
                  end)%string in
            ret (UploadSuccess message (Z.of_nat (length processed))
                   (Z.of_nat (length all_document_chunks))
                   (gemini_available a && embeddings_available a) errors,
                 mkSession (username session)
                   (Some (get_list (uploaded_files session) ++ processed))
                   (messages session))
        | [] =>
            match errors with
            | _ :: _ =>
                ret (UploadFailure
                       ("Failed to process files: " ++ join "; " (firstn 3 errors)),
                     session)
            | [] => ret (UploadFailure "No valid PDF files found", session)
            end
        end
  end
  end.

(** The route [/chat_message]; [request_json] is what
    [request.get_json()] gives or raises, and [now] the formatted clock
    reading.  The body is read outside any [try]: an exception from it
    leaves the route. *)
Definition chat_message (session : Session) (request_json : Exc JsonBody)
  (now : string) : App (ChatReply * Session) :=
  match username session with
  | None => ret (ChatFailure "Not authenticated", session)
  | Some _ =>
      message <- lift (message_of request_json) ;;
      if negb (truthy message) then ret (ChatFailure "Empty message", session)
      else
        response <-
          match get_list (uploaded_files session) with
          | [] => ret upload_first_message
          | _ =>
              relevant_docs <- search_similar_documents message 5 ;;
              generate_response message relevant_docs
          end ;;
        let new_messages :=
          get_list (messages session)
          ++ [mkMessage "user" message now;
              mkMessage "assistant" response now] in
        ret (ChatSuccess response now,
             mkSession (username session) (uploaded_files session)
               (Some new_messages))
  end.

(** The route [/clear_files]. *)
Definition clear_files (session : Session) : Session :=
  match username session with
  | None => session
  | Some _ => mkSession (username session) (Some []) (messages session)
  end.

End App.

(* ------------------------------------------------------------------ *)
(** ** [EmbeddingManager.search] of [src/embedding.py] *)

Module EmbeddingManager.
Section Manager.
(** The langchain FAISS store; the retriever made from it answers
    [get_relevant_documents(query)]. *)
Variable VectorStore : Type.

Record t : Type := mk {
  vectorstore : option VectorStore;
  retriever : option (string -> Exc (list Document))
}.

(** [search(self, query, k=None)]; [TOP_K] is the configured default. *)
Definition search (TOP_K : Z) (self : t) (query : string) (k : option Z)
  : Exc (list Document) :=
  let k := match k with None => TOP_K | Some k' => k' end in
  match vectorstore self, retriever self with
  | Some _, Some get_relevant_documents =>
      match get_relevant_documents query with
      | Ok relevant_docs => Ok relevant_docs
      | Raise _ => Ok []
      end
  | _, _ => Ok []
  end.

End Manager.
End EmbeddingManager.

(* ------------------------------------------------------------------ *)
(** ** [ChatManager.generate_response] of [src/chat.py] *)

Module ChatManager.

Inductive BaseMessage : Type :=
| SystemMessage (content : string)
| HumanMessage (content : string).

(** [chain] answers [chain.invoke({"question": query})] with the ["answer"]
    entry of its result, [llm] answers [llm.invoke(messages).content]. *)
Record t : Type := mk {
  chain : option (string -> Exc (option string));
  retriever : bool;
  llm : list BaseMessage -> Exc string
}.

Definition plain_instruction : string :=
  "You are a helpful AI assistant. Answer the user's question to the best of your ability.".

(** The messages of the direct call, for [context_docs] given or [None]. *)
Definition direct_messages (query : string)
  (context_docs : option (list Document)) : list BaseMessage :=
  match context_docs with
  | Some (doc :: docs) =>
      let context_text := join nl (map page_content (doc :: docs)) in
      [SystemMessage
         ("You are a helpful AI assistant. Use the following context to answer the user's question:"
          ++ nl ++ nl ++ "Context:" ++ nl ++ context_text ++ nl ++ nl
          ++ "If the answer is not in the context, say so politely.")%string;
       HumanMessage query]
  | _ => [SystemMessage plain_instruction; HumanMessage query]
  end.

Definition generate_response (self : t) (query : string)
  (context_docs : option (list Document)) : Exc string :=
  match
    match chain self, retriever self with
    | Some invoke, true =>
        answer <- invoke query ;;
        Ok (match answer with
            | Some a => a
            | None => "I'm sorry, I couldn't generate a response."
            end)
    | _, _ => llm self (direct_messages query context_docs)
    end
  with
  | Ok r => Ok r
  | Raise _ =>
      Ok "I apologize, but I encountered an error while processing your request. Please try again."
  end.

End ChatManager.

(* ------------------------------------------------------------------ *)
(** ** Text extraction: [extract_text_from_pdf] and [process_pdf] *)

(** What PyPDF2 gives for a file: [page.extract_text()] for each page, or
    an exception; and the pages of the reader, or an exception from
    [open] or [PdfReader]. *)
Definition Page : Type := Exc string.
Definition PdfReader : Type := Exc (list Page).

(** One turn of the loop over the pages:
    [if page_text: text += page_text + "\n"]. *)
Definition add_page (text : string) (page : Page) : Exc string :=
  page_text <- page ;;
  Ok (if truthy page_text then (text ++ page_text ++ nl)%string else text).

Definition read_pages (pages : list Page) : Exc string :=
  for_each add_page pages "".

(** [extract_text_from_pdf(pdf_path)] of [src/app.py]; the [except] clause
    re-raises. *)
Definition extract_text_from_pdf (reader : PdfReader) : Exc string :=
  pages <- reader ;;
  text <- read_pages pages ;;
  Ok (strip text).

(** What [PDFProcessor] is handed: a path, an object with [read] (and
    maybe a [name]), or something else. *)
Inductive PdfFile : Type :=
| FilePath (path : string) (reader : PdfReader)
| FileObject (name : option string) (reader : PdfReader)
| OtherObject (name : option string).

Module PDFProcessorMore.

(** [PDFProcessor.extract_text_from_pdf(self, pdf_file)]: the same loop
    for a path and for a file object; anything else has no text. *)
Definition extract_text_from_pdf (pdf_file : PdfFile) : Exc string :=
  match pdf_file with
  | FilePath _ reader => extract_text_from_pdf reader
  | FileObject _ reader => extract_text_from_pdf reader
  | OtherObject _ => Ok (strip "")
  end.

Definition no_text_error : exn :=
  Exception "Exception"
    "No text could be extracted from the PDF. The file might be image-based or corrupted.".

Definition no_chunks_error : exn :=
  Exception "Exception" "No document chunks were created from the PDF".

(** The name [process_pdf] files the chunks under. *)
Definition filename_of (basename : string -> string) (pdf_file : PdfFile)
  : string :=
  match pdf_file with
  | FileObject (Some name) _ => name
  | OtherObject (Some name) => name
  | FilePath path _ => basename path
  | _ => "unknown.pdf"
  end.

(** [PDFProcessor.process_pdf(self, pdf_file)]; [basename] is
    [os.path.basename] and [now] is [str(datetime.now())]. *)
Definition process_pdf (basename : string -> string) (now : string)
  (self : PDFProcessor.t) (pdf_file : PdfFile) : Exc (list Document) :=
  text <- extract_text_from_pdf pdf_file ;;
  if negb (truthy (strip text)) then Raise no_text_error
  else
    let filename := filename_of basename pdf_file in
    documents <-
      PDFProcessor.create_document_chunks self text
        (Some [("source", Dict.VStr filename);
               ("file_type", Dict.VStr "pdf");
               ("total_characters", Dict.VInt (len text));
               ("processed_at", Dict.VStr now)]) ;;
    match documents with
    | [] => Raise no_chunks_error
    | _ => Ok documents
    end.

End PDFProcessorMore.

(* ------------------------------------------------------------------ *)
(** ** [Config.validate_file] of [src/config.py] *)

Module Config.

(** [s.rsplit('.', 1)]: the text before the last dot and the text after
    it, or the text alone when it has no dot. *)
Fixpoint rsplit_dot (s : string) : list string :=
  match s with
  | EmptyString => [""]
  | String a s' =>
      match rsplit_dot s' with
      | [t] => if Ascii.eqb a "."%char then [""; t] else [String a t]
      | h :: rest => String a h :: rest
      | [] => []
      end
  end.

(** [ALLOWED_EXTENSIONS = {'pdf'}] *)
Definition ALLOWED_EXTENSIONS : list string := ["pdf"].

(** [validate_file(cls, filename)]:
    ['.' in filename and filename.rsplit('.', 1)[1].lower() in ALLOWED_EXTENSIONS] *)
Definition validate_file (filename : string) : Exc bool :=
  if contains "." filename then
    extension <- py_index (rsplit_dot filename) 1 ;;
    Ok (existsb (String.eqb (lower extension)) ALLOWED_EXTENSIONS)
  else Ok false.

End Config.

(* ------------------------------------------------------------------ *)
(** ** [SimpleDatabaseManager] of [src/app.py] *)

(** A Python [dict] with string keys and values of one type. *)
Module StrDict.
Section Values.
Variable V : Type.

Definition t : Type := list (string * V).

(** [d.get(k)] *)
Fixpoint get (k : string) (d : t) : option V :=
  match d with
  | [] => None
  | (k', v) :: d' => if String.eqb k k' then Some v else get k d'
  end.

(** [k in d] *)
Definition mem (k : string) (d : t) : bool :=
  match get k d with Some _ => true | None => false end.

(** [d[k] = v] *)
Fixpoint set (k : string) (v : V) (d : t) : t :=
  match d with
  | [] => [(k, v)]
  | (k', v') :: d' =>
      if String.eqb k k' then (k, v) :: d' else (k', v') :: set k v d'
  end.

End Values.
End StrDict.

Module SimpleDatabaseManager.

(** [{'password': ..., 'name': ...}] *)
Record User : Type := mkUser {
  password : string;
  name : string
}.

(** What [authenticate_user] returns: [{'name': ..., 'username': ...}]. *)
Record UserInfo : Type := mkUserInfo {
  info_name : string;
  info_username : string
}.

(** [message_data]; [timestamp] is [datetime.now()] and [created_at] the
    formatted clock. *)
Record MessageData : Type := mkMessageData {
  username : string;
  conversation_id : string;
  role : string;
  content : string;
  timestamp : Z;
  created_at : string
}.

(** [self.users] and [self.messages]; [self.conversations] is set to the
    empty list by [__init__] and no method reads or writes it. *)
Record t : Type := mk {
  users : StrDict.t User;
  messages : list MessageData
}.

(** [__init__]: the two test users. *)
Definition init : t :=
  mk [("admin", mkUser "admin123" "Administrator");
      ("demo", mkUser "demo123" "Demo User")]
     [].

Definition authenticate_user (self : t) (username password : string)
  : option UserInfo :=
  match StrDict.get User username (users self) with
  | Some user =>
      if String.eqb password (SimpleDatabaseManager.password user)
      then Some (mkUserInfo (name user) username)
      else None
  | None => None
  end.

Definition user_exists (self : t) (username : string) : bool :=
  StrDict.mem User username (users self).

(** [register_user]: the answer and the manager afterwards. *)
Definition register_user (self : t) (username password display_name : string)
  : bool * t :=
  if StrDict.mem User username (users self) then (false, self)
  else
    (true,
     mk (StrDict.set User username
           (mkUser password
              (if truthy display_name then display_name else username))
           (users self))
        (messages self)).

(** [save_conversation_message]; [now] and [now_text] are the two clock
    readings. *)
Definition save_conversation_message (self : t)
  (username conversation_id role content : string) (now : Z)
  (now_text : string) : bool * t :=
  (true,
   mk (users self)
      (messages self
       ++ [mkMessageData username conversation_id role content now now_text])).

(** The placeholders: no conversation is ever listed or read back. *)
Definition get_user_conversations (self : t) (username : string)
  : list MessageData := [].

Definition get_conversation_history (self : t)
  (username conversation_id : string) : list MessageData := [].

Definition create_conversation (self : t) (username : string)
  (conversation_id : option string) (now_text : string) : string :=
  match conversation_id with
  | Some id => if truthy id then id else (username ++ "_" ++ now_text)%string
  | None => (username ++ "_" ++ now_text)%string
  end.

Definition delete_conversation (self : t) (username conversation_id : string)
  : bool := true.

End SimpleDatabaseManager.

(* ------------------------------------------------------------------ *)
(** ** The in-memory store of [DatabaseManager] ([src/database.py]) *)

(** Python's [l[start:]] and [l[:stop]]. *)
Definition slice_from {A : Type} (start : Z) (l : list A) : list A :=
  let n := Z.of_nat (length l) in
  skipn (Z.to_nat (if (start <? 0)%Z then Z.max 0 (n + start)
                   else Z.min n start)) l.

Definition slice_to {A : Type} (stop : Z) (l : list A) : list A :=
  let n := Z.of_nat (length l) in
  firstn (Z.to_nat (if (stop <? 0)%Z then Z.max 0 (n + stop)
                    else Z.min n stop)) l.

(** Python's [sorted(l, key=key)]: stable, by insertion after the items
    whose key is not larger. *)
Section Sorted.
Context {A : Type}.
Variable key : A -> Z.

Fixpoint insert_by_key (e : A) (l : list A) : list A :=
  match l with
  | [] => [e]
  | h :: t =>
      if (key h <=? key e)%Z then h :: insert_by_key e t else e :: h :: t
  end.

Definition sorted (l : list A) : list A :=
  fold_left (fun acc e => insert_by_key e acc) l [].

End Sorted.

Module DatabaseManager.

Abbreviation MessageData := SimpleDatabaseManager.MessageData.
Abbreviation mkMessageData := SimpleDatabaseManager.mkMessageData.
Abbreviation username := SimpleDatabaseManager.username.
Abbreviation conversation_id := SimpleDatabaseManager.conversation_id.
Abbreviation content := SimpleDatabaseManager.content.
Abbreviation timestamp := SimpleDatabaseManager.timestamp.
Abbreviation created_at := SimpleDatabaseManager.created_at.

(** [conversation_data] of [create_conversation]. *)
Record ConversationData : Type := mkConversationData {
  conv_conversation_id : string;
  conv_username : string;
  conv_created_at : Z;
  conv_updated_at : Z
}.

(** The store the conversation methods work on when MongoDB could not be
    reached ([mongodb_available] is [False]): [self.conversations] and
    [self.messages].  Nothing in this branch of the methods raises, so
    their [except] clauses are not reached. *)
Record t : Type := mk {
  conversations : list ConversationData;
  messages : list MessageData
}.

(** [msg['username'] == username and
     msg['conversation_id'] == conversation_id] *)
Definition in_conversation (username conversation_id : string)
  (msg : MessageData) : bool :=
  String.eqb (DatabaseManager.username msg) username
  && String.eqb (DatabaseManager.conversation_id msg) conversation_id.

Definition is_conversation (username conversation_id : string)
  (conv : ConversationData) : bool :=
  String.eqb (conv_username conv) username
  && String.eqb (conv_conversation_id conv) conversation_id.

(** [save_conversation_message], in-memory branch; [now] and [now_text]
    are the two clock readings. *)
Definition save_conversation_message (self : t)
  (username conversation_id role content : string) (now : Z)
  (now_text : string) : bool * t :=
  (true,
   mk (conversations self)
      (messages self
       ++ [mkMessageData username conversation_id role content now
             now_text])).

(** [get_conversation_history], in-memory branch. *)
Definition get_conversation_history (self : t)
  (username conversation_id : string) (limit : Z) : list MessageData :=
  let messages :=
    filter (in_conversation username conversation_id) (messages self) in
  slice_from (- limit) (sorted timestamp messages).

(** One entry of the listing of [get_user_conversations]. *)
Record Summary : Type := mkSummary {
  sum_conversation_id : string;
  title : string;
  last_message : string;
  last_timestamp : Z;
  message_count : Z;
  sum_created_at : string
}.

(** [msg['content'][:50] + '...' if len(msg['content']) > 50
     else msg['content']] *)
Definition title_of (content : string) : string :=
  if (len content >? 50)%Z then (String.substring 0 50 content ++ "...")%string
  else content.

(** The body of the loop of [get_user_conversations]. *)
Definition add_message (conversations : StrDict.t Summary)
  (msg : MessageData) : StrDict.t Summary :=
  let conv_id := DatabaseManager.conversation_id msg in
  match StrDict.get Summary conv_id conversations with
  | None =>
      StrDict.set Summary conv_id
        (mkSummary conv_id (title_of (DatabaseManager.content msg))
           (DatabaseManager.content msg) (DatabaseManager.timestamp msg) 1
           (DatabaseManager.created_at msg))
        conversations
  | Some conv =>
      StrDict.set Summary conv_id
        (mkSummary (sum_conversation_id conv) (title conv)
           (DatabaseManager.content msg) (DatabaseManager.timestamp msg)
           (message_count conv + 1) (sum_created_at conv))
        conversations
  end.

(** [get_user_conversations], in-memory branch. *)
Definition get_user_conversations (self : t) (username : string) (limit : Z)
  : list Summary :=
  let user_messages :=
    filter (fun msg => String.eqb (DatabaseManager.username msg) username)
      (messages self) in
  let conversations := fold_left add_message user_messages [] in
  slice_to limit (map snd conversations).

(** [delete_conversation], in-memory branch. *)
Definition delete_conversation (self : t)
  (username conversation_id : string) : bool * t :=
  (true,
   mk (filter (fun conv => negb (is_conversation username conversation_id conv))
         (conversations self))
      (filter (fun msg => negb (in_conversation username conversation_id msg))
         (messages self))).

End DatabaseManager.

(* ------------------------------------------------------------------ *)
(** ** Facts on Python strings *)

Module PyStrFacts.

Lemma length_append (s t : string) :
  String.length (s ++ t) = String.length s + String.length t.
Proof. induction s as [|c s IH]; simpl; [reflexivity | now rewrite IH]. Qed.

Lemma len_append (s t : string) : (len (s ++ t) = len s + len t)%Z.
Proof. unfold len. rewrite length_append. lia. Qed.

Lemma len_nonneg (s : string) : (0 <= len s)%Z.
Proof. unfold len. lia. Qed.

Lemma len_zero (s : string) : len s = 0%Z -> s = "".
Proof. destruct s; [reflexivity | unfold len; simpl; lia]. Qed.

Lemma append_empty_r (s : string) : (s ++ "")%string = s.
Proof. induction s as [|c s IH]; simpl; [reflexivity | now rewrite IH]. Qed.

Lemma append_assoc (s t u : string) :
  ((s ++ t) ++ u)%string = (s ++ (t ++ u))%string.
Proof. induction s as [|c s IH]; simpl; [reflexivity | now rewrite IH]. Qed.

Lemma truthy_true (s : string) : truthy s = true <-> s <> "".
Proof.
  unfold truthy. rewrite negb_true_iff. apply String.eqb_neq.
Qed.

Lemma truthy_false (s : string) : truthy s = false <-> s = "".
Proof.
  unfold truthy. rewrite negb_false_iff. apply String.eqb_eq.
Qed.

Lemma length_lstrip (s : string) : String.length (lstrip s) <= String.length s.
Proof.
  induction s as [|c s IH]; simpl; [lia|].
  destruct (isspace c); simpl; lia.
Qed.

Lemma length_rstrip (s : string) : String.length (rstrip s) <= String.length s.
Proof.
  induction s as [|c s IH]; simpl; [lia|].
  destruct (rstrip s) eqn:E.
  - destruct (isspace c); simpl; lia.
  - simpl in *. lia.
Qed.

Lemma len_strip_le (s : string) : (len (strip s) <= len s)%Z.
Proof.
  unfold len, strip.
  pose proof (length_rstrip (lstrip s)). pose proof (length_lstrip s). lia.
Qed.

(** A string that is empty or starts with a character that is not a space. *)
Definition left_clean (s : string) : Prop :=
  match s with
  | EmptyString => True
  | String c _ => isspace c = false
  end.

Lemma lstrip_left_clean (s : string) : left_clean (lstrip s).
Proof.
  induction s as [|c s IH]; simpl; [exact I|].
  destruct (isspace c) eqn:E; [exact IH | exact E].
Qed.

Lemma lstrip_fixed (s : string) : left_clean s -> lstrip s = s.
Proof. destruct s as [|c s]; simpl; [reflexivity | now intros ->]. Qed.

Lemma rstrip_left_clean (s : string) : left_clean s -> left_clean (rstrip s).
Proof.
  destruct s as [|c s]; simpl; [easy|]. intros H.
  destruct (rstrip s); [rewrite H|]; exact H.
Qed.

Lemma rstrip_idem (s : string) : rstrip (rstrip s) = rstrip s.
Proof.
  induction s as [|c s IH]; simpl; [reflexivity|].
  destruct (rstrip s) as [|c' r] eqn:E.
  - destruct (isspace c) eqn:Ec; simpl; [reflexivity | now rewrite Ec].
  - change (rstrip (String c (String c' r))) with
      (match rstrip (String c' r) with
       | EmptyString => if isspace c then EmptyString else String c EmptyString
       | r' => String c r'
       end).
    rewrite IH. reflexivity.
Qed.

Lemma strip_idem (s : string) : strip (strip s) = strip s.
Proof.
  unfold strip.
  rewrite (lstrip_fixed (rstrip (lstrip s))).
  - apply rstrip_idem.
  - apply rstrip_left_clean, lstrip_left_clean.
Qed.

Lemma strip_empty : strip "" = "".
Proof. reflexivity. Qed.

(** [join] with the empty separator is concatenation. *)
Lemma join_empty_cons (x : string) (l : list string) :
  join "" (x :: l) = (x ++ join "" l)%string.
Proof.
  unfold join. destruct l as [|y l]; simpl; [now rewrite append_empty_r | reflexivity].
Qed.

Lemma join_empty_app (l1 l2 : list string) :
  join "" (l1 ++ l2) = (join "" l1 ++ join "" l2)%string.
Proof.
  induction l1 as [|x l1 IH]; [reflexivity|].
  rewrite <- app_comm_cons, !join_empty_cons, IH, append_assoc. reflexivity.
Qed.

(** The summed length of a list of pieces. *)
Fixpoint total_len (l : list string) : Z :=
  match l with
  | [] => 0%Z
  | x :: l' => (len x + total_len l')%Z
  end.

Lemma total_len_nonneg (l : list string) : (0 <= total_len l)%Z.
Proof.
  induction l as [|x l IH]; simpl; [lia|]. pose proof (len_nonneg x). lia.
Qed.

Lemma total_len_app (l1 l2 : list string) :
  total_len (l1 ++ l2) = (total_len l1 + total_len l2)%Z.
Proof. induction l1 as [|x l1 IH]; simpl; [reflexivity | rewrite IH; lia]. Qed.

Lemma len_join_empty (l : list string) : len (join "" l) = total_len l.
Proof.
  induction l as [|x l IH]; [reflexivity|].
  rewrite join_empty_cons, len_append, IH. reflexivity.
Qed.

Lemma total_len_In (l : list string) (x : string) :
  In x l -> (len x <= total_len l)%Z.
Proof.
  induction l as [|y l IH]; simpl; [easy|].
  pose proof (total_len_nonneg l) as Hl. pose proof (len_nonneg y) as Hy.
  intros [-> | Hin]; [lia | specialize (IH Hin); lia].
Qed.

Lemma join_chars (text : string) : join "" (chars text) = text.
Proof.
  induction text as [|c t IH]; [reflexivity|].
  simpl chars. rewrite join_empty_cons, IH. reflexivity.
Qed.

Lemma chars_length_one (text x : string) :
  In x (chars text) -> exists c, x = String c "".
Proof.
  induction text as [|c t IH]; simpl; [easy|].
  intros [<- | H]; [now exists c | now apply IH].
Qed.

Lemma join_filter_truthy (l : list string) :
  join "" (filter truthy l) = join "" l.
Proof.
  induction l as [|x l IH]; [reflexivity|]. simpl filter.
  destruct (truthy x) eqn:E.
  - now rewrite !join_empty_cons, IH.
  - apply truthy_false in E. subst x. now rewrite join_empty_cons, IH.
Qed.

(** [drop n s]: [s[n:]] *)
Fixpoint drop (n : nat) (s : string) : string :=
  match n, s with
  | S n', String _ s' => drop n' s'
  | _, _ => s
  end.

Lemma drop_append (s r : string) : drop (String.length s) (s ++ r) = r.
Proof. induction s as [|c s IH]; simpl; [now destruct r | exact IH]. Qed.

Lemma prefix_append (p s : string) :
  String.prefix p s = true -> exists r, s = (p ++ r)%string.
Proof.
  revert s. induction p as [|c p IH]; intros s H.
  - now exists s.
  - destruct s as [|c' s]; simpl in H; [discriminate|].
    destruct (ascii_dec c c') as [->|]; [|discriminate].
    destruct (IH s H) as [r ->]. now exists r.
Qed.

Lemma re_split_from_scan (sep cur : string) (c : ascii) (rest : string) :
  re_split_from sep 0 cur (String c rest) =
  if String.prefix sep (String c rest)
  then cur :: sep :: re_split_from sep (String.length sep - 1) "" rest
  else re_split_from sep 0 (cur ++ String c "") rest.
Proof. reflexivity. Qed.

Lemma join_re_split_from (sep : string) :
  sep <> "" ->
  forall (text : string) (skip : nat) (cur : string),
    skip <= String.length text ->
    join "" (re_split_from sep skip cur text) = (cur ++ drop skip text)%string.
Proof.
  intros Hsep text.
  induction text as [|c rest IH]; intros skip cur Hskip.
  - change (re_split_from sep skip cur "") with [cur].
    rewrite join_empty_cons. destruct skip; reflexivity.
  - destruct skip as [|n].
    + rewrite re_split_from_scan.
      destruct (String.prefix sep (String c rest)) eqn:E.
      * apply prefix_append in E. destruct E as [r Hr].
        destruct sep as [|c0 sep']; [easy|].
        simpl in Hr. injection Hr as <- ->.
        rewrite !join_empty_cons.
        replace (String.length (String c sep') - 1) with (String.length sep')
          by (simpl; lia).
        rewrite IH by (rewrite length_append; lia).
        rewrite drop_append. reflexivity.
      * rewrite IH by lia. simpl. rewrite append_assoc. reflexivity.
    + simpl in Hskip. simpl re_split_from. rewrite IH by lia. reflexivity.
Qed.

Lemma join_re_split (sep text : string) :
  sep <> "" -> join "" (re_split sep text) = text.
Proof.
  intros H. unfold re_split. rewrite join_re_split_from by (assumption || lia).
  reflexivity.
Qed.

End PyStrFacts.

(* ------------------------------------------------------------------ *)
(** ** Facts on loops that may raise *)

Lemma for_each_invariant {A S : Type} (body : S -> A -> Exc S)
  (I : S -> Prop) (P : A -> Prop) :
  (forall st x, I st -> P x -> exists st', body st x = Ok st' /\ I st') ->
  forall l st, Forall P l -> I st ->
    exists st', for_each body l st = Ok st' /\ I st'.
Proof.
  intros Hbody l. induction l as [|x l IH]; intros st Hl Hst.
  - exists st. split; [reflexivity | assumption].
  - inversion Hl as [|? ? Hx Hl']; subst.
    destruct (Hbody st x Hst Hx) as [st1 [E1 I1]].
    simpl. rewrite E1. simpl. apply IH; assumption.
Qed.

(* ------------------------------------------------------------------ *)
(** ** Facts on the splitter *)

Module TextSplitterFacts.
Import TextSplitter PyStrFacts.

Lemma join_pair_up (l : list string) : join "" (pair_up l) = join "" l.
Proof.
  assert (H : join "" (pair_up l) = join "" l
              /\ forall a, join "" (pair_up (a :: l)) = join "" (a :: l)).
  { induction l as [|b l [IH1 IH2]].
    - split; reflexivity.
    - split; [apply IH2|]. intros a. simpl pair_up.
      rewrite !join_empty_cons, IH1, append_assoc. reflexivity. }
  apply H.
Qed.

(** The pieces of a text, glued together, give the text back. *)
Lemma join_split_text_with_regex (text separator : string) :
  join "" (split_text_with_regex text separator) = text.
Proof.
  unfold split_text_with_regex. rewrite join_filter_truthy.
  destruct (truthy separator) eqn:E.
  - apply truthy_true in E. pose proof (join_re_split separator text E) as J.
    destruct (re_split separator text) as [|s0 tl]; [exact J|].
    rewrite join_empty_cons, join_pair_up, <- join_empty_cons. exact J.
  - apply join_chars.
Qed.

Lemma split_text_with_regex_chars (text x : string) :
  In x (split_text_with_regex text "") -> exists c, x = String c "".
Proof.
  unfold split_text_with_regex. simpl. intros H.
  apply filter_In in H. destruct H as [H _]. eapply chars_length_one, H.
Qed.

Lemma join_docs_spec (l : list string) (doc : string) :
  join_docs l "" = Some doc -> doc = strip (join "" l) /\ doc <> "".
Proof.
  unfold join_docs. destruct (String.eqb_spec (strip (join "" l)) ""); [discriminate|].
  intros [= <-]. split; [reflexivity | assumption].
Qed.

Lemma Forall_append_doc (Q : string -> Prop) (docs : list string)
  (doc : option string) :
  Forall Q docs -> (forall x, doc = Some x -> Q x) ->
  Forall Q (append_doc docs doc).
Proof.
  intros Hd Hx. destruct doc as [x|]; simpl; [|assumption].
  apply Forall_app. split; [assumption | constructor; auto].
Qed.

Section Bounds.
Variable ts : t.
Hypothesis size_positive : (0 < chunk_size ts)%Z.
Hypothesis overlap_nonneg : (0 <= chunk_overlap ts)%Z.

(** A piece the loop of [_split_text] sends to [_merge_splits]. *)
Definition good (s : string) : Prop := (len s < chunk_size ts)%Z.

Lemma if_zero (b : bool) : (if b then 0%Z else 0%Z) = 0%Z.
Proof. destruct b; reflexivity. Qed.

Lemma must_drop_empty_sep (_len total : Z) (cur : list string) :
  must_drop ts "" _len total cur
  = ((total >? chunk_overlap ts)%Z
     || ((total + _len >? chunk_size ts)%Z && (total >? 0)%Z)).
Proof.
  unfold must_drop. destruct (has_items cur); simpl len;
    rewrite Z.add_0_r; reflexivity.
Qed.

(** The [while] loop ends, keeps a suffix and leaves the guard false. *)
Lemma drop_front_ok (_len : Z) (cur : list string) :
  exists pre cur',
    drop_front ts "" _len (total_len cur) cur = Ok (total_len cur', cur')
    /\ cur = pre ++ cur'
    /\ must_drop ts "" _len (total_len cur') cur' = false.
Proof.
  induction cur as [|d0 rest IH].
  - exists [], []. simpl drop_front.
    assert (E : must_drop ts "" _len 0 [] = false).
    { rewrite must_drop_empty_sep.
      apply orb_false_iff. split; [lia|]. apply andb_false_iff. right. lia. }
    simpl total_len. rewrite E. auto.
  - destruct (must_drop ts "" _len (total_len (d0 :: rest)) (d0 :: rest)) eqn:E.
    + destruct IH as [pre [cur' [E1 [E2 E3]]]].
      exists (d0 :: pre), cur'. split; [|split].
      * simpl drop_front. simpl total_len in E. rewrite E.
        replace (len d0 + total_len rest
                 - (len d0 + (if (1 <? S (length rest))%nat then len "" else 0)))%Z
          with (total_len rest)
          by (change (len "") with 0%Z; destruct (1 <? S (length rest))%nat; lia).
        exact E1.
      * now rewrite E2.
      * exact E3.
    + exists [], (d0 :: rest). split; [|split].
      * simpl drop_front. simpl total_len in E. rewrite E. reflexivity.
      * reflexivity.
      * exact E.
Qed.

Section Emitted.
(** [Q]: a property of everything [_merge_splits] emits. *)
Variable Q : string -> Prop.
Hypothesis Q_merged :
  forall l doc, Forall good l -> (total_len l <= chunk_size ts)%Z ->
    join_docs l "" = Some doc -> Q doc.

Definition merge_inv (st : list string * list string * Z) : Prop :=
  let '(docs, cur, total) := st in
  total = total_len cur /\ Forall good cur
  /\ (total <= chunk_size ts)%Z /\ Forall Q docs.

Lemma merge_step_ok (st : list string * list string * Z) (d : string) :
  merge_inv st -> good d ->
  exists st', merge_step ts "" st d = Ok st' /\ merge_inv st'.
Proof.
  destruct st as [[docs cur] total]. intros [Ht [Hc [Hs Hd]]] Hg. subst total.
  unfold merge_step, good in *. change (len "") with 0%Z.
  rewrite if_zero, Z.add_0_r.
  assert (Hkeep : (total_len cur + len d <= chunk_size ts)%Z ->
                  merge_inv (docs, cur ++ [d], (total_len cur + len d + 0)%Z)).
  { intros Hle. unfold merge_inv. rewrite total_len_app. simpl.
    split; [lia|]. split; [|split; [lia | assumption]].
    apply Forall_app. split; [assumption | constructor; auto]. }
  destruct (total_len cur + len d >? chunk_size ts)%Z eqn:E.
  - destruct (has_items cur) eqn:Hi.
    + destruct (drop_front_ok (len d) cur) as [pre [cur' [E1 [E2 E3]]]].
      rewrite E1. cbn [exc_bind fst snd]. rewrite if_zero.
      eexists. split; [reflexivity|].
      rewrite must_drop_empty_sep in E3.
      apply orb_false_iff in E3. destruct E3 as [E3 E4].
      apply andb_false_iff in E4.
      pose proof (total_len_nonneg cur') as Hnn.
      unfold merge_inv. rewrite total_len_app. simpl.
      assert (Hc' : Forall good cur').
      { rewrite E2 in Hc. apply Forall_app in Hc. apply Hc. }
      split; [|split; [|split]].
      * lia.
      * apply Forall_app. split; [assumption | constructor; auto].
      * destruct E4 as [E4 | E4]; lia.
      * apply Forall_append_doc; [assumption|].
        intros x Hx. apply (Q_merged cur x); assumption.
    + cbn [exc_bind]. rewrite if_zero.
      eexists. split; [reflexivity|]. apply Hkeep.
      destruct cur; [simpl; simpl in E; lia | discriminate].
  - cbn [exc_bind]. rewrite if_zero.
    eexists. split; [reflexivity|]. apply Hkeep. lia.
Qed.

(** [_merge_splits] on good pieces returns, and emits only [Q] documents. *)
Lemma merge_splits_ok (splits : list string) :
  Forall good splits ->
  exists docs, merge_splits ts "" splits = Ok docs /\ Forall Q docs.
Proof.
  intros Hs. unfold merge_splits.
  destruct (for_each_invariant (merge_step ts "") merge_inv good merge_step_ok
              splits ([], [], 0%Z) Hs) as [[[docs cur] total] [E I]].
  { unfold merge_inv. simpl. split; [reflexivity|]. split; [constructor|].
    split; [lia | constructor]. }
  rewrite E. simpl. eexists. split; [reflexivity|].
  destruct I as [Ht [Hc [Hle Hd]]]. subst total.
  apply Forall_append_doc; [assumption|].
  intros x Hx. apply (Q_merged cur x); assumption.
Qed.

Hypothesis Q_single : forall c, ~ good (String c "") -> Q (String c "").

Definition recurse_ok (recurse : option (string -> Exc (list string)))
  : Prop :=
  match recurse with
  | None => True
  | Some f => forall s, exists chunks, f s = Ok chunks /\ Forall Q chunks
  end.

(** A piece that may be passed on as it is when no finer separator is left. *)
Definition final_ok (recurse : option (string -> Exc (list string)))
  (s : string) : Prop :=
  recurse = None -> good s \/ Q s.

Definition split_inv (st : list string * list string) : Prop :=
  Forall Q (fst st) /\ Forall good (snd st).

Lemma flush_ok (final pending : list string) :
  Forall Q final -> Forall good pending ->
  exists final1,
    match pending with
    | [] => Ok final
    | _ => exc_bind (merge_splits ts "" pending)
             (fun merged => Ok (final ++ merged))
    end = Ok final1
    /\ Forall Q final1.
Proof.
  intros Hf Hp. destruct pending as [|p pending].
  - exists final. auto.
  - destruct (merge_splits_ok (p :: pending) Hp) as [docs [E Hd]].
    rewrite E. simpl. eexists. split; [reflexivity|].
    apply Forall_app. auto.
Qed.

Lemma split_step_ok (recurse : option (string -> Exc (list string)))
  (st : list string * list string) (s : string) :
  recurse_ok recurse -> split_inv st -> final_ok recurse s ->
  exists st', split_step ts "" recurse st s = Ok st' /\ split_inv st'.
Proof.
  destruct st as [final pending]. intros Hr [Hf Hp] Hs. simpl in Hf, Hp.
  unfold split_step.
  destruct (len s <? chunk_size ts)%Z eqn:E.
  - eexists. split; [reflexivity|]. split; simpl; [assumption|].
    apply Forall_app. split; [assumption|]. constructor; [|constructor].
    unfold good. lia.
  - destruct (flush_ok final pending Hf Hp) as [final1 [E1 H1]].
    rewrite E1. simpl.
    destruct recurse as [f|].
    + destruct (Hr s) as [other [E2 H2]]. rewrite E2. simpl.
      eexists. split; [reflexivity|]. split; simpl; [|constructor].
      apply Forall_app. auto.
    + eexists. split; [reflexivity|]. split; simpl; [|constructor].
      apply Forall_app. split; [assumption|]. constructor; [|constructor].
      destruct (Hs eq_refl) as [Hg | Hq]; [unfold good in Hg; lia | exact Hq].
Qed.

Lemma split_with_ok (separator : string)
  (recurse : option (string -> Exc (list string))) (text : string) :
  recurse_ok recurse ->
  Forall (final_ok recurse) (split_text_with_regex text separator) ->
  exists chunks,
    split_with ts separator recurse text = Ok chunks /\ Forall Q chunks.
Proof.
  intros Hr Hs. unfold split_with.
  destruct (for_each_invariant (split_step ts "" recurse) split_inv
              (final_ok recurse)
              (fun st x Hst Hx => split_step_ok recurse st x Hr Hst Hx)
              _ ([], []) Hs) as [[final pending] [E [Hf Hp]]].
  { split; constructor. }
  rewrite E. simpl. apply flush_ok; assumption.
Qed.

(** With [""] among the separators [_split_text] returns, and every chunk
    it returns is [Q]. *)
Lemma split_text_rec_ok (seps : list string) :
  In "" seps ->
  forall text, exists chunks,
    split_text_rec ts seps text = Ok chunks /\ Forall Q chunks.
Proof.
  induction seps as [|_s rest IH]; intros Hin text; [destruct Hin|].
  simpl split_text_rec.
  destruct (String.eqb_spec _s "") as [-> | Hne].
  - apply split_with_ok; [exact I|].
    apply Forall_forall. intros x Hx _.
    destruct (split_text_with_regex_chars text x Hx) as [c ->].
    destruct (Z_lt_dec (len (String c "")) (chunk_size ts)) as [Hg | Hg].
    + left. exact Hg.
    + right. apply Q_single. exact Hg.
  - destruct Hin as [E | Hin]; [congruence|].
    specialize (IH Hin).
    destruct rest as [|r rest']; [destruct Hin|].
    destruct (contains _s text).
    + apply split_with_ok; [exact IH|].
      apply Forall_forall. intros x _ Hx. discriminate.
    + apply IH.
Qed.

End Emitted.

(** *** Pieces that fit into one chunk *)

Lemma for_each_merge_fit (l cur : list string) :
  (total_len cur + total_len l <= chunk_size ts)%Z ->
  for_each (merge_step ts "") l ([], cur, total_len cur)
  = Ok ([], cur ++ l, total_len (cur ++ l)).
Proof.
  revert cur. induction l as [|d l IH]; intros cur Hfit.
  - rewrite app_nil_r. reflexivity.
  - simpl total_len in Hfit. pose proof (total_len_nonneg l) as Hl.
    simpl for_each. unfold merge_step at 1. change (len "") with 0%Z.
    rewrite if_zero, Z.add_0_r.
    destruct (total_len cur + len d >? chunk_size ts)%Z eqn:E; [lia|].
    cbn [exc_bind]. rewrite if_zero.
    replace (total_len cur + len d + 0)%Z with (total_len (cur ++ [d]))
      by (rewrite total_len_app; simpl; lia).
    rewrite IH by (rewrite total_len_app; simpl; lia).
    rewrite <- app_assoc. reflexivity.
Qed.

Lemma merge_splits_fit (splits : list string) :
  (total_len splits <= chunk_size ts)%Z ->
  merge_splits ts "" splits = Ok (append_doc [] (join_docs splits "")).
Proof.
  intros Hfit. unfold merge_splits.
  change 0%Z with (total_len []).
  rewrite for_each_merge_fit by (simpl; lia). reflexivity.
Qed.

Lemma for_each_split_good (recurse : option (string -> Exc (list string)))
  (l final pending : list string) :
  Forall good l ->
  for_each (split_step ts "" recurse) l (final, pending)
  = Ok (final, pending ++ l).
Proof.
  revert pending. induction l as [|s l IH]; intros pending Hl.
  - rewrite app_nil_r. reflexivity.
  - inversion Hl as [|? ? Hs Hl']; subst. unfold good in Hs.
    simpl for_each. unfold split_step at 1.
    destruct (len s <? chunk_size ts)%Z eqn:E; [|lia].
    simpl exc_bind. rewrite IH by assumption.
    rewrite <- app_assoc. reflexivity.
Qed.

(** What the splitter makes of a text that fits: the stripped text, or
    nothing when that is empty. *)
Definition whole (text : string) : list string :=
  append_doc [] (join_docs [text] "").

Lemma split_with_short (separator : string)
  (recurse : option (string -> Exc (list string))) (text : string) :
  (len text < chunk_size ts)%Z ->
  split_with ts separator recurse text = Ok (whole text).
Proof.
  intros Hshort. unfold split_with.
  pose proof (join_split_text_with_regex text separator) as J.
  set (pieces := split_text_with_regex text separator) in *.
  assert (Ht : total_len pieces = len text)
    by (rewrite <- len_join_empty, J; reflexivity).
  assert (Hg : Forall good pieces).
  { apply Forall_forall. intros x Hx. unfold good.
    pose proof (total_len_In pieces x Hx). lia. }
  rewrite for_each_split_good by assumption. simpl.
  assert (W : append_doc [] (join_docs pieces "") = whole text).
  { unfold whole, join_docs. rewrite J. reflexivity. }
  destruct pieces as [|p pieces'] eqn:Ep.
  - rewrite <- W. reflexivity.
  - rewrite merge_splits_fit by lia. simpl. rewrite W. reflexivity.
Qed.

Lemma split_text_rec_short (seps : list string) (text : string) :
  seps <> [] -> (len text < chunk_size ts)%Z ->
  split_text_rec ts seps text = Ok (whole text).
Proof.
  intros Hne Hshort. induction seps as [|_s rest IH]; [easy|].
  simpl split_text_rec.
  destruct (String.eqb _s ""); [now apply split_with_short|].
  destruct (contains _s text); [now apply split_with_short|].
  destruct rest as [|r rest']; [now apply split_with_short|].
  apply IH. discriminate.
Qed.

End Bounds.

(** *** The two instances *)

(** Every chunk is at most [chunk_size] long. *)
Lemma split_text_bounded (ts : t) (text : string) :
  (0 <= chunk_overlap ts < chunk_size ts)%Z -> In "" (separators ts) ->
  exists chunks,
    split_text ts text = Ok chunks
    /\ Forall (fun c => (len c <= chunk_size ts)%Z) chunks.
Proof.
  intros Hcfg Hin. unfold split_text.
  apply (split_text_rec_ok ts); try lia; try assumption.
  - intros l doc _ Hfit Hdoc.
    apply join_docs_spec in Hdoc. destruct Hdoc as [-> _].
    pose proof (len_strip_le (join "" l)) as Hs.
    rewrite len_join_empty in Hs. lia.
  - intros c Hg. unfold good in Hg. change (len (String c "")) with 1%Z in *.
    lia.
Qed.



(** A text shorter than the chunk size is one chunk: itself, stripped. *)
Lemma split_text_short (ts : t) (text : string) :
  separators ts <> [] -> (len text < chunk_size ts)%Z -> strip text <> "" ->
  split_text ts text = Ok [strip text].
Proof.
  intros Hne Hshort Htext. unfold split_text.
  rewrite split_text_rec_short by assumption.
  unfold whole, join_docs. change (join "" [text]) with text.
  destruct (String.eqb_spec (strip text) ""); [contradiction | reflexivity].
Qed.
End TextSplitterFacts.

(* ------------------------------------------------------------------ *)
(** ** The chunker: [create_text_chunks] and [create_document_chunks] *)

Module ChunkerFacts.
Import PyStrFacts TextSplitterFacts.

(** The text of the splitter's own test in langchain, which is split
    with chunk size 10 and overlap 1. *)
Definition reference_text : string :=
  ("Hi." ++ nl ++ nl ++ "I'm Harrison." ++ nl ++ nl ++ "How? Are? You?" ++ nl
   ++ "Okay then f f f f." ++ nl
   ++ "This is a weird text to write, but gotta test the splittingggg some how."
   ++ nl ++ nl ++ "Bye!" ++ nl ++ nl ++ "-H.")%string.

(** The model gives the chunks that test expects. *)
Example splitter_reference_run :
  TextSplitter.split_text (TextSplitter.mk 10 1 separators) reference_text
  = Ok ["Hi."; "I'm"; "Harrison."; "How? Are?"; "You?"; "Okay then";
        "f f f f."; "This is a"; "weird"; "text to"; "write,"; "but gotta";
        "test the"; "splitting"; "gggg"; "some how."; "Bye!"; "-H."].
Proof. vm_compute. reflexivity. Qed.

Lemma splitter_valid (size overlap : Z) (seps : list string) :
  (0 <= overlap < size)%Z ->
  TextSplitter.RecursiveCharacterTextSplitter size overlap seps
  = Ok (TextSplitter.mk size overlap seps).
Proof.
  intros H. unfold TextSplitter.RecursiveCharacterTextSplitter.
  destruct (size <=? 0)%Z eqn:E1; [lia|].
  destruct (overlap <? 0)%Z eqn:E2; [lia|].
  destruct (overlap >? size)%Z eqn:E3; [lia|]. reflexivity.
Qed.

Lemma empty_separator_listed : In "" separators.
Proof. unfold separators. simpl. auto. Qed.

(** Every document the loop keeps comes from one enumerated chunk. *)
Lemma collect_documents_In (meta : Z -> string -> Dict.t)
  (ichunks : list (Z * string)) (doc : Document) :
  In doc (collect_documents meta ichunks) ->
  exists i chunk,
    In (i, chunk) ichunks /\ strip chunk <> ""
    /\ doc = mkDocument (strip chunk) (meta i chunk).
Proof.
  induction ichunks as [|[i chunk] rest IH]; simpl; [easy|].
  destruct (truthy (strip chunk)) eqn:E.
  - intros [<- | H].
    + exists i, chunk. apply truthy_true in E. auto.
    + destruct (IH H) as [j [c [H1 H2]]]. exists j, c. auto.
  - intros H. destruct (IH H) as [j [c [H1 H2]]]. exists j, c. auto.
Qed.

Lemma enumerate_from_In {A : Type} (l : list A) (k i : Z) (x : A) :
  In (i, x) (enumerate_from k l) ->
  (k <= i)%Z /\ nth_error l (Z.to_nat (i - k)) = Some x.
Proof.
  revert k. induction l as [|y l IH]; intros k; simpl; [easy|].
  intros [[= <- <-] | H].
  - rewrite Z.sub_diag. split; [lia | reflexivity].
  - destruct (IH _ H) as [H1 H2]. split; [lia|].
    replace (Z.to_nat (i - k)) with (S (Z.to_nat (i - (k + 1)))) by lia.
    exact H2.
Qed.

Lemma length_enumerate_from {A : Type} (l : list A) (k : Z) :
  length (enumerate_from k l) = length l.
Proof. revert k. induction l as [|y l IH]; intros k; simpl; auto. Qed.

Lemma nth_error_enumerate_from {A : Type} (l : list A) (k : Z) (n : nat) :
  nth_error (enumerate_from k l) n
  = option_map (fun x => ((k + Z.of_nat n)%Z, x)) (nth_error l n).
Proof.
  revert k n. induction l as [|y l IH]; intros k [|n]; simpl; try reflexivity.
  - now rewrite Z.add_0_r.
  - rewrite IH. destruct (nth_error l n); simpl; [|reflexivity].
    do 2 f_equal. lia.
Qed.


Lemma len_page_content_bounded (meta : Z -> string -> Dict.t)
  (chunks : list string) (size : Z) :
  Forall (fun c => (len c <= size)%Z) chunks ->
  Forall (fun doc => (len (page_content doc) <= size)%Z)
    (collect_documents meta (enumerate chunks)).
Proof.
  intros H. apply Forall_forall. intros doc Hdoc.
  apply collect_documents_In in Hdoc.
  destruct Hdoc as [i [chunk [Hin [_ ->]]]]. simpl.
  apply enumerate_from_In in Hin. destruct Hin as [_ Hin].
  apply nth_error_In in Hin.
  rewrite Forall_forall in H. specialize (H _ Hin).
  pose proof (len_strip_le chunk). lia.
Qed.

End ChunkerFacts.
Import PyStrFacts TextSplitterFacts ChunkerFacts.

(** The documents are all at most [size] characters long. *)
Definition all_within (size : Z) (docs : list Document) : Prop :=
  Forall (fun doc => (len (page_content doc) <= size)%Z) docs.

(** C4.  For every text and every configuration with
    [0 <= overlap < size], the chunker returns (it does not raise) and
    every segment it returns is at most [size] characters long; this holds
    for [create_text_chunks] of the application and for
    [PDFProcessor.create_document_chunks]. *)
Theorem chunker_segments_bounded (text filename : string) (size overlap : Z)
  (metadata : option Dict.t) :
  (0 <= overlap < size)%Z ->
  (exists docs,
     create_text_chunks text filename size overlap = Ok docs
     /\ all_within size docs)
  /\ (exists processor,
        PDFProcessor.init size overlap = Ok processor
        /\ exists docs,
             PDFProcessor.create_document_chunks processor text metadata
             = Ok docs
             /\ all_within size docs).
Proof.
  intros Hcfg.
  destruct (split_text_bounded (TextSplitter.mk size overlap separators) text)
    as [chunks [E Hb]]; [exact Hcfg | exact empty_separator_listed |].
  simpl in Hb. split.
  - unfold create_text_chunks. rewrite splitter_valid by assumption.
    simpl. rewrite E. simpl. eexists. split; [reflexivity|].
    apply len_page_content_bounded, Hb.
  - unfold PDFProcessor.init. rewrite splitter_valid by assumption.
    simpl. eexists. split; [reflexivity|].
    unfold PDFProcessor.create_document_chunks. simpl.
    destruct (negb (truthy text) || negb (truthy (strip text))).
    + exists []. split; [reflexivity | constructor].
    + rewrite E. simpl. eexists. split; [reflexivity|].
      apply len_page_content_bounded, Hb.
Qed.

Lemma chunker_segments_bounded_witness :
  (0 <= 3 < 10)%Z
  /\ ((exists docs,
         create_text_chunks "Hello world. This is a test document."
           "hello.pdf" 10 3 = Ok docs
         /\ all_within 10 docs)
      /\ (exists processor,
            PDFProcessor.init 10 3 = Ok processor
            /\ exists docs,
                 PDFProcessor.create_document_chunks processor
                   "Hello world. This is a test document." None = Ok docs
                 /\ all_within 10 docs)).
Proof.
  split; [lia|].
  apply (chunker_segments_bounded _ "hello.pdf" 10 3 None). lia.
Defined.

(** C8.  A text that is not blank and is shorter than the chunk size
    gives exactly one segment, whose text is the stripped input. *)
Theorem chunker_short_text_single_segment (text filename : string)
  (size overlap : Z) (metadata : option Dict.t) :
  (0 <= overlap < size)%Z -> strip text <> "" -> (len text < size)%Z ->
  create_text_chunks text filename size overlap
  = Ok [mkDocument (strip text)
          [("source", Dict.VStr filename); ("chunk_id", Dict.VInt 0);
           ("total_chunks", Dict.VInt 1)]]
  /\ exists processor,
       PDFProcessor.init size overlap = Ok processor
       /\ PDFProcessor.create_document_chunks processor text metadata
          = Ok [mkDocument (strip text)
                  (Dict.update
                     (match metadata with Some m => m | None => [] end)
                     [("chunk_id", Dict.VInt 0);
                      ("total_chunks", Dict.VInt 1);
                      ("chunk_size", Dict.VInt (len (strip text)))])].
Proof.
  intros Hcfg Htext Hshort.
  assert (E : TextSplitter.split_text
                (TextSplitter.mk size overlap separators) text
              = Ok [strip text]).
  { apply split_text_short; [discriminate | exact Hshort | exact Htext]. }
  assert (Hkeep : truthy (strip (strip text)) = true).
  { rewrite strip_idem. now apply truthy_true. }
  split.
  - unfold create_text_chunks. rewrite splitter_valid by assumption.
    simpl exc_bind. rewrite E. simpl exc_bind.
    unfold enumerate. simpl. rewrite Hkeep, strip_idem. reflexivity.
  - unfold PDFProcessor.init. rewrite splitter_valid by assumption.
    simpl exc_bind. eexists. split; [reflexivity|].
    unfold PDFProcessor.create_document_chunks.
    assert (Ht : truthy text = true).
    { apply truthy_true. intros ->. now apply Htext. }
    assert (Hs : truthy (strip text) = true) by now apply truthy_true.
    rewrite Ht, Hs. simpl negb. simpl orb. cbv iota.
    simpl PDFProcessor.text_splitter. rewrite E. simpl exc_bind.
    unfold enumerate. simpl collect_documents.
    rewrite Hkeep, strip_idem. reflexivity.
Qed.

Lemma chunker_short_text_single_segment_witness :
  (0 <= 200 < 1000)%Z
  /\ strip "Hello world. This is a test document." <> ""
  /\ (len "Hello world. This is a test document." < 1000)%Z
  /\ (create_text_chunks "Hello world. This is a test document." "hello.pdf"
        1000 200
      = Ok [mkDocument (strip "Hello world. This is a test document.")
              [("source", Dict.VStr "hello.pdf"); ("chunk_id", Dict.VInt 0);
               ("total_chunks", Dict.VInt 1)]]
      /\ exists processor,
           PDFProcessor.init 1000 200 = Ok processor
           /\ PDFProcessor.create_document_chunks processor
                "Hello world. This is a test document." None
              = Ok [mkDocument (strip "Hello world. This is a test document.")
                      (Dict.update []
                         [("chunk_id", Dict.VInt 0);
                          ("total_chunks", Dict.VInt 1);
                          ("chunk_size",
                           Dict.VInt
                             (len (strip "Hello world. This is a test document.")))])]).
Proof.
  assert (H1 : (0 <= 200 < 1000)%Z) by lia.
  assert (H2 : strip "Hello world. This is a test document." <> "")
    by (vm_compute; discriminate).
  assert (H3 : (len "Hello world. This is a test document." < 1000)%Z)
    by (vm_compute; reflexivity).
  split; [exact H1|]. split; [exact H2|]. split; [exact H3|].
  exact (chunker_short_text_single_segment _ "hello.pdf" 1000 200 None H1 H2 H3).
Defined.

(* ------------------------------------------------------------------ *)
(** ** The tags of a segment *)


(** [doc.metadata.get(key)] *)
Definition tag (key : string) (doc : Document) : option Dict.value :=
  Dict.get key (metadata doc).



Section Tags.
Variable meta : Z -> string -> Dict.t.
Variable source : Dict.value.
Variable chunks : list string.
Hypothesis meta_source :
  forall i c, Dict.get "source" (meta i c) = Some source.
Hypothesis meta_chunk_id :
  forall i c, Dict.get "chunk_id" (meta i c) = Some (Dict.VInt i).
Hypothesis meta_total_chunks :
  forall i c, Dict.get "total_chunks" (meta i c)
              = Some (Dict.VInt (Z.of_nat (length chunks))).



End Tags.





(* ------------------------------------------------------------------ *)
(** ** The application *)

(** The session after one more turn. *)
Definition with_turn (session : Session) (message response now : string)
  : Session :=
  mkSession (username session) (uploaded_files session)
    (Some (get_list (messages session)
           ++ [mkMessage "user" message now;
               mkMessage "assistant" response now])).

Section AppFacts.
Variable vec : Type.
Variable dim : vec -> Z.
Variable l2 : vec -> vec -> Q.
Variable encode : list string -> Exc (list vec).
Variable generate_content : string -> Exc string.
Variable secure_filename : string -> string.

Abbreviation World := (World vec).
Abbreviation search := (search_similar_documents vec dim l2 encode).
Abbreviation generate := (generate_response vec generate_content).
Abbreviation chat := (chat_message vec dim l2 encode generate_content).

(** A [try] whose handler returns cannot raise. *)
Lemma try_except_returns {A : Type} (body : App vec A)
  (handler : exn -> App vec A) (w : World) :
  (forall e w1, exists a w2, handler e w1 = (Ok a, w2)) ->
  exists a w', try_except vec body handler w = (Ok a, w').
Proof.
  intros H. unfold try_except. destruct (body w) as [[a | e] w1].
  - now exists a, w1.
  - apply H.
Qed.

Lemma search_returns (query : string) (k : Z) (w : World) :
  exists docs w', search query k w = (Ok docs, w').
Proof.
  unfold search_similar_documents, bind, self.
  destruct (embeddings_available vec (ai_manager vec w));
    [|now exists [], w].
  destruct (faiss_index vec (ai_manager vec w)); [|now exists [], w].
  apply try_except_returns. intros e w1. now exists [], w1.
Qed.

Lemma generate_returns (query : string) (docs : list Document) (w : World) :
  exists response w', generate query docs w = (Ok response, w').
Proof.
  unfold generate_response, bind, self.
  destruct (gemini_available vec (ai_manager vec w)); simpl.
  - apply try_except_returns. intros e w1. now exists (apology e), w1.
  - now exists unavailable_message, w.
Qed.

(** What [chat_message] does once the message is read and is not
    empty. *)
Lemma chat_message_turn (session : Session) (request_json : Exc JsonBody)
  (now user message : string) (w : World) :
  username session = Some user ->
  message_of request_json = Ok message ->
  message <> "" ->
  chat session request_json now w
  = match
      match get_list (uploaded_files session) with
      | [] => (Ok upload_first_message, w)
      | _ =>
          bind vec (search message 5) (fun docs => generate message docs) w
      end
    with
    | (Ok response, w') =>
        (Ok (ChatSuccess response now,
             with_turn session message response now), w')
    | (Raise e, w') => (Raise e, w')
    end.
Proof.
  intros Hu Hb Hm. unfold chat_message, with_turn. rewrite Hu, Hb.
  unfold bind at 1. unfold lift.
  apply truthy_true in Hm. rewrite Hm. simpl negb. cbv iota.
  unfold bind at 1. unfold ret.
  destruct (get_list (uploaded_files session)); reflexivity.
Qed.

(** An exception from reading the body leaves the route; the world is as
    it was. *)
Lemma chat_message_raises (session : Session) (request_json : Exc JsonBody)
  (now user : string) (e : exn) (w : World) :
  username session = Some user ->
  message_of request_json = Raise e ->
  chat session request_json now w = (Raise e, w).
Proof.
  intros Hu Hb. unfold chat_message. rewrite Hu, Hb. reflexivity.
Qed.

(** Once the body is read the chat route returns, whatever the encoder,
    the index and the generative model do. *)
Lemma chat_message_returns (session : Session) (request_json : Exc JsonBody)
  (now message : string) (w : World) :
  message_of request_json = Ok message ->
  exists reply session' w',
    chat session request_json now w = (Ok (reply, session'), w').
Proof.
  intros Hb.
  destruct (username session) as [user|] eqn:Hu.
  - destruct (String.eqb_spec message "") as [Hm | Hm].
    + unfold chat_message. rewrite Hu, Hb, Hm.
      unfold bind, lift, ret. simpl. eauto.
    + rewrite (chat_message_turn _ _ _ user message) by assumption.
      destruct (get_list (uploaded_files session)); [eauto|].
      unfold bind.
      destruct (search_returns message 5 w) as [docs [w1 E1]]. rewrite E1.
      destruct (generate_returns message docs w1) as [response [w2 E2]].
      rewrite E2. eauto.
  - unfold chat_message. rewrite Hu. unfold ret. eauto.
Qed.

(** Retrieval leaves the manager as it is: it only adds to the calls. *)
Lemma search_keeps_manager (query : string) (k : Z) (w : World) :
  ai_manager vec (snd (search query k w)) = ai_manager vec w.
Proof.
  unfold search_similar_documents, bind, self, try_except, log, lift, ret.
  destruct (embeddings_available vec (ai_manager vec w)); [|reflexivity].
  destruct (faiss_index vec (ai_manager vec w)) as [idx|]; [|reflexivity].
  simpl. destruct (encode [query]) as [rows | e]; [|reflexivity].
  simpl. destruct (Faiss.search vec dim l2 idx rows k) as [indices | e];
    [|reflexivity].
  simpl. destruct (py_index indices 0) as [row | e]; [|reflexivity].
  simpl. destruct (gather_chunks _ row); reflexivity.
Qed.

(** The documents the chat route retrieves for a message, and the prompt
    it then sends to the generative model. *)
Definition relevant_docs (message : string) (w : World) : list Document :=
  match fst (search message 5 w) with
  | Ok docs => docs
  | Raise _ => []
  end.

Definition prompt_sent (message : string) (w : World) : string :=
  prompt_template (context_of (relevant_docs message w)) message.



(** C3.  In a session without uploaded documents a question is answered
    with the fixed request to upload documents first, and the world is left
    as it was: no call of the encoder, the index or the generative model is
    made, and the manager is not touched. *)
Theorem chat_in_empty_state (session : Session)
  (request_json : Exc JsonBody) (now user message : string) (w : World) :
  username session = Some user ->
  message_of request_json = Ok message ->
  message <> "" ->
  get_list (uploaded_files session) = [] ->
  upload_first_message
  = "Please upload some PDF documents first before asking questions!"
  /\ chat session request_json now w
     = (Ok (ChatSuccess upload_first_message now,
            with_turn session message upload_first_message now),
        w).
Proof.
  intros Hu Hb Hm He. split; [reflexivity|].
  rewrite (chat_message_turn _ _ _ user message) by assumption.
  rewrite He. reflexivity.
Qed.


(** C10.  A successful call of the chat route appends two entries to the
    session's messages, the user's stripped message and then the
    assistant's response, both with the timestamp of the reply; the entries
    that were there stay in front, unchanged. *)
Theorem chat_appends_one_turn (session session' : Session)
  (request_json : Exc JsonBody) (now response stamp : string)
  (w w' : World) :
  chat session request_json now w
  = (Ok (ChatSuccess response stamp, session'), w') ->
  exists message,
    message_of request_json = Ok message
    /\ stamp = now
    /\ messages session'
       = Some (get_list (messages session)
               ++ [mkMessage "user" message stamp;
                   mkMessage "assistant" response stamp])
    /\ username session' = username session
    /\ uploaded_files session' = uploaded_files session.
Proof.
  intros H.
  destruct (username session) as [user|] eqn:Hu.
  - destruct (message_of request_json) as [message | e] eqn:Hb.
    + destruct (String.eqb_spec message "") as [Hm | Hm].
      * unfold chat_message in H. rewrite Hu, Hb, Hm in H.
        unfold bind, lift, ret in H. simpl in H. discriminate H.
      * rewrite (chat_message_turn _ _ _ user message) in H by assumption.
        destruct (match get_list (uploaded_files session) with
                  | [] => _
                  | _ => _
                  end) as [[r | e] w1]; [|discriminate H].
        injection H as <- <- <- <-. exists message. simpl. auto.
    + rewrite (chat_message_raises _ _ _ user e) in H by assumption.
      discriminate H.
  - unfold chat_message in H. rewrite Hu in H. discriminate H.
Qed.

(** C7.  Retrieval before any index was built returns the empty list and
    does not raise; it makes no call and leaves the world as it was.  The
    same holds for [EmbeddingManager.search] without a vector store. *)
Theorem retrieval_without_index (query : string) (k : Z) (w : World)
  (VectorStore : Type) (TOP_K : Z)
  (manager : EmbeddingManager.t VectorStore) (k' : option Z) :
  faiss_index vec (ai_manager vec w) = None ->
  EmbeddingManager.vectorstore VectorStore manager = None ->
  search query k w = (Ok [], w)
  /\ EmbeddingManager.search VectorStore TOP_K manager query k' = Ok [].
Proof.
  intros Hi Hv. split.
  - unfold search_similar_documents, bind, self. rewrite Hi.
    destruct (embeddings_available vec (ai_manager vec w)); reflexivity.
  - unfold EmbeddingManager.search. rewrite Hv. reflexivity.
Qed.

End AppFacts.

(* ------------------------------------------------------------------ *)
(** ** Facts on the flat index *)

Module FaissFacts.
Section Index.
Variable vec : Type.
Variable l2 : vec -> vec -> Q.

Abbreviation insert := (Faiss.insert_by_distance).
Abbreviation rank := (Faiss.rank vec l2).

(** Entries in non-decreasing distance. *)
Definition by_distance (a b : Q * Z) : Prop := (fst a <= fst b)%Q.

Lemma length_insert (e : Q * Z) (l : list (Q * Z)) :
  length (insert e l) = S (length l).
Proof.
  induction l as [|h t IH]; simpl; [reflexivity|].
  destruct (Qle_bool (fst h) (fst e)); simpl; [now rewrite IH | reflexivity].
Qed.

Lemma Forall_insert (P : Q * Z -> Prop) (e : Q * Z) (l : list (Q * Z)) :
  P e -> Forall P l -> Forall P (insert e l).
Proof.
  intros He Hl. induction Hl as [|h t Hh Ht IH]; simpl.
  - constructor; [assumption | constructor].
  - destruct (Qle_bool (fst h) (fst e)); constructor; auto.
Qed.

Lemma HdRel_insert (a e : Q * Z) (l : list (Q * Z)) :
  by_distance a e -> HdRel by_distance a l ->
  HdRel by_distance a (insert e l).
Proof.
  intros Hae Hal. destruct l as [|h t]; simpl.
  - constructor. exact Hae.
  - inversion Hal; subst.
    destruct (Qle_bool (fst h) (fst e)); constructor; assumption.
Qed.

Lemma Sorted_insert (e : Q * Z) (l : list (Q * Z)) :
  Sorted by_distance l -> Sorted by_distance (insert e l).
Proof.
  intros Hl. induction Hl as [|h t Ht IH Hh]; simpl.
  - constructor; constructor.
  - destruct (Qle_bool (fst h) (fst e)) eqn:E.
    + constructor; [exact IH|].
      apply HdRel_insert; [|exact Hh]. now apply Qle_bool_iff.
    + constructor; [now constructor|]. constructor.
      unfold by_distance.
      destruct (Qlt_le_dec (fst e) (fst h)) as [Hlt | Hle].
      * now apply Qlt_le_weak.
      * apply Qle_bool_iff in Hle. congruence.
Qed.

Section Folded.
Variable P : Q * Z -> Prop.

Lemma fold_insert_facts (l acc : list (Q * Z)) :
  let r := fold_left (fun acc e => insert e acc) l acc in
  length r = length l + length acc
  /\ (Sorted by_distance acc -> Sorted by_distance r)
  /\ (Forall P l -> Forall P acc -> Forall P r).
Proof.
  revert acc. induction l as [|e l IH]; intros acc; simpl.
  - auto.
  - destruct (IH (insert e acc)) as [H1 [H2 H3]].
    rewrite length_insert in H1. split; [lia|]. split.
    + intros Hs. apply H2, Sorted_insert, Hs.
    + intros Hl Ha. inversion Hl; subst.
      apply H3; [assumption|]. now apply Forall_insert.
Qed.

End Folded.

Lemma length_rank (q : vec) (stored : list vec) :
  length (rank q stored) = length stored.
Proof.
  unfold Faiss.rank.
  destruct (fold_insert_facts (fun _ => True)
              (map (fun iv => (l2 q (snd iv), fst iv)) (enumerate stored)) [])
    as [H _].
  rewrite H, length_map. unfold enumerate.
  rewrite length_enumerate_from. simpl. lia.
Qed.

(** The ranking is in non-decreasing distance. *)
Lemma rank_sorted (q : vec) (stored : list vec) :
  Sorted by_distance (rank q stored).
Proof.
  unfold Faiss.rank.
  apply (fold_insert_facts (fun _ => True)). constructor.
Qed.

(** A label of a stored vector. *)
Definition label_of (n : nat) (i : Z) : Prop := (0 <= i < Z.of_nat n)%Z.

Lemma rank_labels (q : vec) (stored : list vec) :
  Forall (fun e => label_of (length stored) (snd e)) (rank q stored).
Proof.
  unfold Faiss.rank.
  apply (fold_insert_facts (fun e => label_of (length stored) (snd e)));
    [|constructor].
  apply Forall_forall. intros e He. apply in_map_iff in He.
  destruct He as [[i v] [<- Hin]]. simpl.
  apply enumerate_from_In in Hin. destruct Hin as [H0 Hn].
  assert (Hlt : Z.to_nat (i - 0) < length stored)
    by (apply nth_error_Some; congruence).
  unfold label_of. lia.
Qed.

(** [search] answers [k] labels, whatever the index holds: what is missing
    is filled with [-1]. *)
Lemma length_search_labels (idx : Faiss.IndexFlatL2 vec) (q : vec) (k : nat) :
  length (Faiss.search_labels vec l2 idx q k) = k.
Proof.
  unfold Faiss.search_labels.
  rewrite length_app, length_map, repeat_length.
  pose proof (firstn_le_length k (rank q (Faiss.xb vec idx))). lia.
Qed.

Lemma search_labels_short (idx : Faiss.IndexFlatL2 vec) (q : vec) (k : nat) :
  Faiss.ntotal vec idx <= k ->
  Faiss.search_labels vec l2 idx q k
  = map snd (rank q (Faiss.xb vec idx))
    ++ repeat (-1)%Z (k - Faiss.ntotal vec idx).
Proof.
  intros Hk. unfold Faiss.search_labels, Faiss.ntotal in *.
  rewrite firstn_all2 by (rewrite length_rank; exact Hk).
  now rewrite length_rank.
Qed.

Lemma search_labels_range (idx : Faiss.IndexFlatL2 vec) (q : vec) (k : nat) :
  Forall (fun i => label_of (Faiss.ntotal vec idx) i \/ i = (-1)%Z)
    (Faiss.search_labels vec l2 idx q k).
Proof.
  unfold Faiss.search_labels. apply Forall_app. split.
  - apply Forall_forall. intros i Hi. left.
    apply in_map_iff in Hi. destruct Hi as [e [<- He]].
    pose proof (rank_labels q (Faiss.xb vec idx)) as H.
    rewrite Forall_forall in H. apply H.
    rewrite <- (firstn_skipn k). apply in_or_app. now left.
  - apply Forall_forall. intros i Hi. right. now apply repeat_spec in Hi.
Qed.

Lemma Permutation_insert (e : Q * Z) (l : list (Q * Z)) :
  Permutation (insert e l) (e :: l).
Proof.
  induction l as [|h t IH]; simpl; [reflexivity|].
  destruct (Qle_bool (fst h) (fst e)); [|reflexivity].
  rewrite IH. apply perm_swap.
Qed.

Lemma Permutation_fold_insert (l acc : list (Q * Z)) :
  Permutation (fold_left (fun acc e => insert e acc) l acc) (l ++ acc).
Proof.
  revert acc. induction l as [|e l IH]; intros acc; simpl; [reflexivity|].
  rewrite IH, Permutation_insert. symmetry. apply Permutation_middle.
Qed.

Lemma enumerate_labels_from (k : Z) (stored : list vec) (i : Z) :
  In i (map fst (enumerate_from k stored)) -> (k <= i)%Z.
Proof.
  intros H. apply in_map_iff in H. destruct H as [[j v] [<- H]].
  apply enumerate_from_In in H. apply H.
Qed.

Lemma NoDup_enumerate_labels (k : Z) (stored : list vec) :
  NoDup (map fst (enumerate_from k stored)).
Proof.
  revert k. induction stored as [|v l IH]; intros k; simpl; constructor.
  - intros H. apply enumerate_labels_from in H. lia.
  - apply IH.
Qed.

(** No stored vector is ranked twice. *)
Lemma rank_labels_distinct (q : vec) (stored : list vec) :
  NoDup (map snd (rank q stored)).
Proof.
  unfold Faiss.rank.
  eapply Permutation_NoDup.
  - symmetry. apply Permutation_map, Permutation_fold_insert.
  - rewrite app_nil_r, map_map. simpl. apply NoDup_enumerate_labels.
Qed.

Lemma Sorted_firstn (k : nat) (l : list (Q * Z)) :
  Sorted by_distance l -> Sorted by_distance (firstn k l).
Proof.
  intros H. revert k. induction H as [|h t Ht IH Hh]; intros [|k]; simpl;
    try constructor.
  - apply IH.
  - destruct Hh as [|b t' Hb]; destruct k; simpl; constructor. exact Hb.
Qed.

Lemma NoDup_firstn {A : Type} (k : nat) (l : list A) :
  NoDup l -> NoDup (firstn k l).
Proof.
  intros H. rewrite <- (firstn_skipn k l) in H.
  eapply NoDup_app_remove_r, H.
Qed.

(** With at least [k] stored vectors the labels are those of the [k]
    nearest, nearest first, each once. *)
Lemma search_labels_full (idx : Faiss.IndexFlatL2 vec) (q : vec) (k : nat) :
  k <= Faiss.ntotal vec idx ->
  let top := firstn k (rank q (Faiss.xb vec idx)) in
  Faiss.search_labels vec l2 idx q k = map snd top
  /\ length top = k
  /\ Sorted by_distance top
  /\ NoDup (map snd top).
Proof.
  intros Hk top. unfold Faiss.ntotal in Hk.
  assert (Hl : length top = k).
  { unfold top. rewrite length_firstn, length_rank. lia. }
  split; [|split; [exact Hl|split]].
  - unfold Faiss.search_labels. fold top. rewrite Hl, Nat.sub_diag.
    apply app_nil_r.
  - apply Sorted_firstn, rank_sorted.
  - unfold top. rewrite <- firstn_map.
    apply NoDup_firstn, rank_labels_distinct.
Qed.

(** The stored vector of a label. *)
Definition vector_of (stored : list vec) (i : Z) : option vec :=
  if (i <? 0)%Z then None else nth_error stored (Z.to_nat i).

(** The vector of [i] is at most as far from the query as that of [j]. *)
Definition no_farther (q : vec) (stored : list vec) (i j : Z) : Prop :=
  forall u v,
    vector_of stored i = Some u -> vector_of stored j = Some v ->
    (l2 q u <= l2 q v)%Q.

(** A ranked entry is the label of a stored vector, with the distance of
    that vector to the query. *)
Lemma rank_entries (q : vec) (stored : list vec) :
  Forall (fun e => exists v, vector_of stored (snd e) = Some v
                             /\ fst e = l2 q v)
    (rank q stored).
Proof.
  unfold Faiss.rank.
  apply (fold_insert_facts
           (fun e => exists v, vector_of stored (snd e) = Some v
                               /\ fst e = l2 q v));
    [|constructor].
  apply Forall_forall. intros e He. apply in_map_iff in He.
  destruct He as [[i v] [<- Hin]]. simpl.
  apply enumerate_from_In in Hin. destruct Hin as [H0 Hn].
  exists v. split; [|reflexivity]. unfold vector_of.
  destruct (i <? 0)%Z eqn:E; [apply Z.ltb_lt in E; lia|].
  now rewrite Z.sub_0_r in Hn.
Qed.

(** Every stored vector is ranked. *)
Lemma rank_complete (q : vec) (stored : list vec) (j : Z) (v : vec) :
  vector_of stored j = Some v -> In (l2 q v, j) (rank q stored).
Proof.
  unfold vector_of. destruct (j <? 0)%Z eqn:E; [discriminate|].
  apply Z.ltb_ge in E. intros H. unfold Faiss.rank.
  eapply Permutation_in; [symmetry; apply Permutation_fold_insert|].
  rewrite app_nil_r. apply in_map_iff. exists (j, v).
  split; [reflexivity|]. unfold enumerate.
  apply (nth_error_In _ (Z.to_nat j)).
  rewrite nth_error_enumerate_from, H. simpl. do 2 f_equal. lia.
Qed.

Lemma by_distance_no_farther (q : vec) (stored : list vec) (a b : Q * Z) :
  In a (rank q stored) -> In b (rank q stored) ->
  by_distance a b -> no_farther q stored (snd a) (snd b).
Proof.
  intros Ha Hb Hab u v Hu Hv.
  pose proof (rank_entries q stored) as H. rewrite Forall_forall in H.
  destruct (H a Ha) as [u' [Hu' Ea]]. destruct (H b Hb) as [v' [Hv' Eb]].
  assert (u' = u) by congruence. assert (v' = v) by congruence. subst.
  unfold by_distance in Hab. now rewrite Ea, Eb in Hab.
Qed.

Lemma StronglySorted_app_inv {A : Type} (R : A -> A -> Prop)
  (front back : list A) :
  StronglySorted R (front ++ back) ->
  forall a b, In a front -> In b back -> R a b.
Proof.
  induction front as [|x front IH]; simpl; intros S a b Ha Hb;
    [destruct Ha|].
  apply StronglySorted_inv in S as [S Hx].
  destruct Ha as [<- | Ha]; [|now apply IH].
  rewrite Forall_forall in Hx. apply Hx, in_or_app. now right.
Qed.

Lemma StronglySorted_app_l {A : Type} (R : A -> A -> Prop)
  (front back : list A) :
  StronglySorted R (front ++ back) -> StronglySorted R front.
Proof.
  induction front as [|x front IH]; simpl; intros S; [constructor|].
  apply StronglySorted_inv in S as [S Hx].
  constructor; [now apply IH|].
  apply Forall_app in Hx. apply Hx.
Qed.

Lemma StronglySorted_map_in {A B : Type} (R : A -> A -> Prop)
  (R' : B -> B -> Prop) (f : A -> B) (l : list A) :
  StronglySorted R l ->
  (forall a b, In a l -> In b l -> R a b -> R' (f a) (f b)) ->
  StronglySorted R' (map f l).
Proof.
  induction 1 as [|x l S IH Hx]; intros H; simpl; constructor.
  - apply IH. intros a b Ha Hb. apply H; now right.
  - apply Forall_forall. intros y Hy. apply in_map_iff in Hy.
    destruct Hy as [b [<- Hb]]. rewrite Forall_forall in Hx.
    apply H; [now left | now right | now apply Hx].
Qed.

Lemma rank_strongly_sorted (q : vec) (stored : list vec) :
  StronglySorted by_distance (rank q stored).
Proof.
  apply Sorted_StronglySorted; [|apply rank_sorted].
  intros a b c Hab Hbc. unfold by_distance in *.
  eapply Qle_trans; eassumption.
Qed.

(** With at least [k] stored vectors the labels of a search are [k]
    distinct labels of stored vectors, nearest first, and no vector that
    is left out is nearer to the query than one that is in. *)
Lemma search_labels_nearest (idx : Faiss.IndexFlatL2 vec) (q : vec)
  (k : nat) :
  k <= Faiss.ntotal vec idx ->
  let labels := Faiss.search_labels vec l2 idx q k in
  length labels = k
  /\ Forall (label_of (Faiss.ntotal vec idx)) labels
  /\ NoDup labels
  /\ StronglySorted (no_farther q (Faiss.xb vec idx)) labels
  /\ forall i j,
       In i labels -> label_of (Faiss.ntotal vec idx) j -> ~ In j labels ->
       no_farther q (Faiss.xb vec idx) i j.
Proof.
  intros Hk labels.
  destruct (search_labels_full idx q k Hk) as [E [Hl [_ Hd]]].
  set (top := firstn k (rank q (Faiss.xb vec idx))) in *.
  set (rest := skipn k (rank q (Faiss.xb vec idx))).
  assert (Hr : rank q (Faiss.xb vec idx) = top ++ rest)
    by (symmetry; apply firstn_skipn).
  assert (Htop : forall e, In e top -> In e (rank q (Faiss.xb vec idx)))
    by (intros e He; rewrite Hr; apply in_or_app; now left).
  pose proof (rank_strongly_sorted q (Faiss.xb vec idx)) as S.
  rewrite Hr in S.
  unfold labels. rewrite E.
  split; [now rewrite length_map|]. split; [|split; [exact Hd|split]].
  - apply Forall_forall. intros i Hi. apply in_map_iff in Hi.
    destruct Hi as [e [<- He]].
    pose proof (rank_labels q (Faiss.xb vec idx)) as H.
    rewrite Forall_forall in H. apply H, Htop, He.
  - apply (StronglySorted_map_in by_distance).
    + eapply StronglySorted_app_l, S.
    + intros a b Ha Hb. apply by_distance_no_farther; now apply Htop.
  - intros i j Hi Hj Hnot. apply in_map_iff in Hi.
    destruct Hi as [a [<- Ha]].
    destruct (nth_error (Faiss.xb vec idx) (Z.to_nat j)) as [v|] eqn:Hv.
    + assert (Hvj : vector_of (Faiss.xb vec idx) j = Some v).
      { unfold vector_of, label_of in *.
        destruct (j <? 0)%Z eqn:E0; [apply Z.ltb_lt in E0; lia | exact Hv]. }
      pose proof (rank_complete q _ j v Hvj) as Hin.
      assert (Hrest : In (l2 q v, j) rest).
      { rewrite Hr in Hin. apply in_app_or in Hin as [Hin | Hin];
          [|exact Hin].
        exfalso. apply Hnot. apply in_map_iff. now exists (l2 q v, j). }
      apply (by_distance_no_farther q _ a (l2 q v, j));
        [now apply Htop | rewrite Hr; apply in_or_app; now right |].
      eapply StronglySorted_app_inv; eassumption.
    + apply nth_error_None in Hv. unfold label_of, Faiss.ntotal in Hj. lia.
Qed.

End Index.
End FaissFacts.

(* ------------------------------------------------------------------ *)
(** ** Gathering the chunks of the labels *)

Lemma for_each_app {A S : Type} (body : S -> A -> Exc S) (l1 l2 : list A)
  (st : S) :
  for_each body (l1 ++ l2) st
  = exc_bind (for_each body l1 st) (for_each body l2).
Proof.
  revert st. induction l1 as [|x l1 IH]; intros st; simpl; [reflexivity|].
  destruct (body st x); simpl; [apply IH | reflexivity].
Qed.

(** The body of the loop of [gather_chunks]. *)
Definition gather_step (chunks relevant_chunks : list Document) (idx : Z)
  : Exc (list Document) :=
  if (idx <? Z.of_nat (length chunks))%Z then
    c <- py_index chunks idx ;; Ok (relevant_chunks ++ [c])
  else Ok relevant_chunks.

Lemma gather_chunks_unfold (chunks : list Document) (indices : list Z) :
  gather_chunks chunks indices = for_each (gather_step chunks) indices [].
Proof. reflexivity. Qed.

Lemma py_index_label (chunks : list Document) (i : Z) :
  FaissFacts.label_of (length chunks) i ->
  exists c, py_index chunks i = Ok c /\ In c chunks.
Proof.
  unfold FaissFacts.label_of, py_index. intros Hi.
  destruct (i <? 0)%Z eqn:E; [lia|]. rewrite E.
  destruct (nth_error chunks (Z.to_nat i)) as [c|] eqn:Hn.
  - exists c. split; [reflexivity|]. eapply nth_error_In, Hn.
  - apply nth_error_None in Hn. lia.
Qed.

(** [chunks[-1]] is the last chunk. *)
Lemma py_index_minus_one (init : list Document) (final : Document) :
  py_index (init ++ [final]) (-1) = Ok final.
Proof.
  unfold py_index. change (-1 <? 0)%Z with true. cbv beta zeta iota.
  rewrite length_app. change (length [final]) with 1.
  replace (-1 + Z.of_nat (length init + 1))%Z with (Z.of_nat (length init))
    by lia.
  destruct (Z.of_nat (length init) <? 0)%Z eqn:E;
    [apply Z.ltb_lt in E; lia|].
  rewrite Nat2Z.id, nth_error_app2 by lia.
  rewrite Nat.sub_diag. reflexivity.
Qed.

(** The document a label stands for. *)
Definition labelled (chunks : list Document) (i : Z) (doc : Document)
  : Prop :=
  nth_error chunks (Z.to_nat i) = Some doc.

Lemma gather_labelled (chunks : list Document) (indices : list Z)
  (acc : list Document) :
  Forall (FaissFacts.label_of (length chunks)) indices ->
  exists found,
    for_each (gather_step chunks) indices acc = Ok (acc ++ found)
    /\ Forall2 (labelled chunks) indices found.
Proof.
  intros H. revert acc. induction H as [|i l Hi Hl IH]; intros acc.
  - exists []. rewrite app_nil_r. split; [reflexivity | constructor].
  - simpl for_each. unfold gather_step at 1.
    unfold FaissFacts.label_of in Hi.
    destruct (i <? Z.of_nat (length chunks))%Z eqn:Eb; [|lia].
    destruct (nth_error chunks (Z.to_nat i)) as [c|] eqn:Hn;
      [|apply nth_error_None in Hn; lia].
    unfold py_index.
    destruct (i <? 0)%Z eqn:E0; [lia|]. rewrite E0, Hn.
    simpl exc_bind. destruct (IH (acc ++ [c])) as [found [E1 E2]].
    exists (c :: found). rewrite E1, <- app_assoc.
    split; [reflexivity|]. constructor; assumption.
Qed.

(** A label [-1] passes the test [idx < len(chunks)] and picks the last
    chunk. *)
Lemma gather_padding (init : list Document) (final : Document) (m : nat)
  (acc : list Document) :
  for_each (gather_step (init ++ [final])) (repeat (-1)%Z m) acc
  = Ok (acc ++ repeat final m).
Proof.
  revert acc. induction m as [|m IH]; intros acc.
  - simpl. now rewrite app_nil_r.
  - simpl for_each. unfold gather_step at 1.
    rewrite (py_index_minus_one init final).
    destruct (-1 <? Z.of_nat (length (init ++ [final])))%Z eqn:E;
      [|apply Z.ltb_ge in E; lia].
    simpl exc_bind. rewrite IH, <- app_assoc. reflexivity.
Qed.

Section SearchFacts.
Variable vec : Type.
Variable dim : vec -> Z.
Variable l2 : vec -> vec -> Q.
Variable encode : list string -> Exc (list vec).

Abbreviation World := (World vec).
Abbreviation search := (search_similar_documents vec dim l2 encode).

(** On an index of [n] chunks, [0 < n < k], the search returns [k]
    documents: one for each stored chunk and then the last chunk again,
    [k - n] times. *)
Lemma search_on_short_index (query : string) (k : Z) (w : World)
  (idx : Faiss.IndexFlatL2 vec) (init : list Document) (final : Document)
  (q : vec) :
  embeddings_available vec (ai_manager vec w) = true ->
  faiss_index vec (ai_manager vec w) = Some idx ->
  document_chunks vec (ai_manager vec w) = init ++ [final] ->
  Faiss.ntotal vec idx = length (init ++ [final]) ->
  encode [query] = Ok [q] ->
  dim q = Faiss.d vec idx ->
  (Z.of_nat (Faiss.ntotal vec idx) < k)%Z ->
  exists found w',
    search query k w
    = (Ok (found ++ repeat final (Z.to_nat k - Faiss.ntotal vec idx)), w')
    /\ length found = Faiss.ntotal vec idx.
Proof.
  intros Ha Hi Hc Hn He Hd Hk.
  unfold search_similar_documents, bind, self, try_except, log, lift.
  rewrite Ha, Hi. simpl. rewrite He. simpl.
  unfold Faiss.search, Faiss.row_length. simpl exc_bind.
  rewrite Hd, Z.eqb_refl. simpl negb. cbv iota.
  destruct (k <=? 0)%Z eqn:Ek; [apply Z.leb_le in Ek; lia|].
  simpl. rewrite Hc.
  rewrite FaissFacts.search_labels_short by lia.
  rewrite gather_chunks_unfold, for_each_app.
  destruct (gather_labelled (init ++ [final])
              (map snd (Faiss.rank vec l2 q (Faiss.xb vec idx))) [])
    as [found [E1 E2]].
  { rewrite <- Hn. apply Forall_forall. intros i Hin.
    apply in_map_iff in Hin. destruct Hin as [e [<- Hin]].
    pose proof (FaissFacts.rank_labels vec l2 q (Faiss.xb vec idx)) as H.
    rewrite Forall_forall in H. now apply H. }
  rewrite E1. simpl exc_bind.
  rewrite gather_padding. simpl app.
  exists found. eexists. split; [reflexivity|].
  apply Forall2_length in E2.
  rewrite <- E2, length_map. apply FaissFacts.length_rank.
Qed.

(** X7.  On an index that holds at least [k] chunks, a query whose
    embedding has the dimension of the index is answered with [k] chunks:
    those of [k] distinct stored vectors, nearest first by the distance
    the index computes, and no stored vector that is left out is nearer
    to the query than one whose chunk is returned. *)
Lemma search_on_full_index (query : string) (k : Z) (w : World)
  (idx : Faiss.IndexFlatL2 vec) (q : vec) :
  embeddings_available vec (ai_manager vec w) = true ->
  faiss_index vec (ai_manager vec w) = Some idx ->
  Faiss.ntotal vec idx = length (document_chunks vec (ai_manager vec w)) ->
  encode [query] = Ok [q] ->
  dim q = Faiss.d vec idx ->
  (0 < k <= Z.of_nat (Faiss.ntotal vec idx))%Z ->
  exists labels docs w',
    search query k w = (Ok docs, w')
    /\ Forall2 (labelled (document_chunks vec (ai_manager vec w))) labels docs
    /\ length labels = Z.to_nat k
    /\ Forall (FaissFacts.label_of (Faiss.ntotal vec idx)) labels
    /\ NoDup labels
    /\ StronglySorted
         (FaissFacts.no_farther vec l2 q (Faiss.xb vec idx)) labels
    /\ forall i j,
         In i labels ->
         FaissFacts.label_of (Faiss.ntotal vec idx) j ->
         ~ In j labels ->
         FaissFacts.no_farther vec l2 q (Faiss.xb vec idx) i j.
Proof.
  intros Ha Hi Hn He Hd Hk.
  destruct (FaissFacts.search_labels_nearest vec l2 idx q (Z.to_nat k))
    as [Hl [Hv [Hnd [Hs Hout]]]]; [lia|].
  set (labels := Faiss.search_labels vec l2 idx q (Z.to_nat k)) in *.
  unfold search_similar_documents, bind, self, try_except, log, lift.
  rewrite Ha, Hi. simpl. rewrite He. simpl.
  unfold Faiss.search, Faiss.row_length. simpl exc_bind.
  rewrite Hd, Z.eqb_refl. simpl negb. cbv iota.
  destruct (k <=? 0)%Z eqn:Ek; [apply Z.leb_le in Ek; lia|].
  simpl. fold labels. rewrite gather_chunks_unfold.
  destruct (gather_labelled (document_chunks vec (ai_manager vec w))
              labels []) as [found [E1 E2]].
  { now rewrite <- Hn. }
  rewrite E1. simpl. exists labels, found. eexists.
  split; [reflexivity|]. auto 10.
Qed.

End SearchFacts.

(* ------------------------------------------------------------------ *)
(** ** Uploads and the corpus *)

Section UploadFacts.
Variable vec : Type.
Variable dim : vec -> Z.
Variable encode : list string -> Exc (list vec).
Variable secure_filename : string -> string.

Abbreviation World := (World vec).
Abbreviation create := (create_embeddings vec dim encode).
Abbreviation up := (upload vec dim encode secure_filename).

(** The segments one upload request produces: those of all its files. *)
Definition batch_of (files : list UploadedFile) : list Document :=
  snd (fold_left (process_file secure_filename) files ([], [], [])).

Lemma process_unnamed (files : list UploadedFile)
  (st : list FileInfo * list string * list Document) :
  forallb (fun f => String.eqb (filename f) "") files = true ->
  fold_left (process_file secure_filename) files st = st.
Proof.
  revert st. induction files as [|f files IH]; intros st H; [reflexivity|].
  simpl in H. apply andb_true_iff in H. destruct H as [Hf Hfs].
  simpl. replace (process_file secure_filename st f) with st.
  - now apply IH.
  - unfold process_file. destruct st as [[p e] c]. now rewrite Hf.
Qed.

(** A successful [create_embeddings] puts its argument in the place of
    the corpus and builds the index from it alone. *)
Lemma create_embeddings_replaces (chunks : list Document) (rows : list vec)
  (w : World) :
  embeddings_available vec (ai_manager vec w) = true ->
  encode (map page_content chunks) = Ok rows ->
  rows <> [] ->
  exists w',
    create chunks w = (Ok true, w')
    /\ document_chunks vec (ai_manager vec w') = chunks
    /\ embeddings vec (ai_manager vec w') = Some rows
    /\ exists d, faiss_index vec (ai_manager vec w')
                 = Some (Faiss.mk vec d rows).
Proof.
  intros Ha He Hr.
  unfold create_embeddings, bind, self, try_except, log, lift.
  rewrite Ha. simpl. rewrite He. simpl.
  destruct rows as [|r rows]; [contradiction|]. simpl.
  eexists. split; [reflexivity|]. simpl.
  split; [reflexivity|]. split; [reflexivity|]. eexists. reflexivity.
Qed.

(** C1, as the code has it.  An upload that yields at least one segment
    and whose segments are embedded replaces the corpus: afterwards the
    chunks, the embeddings and the index are those of this request alone,
    whatever was uploaded before.  Only the session's list of uploaded
    files grows. *)
Theorem upload_replaces_corpus (session : Session)
  (files : list UploadedFile) (user : string) (rows : list vec)
  (w : World) :
  username session = Some user ->
  embeddings_available vec (ai_manager vec w) = true ->
  batch_of files <> [] ->
  encode (map page_content (batch_of files)) = Ok rows ->
  rows <> [] ->
  exists reply session' w',
    up session (Some files) w = (Ok (reply, session'), w')
    /\ document_chunks vec (ai_manager vec w') = batch_of files
    /\ embeddings vec (ai_manager vec w') = Some rows
    /\ (exists d, faiss_index vec (ai_manager vec w')
                  = Some (Faiss.mk vec d rows))
    /\ exists processed,
         get_list (uploaded_files session')
         = get_list (uploaded_files session) ++ processed.
Proof.
  intros Hu Ha Hb He Hr. unfold upload. rewrite Hu.
  destruct (forallb (fun f => String.eqb (filename f) "") files) eqn:Hf.
  { exfalso. apply Hb. unfold batch_of. now rewrite process_unnamed. }
  unfold batch_of in *.
  destruct (fold_left (process_file secure_filename) files ([], [], []))
    as [[processed errors] batch].
  simpl in Hb, He.
  destruct (create_embeddings_replaces batch rows w Ha He Hr)
    as [w1 [E1 [E2 [E3 E4]]]].
  destruct batch as [|c batch]; [contradiction|].
  unfold bind at 1. rewrite E1. unfold bind, self, ret.
  destruct processed as [|p processed].
  - exists (match errors with
            | [] => UploadFailure "No valid PDF files found"
            | _ :: _ =>
                UploadFailure
                  ("Failed to process files: " ++ join "; " (firstn 3 errors))
            end), session, w1.
    split; [destruct errors; reflexivity|].
    repeat (split; [assumption|]). exists []. now rewrite app_nil_r.
  - eexists. eexists. exists w1. split; [reflexivity|].
    repeat (split; [assumption|]). simpl. eauto.
Qed.

End UploadFacts.

(* ------------------------------------------------------------------ *)
(** ** The prompt *)

Lemma prefix_append_self (needle post : string) :
  String.prefix needle (needle ++ post) = true.
Proof.
  induction needle as [|c n IH]; simpl; [now destruct post|].
  destruct (ascii_dec c c); [exact IH | contradiction].
Qed.

Lemma contains_prefix (needle text : string) :
  String.prefix needle text = true -> contains needle text = true.
Proof. destruct text; simpl; intros ->; reflexivity. Qed.

Lemma contains_inside (pre needle post : string) :
  contains needle (pre ++ needle ++ post) = true.
Proof.
  induction pre as [|c pre IH].
  - change (contains needle (needle ++ post) = true).
    apply contains_prefix, prefix_append_self.
  - change (contains needle (String c (pre ++ needle ++ post)) = true).
    simpl contains. rewrite IH. apply orb_true_r.
Qed.


Section PromptFacts.
Variable vec : Type.
Variable generate_content : string -> Exc string.

Abbreviation World := (World vec).
Abbreviation generate := (generate_response vec generate_content).


End PromptFacts.

(* ------------------------------------------------------------------ *)
(** ** Runs of the application

    The application with vectors of rationals, the squared Euclidean
    distance, an encoder that measures its text, and a generative model
    that answers or fails. *)

Module Example.

(** Rows of small whole numbers, on which [float32] arithmetic is exact. *)
Definition vec : Type := list Q.

Definition dim (v : vec) : Z := Z.of_nat (length v).

Fixpoint l2 (a b : vec) : Q :=
  match a, b with
  | x :: a', y :: b' => (x - y) * (x - y) + l2 a' b'
  | _, _ => 0
  end.

Definition encode (texts : list string) : Exc (list vec) :=
  Ok (map (fun t => [inject_Z (len t); 1%Q]) texts).

Definition generate_content (prompt : string) : Exc string :=
  Ok "It is a test document.".

Definition quota_exceeded : exn :=
  Exception "ResourceExhausted" "429 quota exceeded".

Definition failing_generate_content (prompt : string) : Exc string :=
  Raise quota_exceeded.

Definition secure_filename (s : string) : string := s.

(** The state after start-up and a login. *)
Definition started : World vec :=
  mkWorld vec (mkAIManager vec true true [] None None) [].

Definition logged_in : Session :=
  mkSession (Some "demo") (Some []) (Some []).

(** The body [{"message": m}] of a chat request. *)
Definition asks (m : string) : Exc JsonBody :=
  Ok (JsonObject (Some (JsonString m))).

(** One upload request, then the session and the world it leaves. *)
Definition after_upload (files : list UploadedFile)
  (sw : Session * World vec) : Session * World vec :=
  match upload vec dim encode secure_filename (fst sw) (Some files) (snd sw) with
  | (Ok (_, session'), w') => (session', w')
  | (Raise _, w') => (fst sw, w')
  end.

Definition corpus (sw : Session * World vec) : list Document :=
  document_chunks vec (ai_manager vec (snd sw)).

Fixpoint repeat_string (n : nat) (s : string) : string :=
  match n with
  | O => ""
  | S n' => (s ++ repeat_string n' s)%string
  end.

(** Two texts of 1199 characters: two segments each at chunk size 1000. *)
Definition first_files : list UploadedFile :=
  [mkUploadedFile "first.pdf" 4096
     (Ok (strip (repeat_string 100 "lorem ipsum ")))].

Definition second_files : list UploadedFile :=
  [mkUploadedFile "second.pdf" 4096
     (Ok (strip (repeat_string 120 "dolor sit ")))].

Definition after_first : Session * World vec :=
  after_upload first_files (logged_in, started).

Definition after_second : Session * World vec :=
  after_upload second_files after_first.

(** C1, as it is worded, fails: two uploads in one session that produce
    two segments each leave a corpus of two segments, those of the second
    upload, and not the four of both. *)
Lemma two_uploads_leave_last_batch :
  length (batch_of secure_filename first_files) = 2
  /\ length (batch_of secure_filename second_files) = 2
  /\ length (corpus after_second) = 2
  /\ corpus after_second = batch_of secure_filename second_files
  /\ corpus after_second
     <> batch_of secure_filename first_files
        ++ batch_of secure_filename second_files.
Proof.
  assert (L1 : length (batch_of secure_filename first_files) = 2)
    by (vm_compute; reflexivity).
  assert (L2 : length (batch_of secure_filename second_files) = 2)
    by (vm_compute; reflexivity).
  assert (E : corpus after_second = batch_of secure_filename second_files)
    by (vm_compute; reflexivity).
  split; [exact L1|]. split; [exact L2|].
  split; [rewrite E; exact L2|]. split; [exact E|].
  intros H. apply (f_equal (@length Document)) in H.
  rewrite E, length_app, L1, L2 in H. discriminate H.
Qed.

(** The scenario of the specification: one short document. *)
Definition hello_files : list UploadedFile :=
  [mkUploadedFile "hello.pdf" 4096
     (Ok "Hello world. This is a test document.")].

Definition after_hello : Session * World vec :=
  after_upload hello_files (logged_in, started).

Lemma upload_replaces_corpus_witness :
  username (fst after_first) = Some "demo"
  /\ embeddings_available vec (ai_manager vec (snd after_first)) = true
  /\ batch_of secure_filename hello_files <> []
  /\ encode (map page_content (batch_of secure_filename hello_files))
     = Ok [[37%Q; 1%Q]]
  /\ [[37%Q; 1%Q]] <> ([] : list vec)
  /\ exists reply session' w',
       upload vec dim encode secure_filename (fst after_first)
         (Some hello_files) (snd after_first)
       = (Ok (reply, session'), w')
       /\ document_chunks vec (ai_manager vec w')
          = batch_of secure_filename hello_files
       /\ embeddings vec (ai_manager vec w') = Some [[37%Q; 1%Q]]
       /\ (exists d, faiss_index vec (ai_manager vec w')
                     = Some (Faiss.mk vec d [[37%Q; 1%Q]]))
       /\ exists processed,
            get_list (uploaded_files session')
            = get_list (uploaded_files (fst after_first)) ++ processed.
Proof.
  assert (H1 : username (fst after_first) = Some "demo")
    by (vm_compute; reflexivity).
  assert (H2 : embeddings_available vec (ai_manager vec (snd after_first))
               = true) by (vm_compute; reflexivity).
  assert (H3 : batch_of secure_filename hello_files <> [])
    by (vm_compute; discriminate).
  assert (H4 : encode (map page_content (batch_of secure_filename hello_files))
               = Ok [[37%Q; 1%Q]]) by (vm_compute; reflexivity).
  assert (H5 : [[37%Q; 1%Q]] <> ([] : list vec)) by discriminate.
  split; [exact H1|]. split; [exact H2|]. split; [exact H3|].
  split; [exact H4|]. split; [exact H5|].
  exact (upload_replaces_corpus vec dim encode secure_filename
           (fst after_first) hello_files "demo" [[37%Q; 1%Q]]
           (snd after_first) H1 H2 H3 H4 H5).
Defined.

(** C2 on the code: an index of one segment, asked for five neighbours.
    The index answers the label 0 and four times the label -1; the loop
    lets -1 pass its test [idx < len(chunks)] and reads [chunks[-1]], so
    the search returns five documents, the one segment five times, where
    the one stored segment is all there is to return. *)
Theorem search_repeats_last_chunk :
  exists chunk,
    corpus after_hello = [chunk]
    /\ Faiss.search vec dim l2 (Faiss.mk vec 2 [[37%Q; 1%Q]]) [[19%Q; 1%Q]] 5
       = Ok [[0; -1; -1; -1; -1]%Z]
    /\ fst (search_similar_documents vec dim l2 encode "what is this about?" 5
              (snd after_hello))
       = Ok [chunk; chunk; chunk; chunk; chunk].
Proof.
  eexists. split; [vm_compute; reflexivity|].
  split; vm_compute; reflexivity.
Qed.

Lemma chat_in_empty_state_witness :
  username logged_in = Some "demo"
  /\ message_of (asks "what is this about?") = Ok "what is this about?"
  /\ "what is this about?" <> ""
  /\ get_list (uploaded_files logged_in) = []
  /\ (upload_first_message
      = "Please upload some PDF documents first before asking questions!"
      /\ chat_message vec dim l2 encode generate_content logged_in
           (asks "what is this about?") "2025-01-01 12:00:00" started
         = (Ok (ChatSuccess upload_first_message "2025-01-01 12:00:00",
                with_turn logged_in "what is this about?"
                  upload_first_message "2025-01-01 12:00:00"),
            started)).
Proof.
  assert (H1 : username logged_in = Some "demo") by reflexivity.
  assert (H2 : message_of (asks "what is this about?")
               = Ok "what is this about?")
    by (vm_compute; reflexivity).
  assert (H3 : "what is this about?" <> "") by discriminate.
  assert (H4 : get_list (uploaded_files logged_in) = []) by reflexivity.
  split; [exact H1|]. split; [exact H2|]. split; [exact H3|].
  split; [exact H4|].
  exact (chat_in_empty_state vec dim l2 encode generate_content logged_in
           (asks "what is this about?") "2025-01-01 12:00:00" "demo"
           "what is this about?" started H1 H2 H3 H4).
Defined.

(** A generative model that fails on the prompt of one question only. *)
Definition failing_on (message : string) (w : World vec) (prompt : string)
  : Exc string :=
  if String.eqb prompt (prompt_sent vec dim l2 encode message w)
  then Raise quota_exceeded
  else generate_content prompt.



(** The model of that run answers every other prompt. *)
Example failing_on_other_prompts :
  failing_on "what is this about?" (snd after_hello)
    (prompt_template "" "what is this about?")
  = Ok "It is a test document.".
Proof. vm_compute. reflexivity. Qed.

(** The other ways to fail: a model that fails on every call, and a
    manager started without an API key. *)
Example chat_with_failing_model :
  fst (chat_message vec dim l2 encode failing_generate_content
         (fst after_hello) (asks "what is this about?")
         "2025-01-01 12:00:00" (snd after_hello))
  = Ok (ChatSuccess (apology quota_exceeded) "2025-01-01 12:00:00",
        with_turn (fst after_hello) "what is this about?"
          (apology quota_exceeded) "2025-01-01 12:00:00").
Proof. vm_compute. reflexivity. Qed.

Example chat_without_api_key :
  fst (chat_message vec dim l2 encode generate_content (fst after_hello)
         (asks "what is this about?") "2025-01-01 12:00:00"
         (mkWorld vec (mkAIManager vec false true (corpus after_hello) None None) []))
  = Ok (ChatSuccess unavailable_message "2025-01-01 12:00:00",
        with_turn (fst after_hello) "what is this about?"
          unavailable_message "2025-01-01 12:00:00").
Proof. vm_compute. reflexivity. Qed.

(** A body that cannot be read leaves the route as an exception: here the
    message is the JSON [null]. *)
Example chat_with_null_message :
  chat_message vec dim l2 encode generate_content logged_in
    (Ok (JsonObject (Some (JsonOther "NoneType")))) "2025-01-01 12:00:00"
    started
  = (Raise (Exception "AttributeError"
              "'NoneType' object has no attribute 'strip'"),
     started).
Proof. vm_compute. reflexivity. Qed.



Lemma retrieval_without_index_witness :
  faiss_index vec (ai_manager vec started) = None
  /\ EmbeddingManager.vectorstore unit (EmbeddingManager.mk unit None None)
     = None
  /\ (search_similar_documents vec dim l2 encode "what is this about?" 5 started
      = (Ok [], started)
      /\ EmbeddingManager.search unit 5 (EmbeddingManager.mk unit None None)
           "what is this about?" None
         = Ok []).
Proof.
  split; [reflexivity|]. split; [reflexivity|].
  exact (retrieval_without_index vec dim l2 encode "what is this about?" 5
           started unit 5 (EmbeddingManager.mk unit None None) None
           eq_refl eq_refl).
Defined.

(** A session that already holds one turn, and the same one turn later. *)
Definition earlier : Session :=
  mkSession (Some "demo") (Some [])
    (Some [mkMessage "user" "hi" "2025-01-01 11:59:00";
           mkMessage "assistant" upload_first_message "2025-01-01 11:59:00"]).

Definition later : Session :=
  mkSession (Some "demo") (Some [])
    (Some [mkMessage "user" "hi" "2025-01-01 11:59:00";
           mkMessage "assistant" upload_first_message "2025-01-01 11:59:00";
           mkMessage "user" "what is this about?" "2025-01-01 12:00:00";
           mkMessage "assistant" upload_first_message "2025-01-01 12:00:00"]).

Lemma chat_appends_one_turn_witness :
  chat_message vec dim l2 encode generate_content earlier
    (asks "  what is this about?  ") "2025-01-01 12:00:00" started
  = (Ok (ChatSuccess upload_first_message "2025-01-01 12:00:00", later),
     started)
  /\ exists message,
       message_of (asks "  what is this about?  ") = Ok message
       /\ "2025-01-01 12:00:00" = "2025-01-01 12:00:00"
       /\ messages later
          = Some (get_list (messages earlier)
                  ++ [mkMessage "user" message "2025-01-01 12:00:00";
                      mkMessage "assistant" upload_first_message
                        "2025-01-01 12:00:00"])
       /\ username later = username earlier
       /\ uploaded_files later = uploaded_files earlier.
Proof.
  assert (H : chat_message vec dim l2 encode generate_content earlier
                (asks "  what is this about?  ") "2025-01-01 12:00:00"
                started
              = (Ok (ChatSuccess upload_first_message "2025-01-01 12:00:00",
                     later),
                 started))
    by (vm_compute; reflexivity).
  split; [exact H|].
  exact (chat_appends_one_turn vec dim l2 encode generate_content
           earlier later (asks "  what is this about?  ")
           "2025-01-01 12:00:00" upload_first_message "2025-01-01 12:00:00"
           started started H).
Defined.

End Example.

(* ------------------------------------------------------------------ *)
(** * More of the application

    ** The files of one upload request *)

Section FilesFacts.
Variable secure_filename : string -> string.

(** The files loop of [upload], from the empty lists: the processed files,
    the errors and the segments of a request. *)
Definition process_files (files : list UploadedFile)
  : list FileInfo * list string * list Document :=
  fold_left (process_file secure_filename) files ([], [], []).

(** What the loop adds for one file does not depend on what it holds. *)
Lemma process_file_adds (processed : list FileInfo) (errors : list string)
  (chunks : list Document) (file : UploadedFile) :
  process_file secure_filename (processed, errors, chunks) file
  = let '(p, e, c) := process_file secure_filename ([], [], []) file in
    (processed ++ p, errors ++ e, chunks ++ c).
Proof.
  unfold process_file.
  destruct (String.eqb (filename file) ""); [now rewrite !app_nil_r|].
  destruct (negb (endswith ".pdf" (lower (filename file))));
    [now rewrite app_nil_r, app_nil_r|].
  destruct (file_size file =? 0)%Z; [now rewrite app_nil_r, app_nil_r|].
  destruct (extracted file) as [text | e]; simpl;
    [|now rewrite app_nil_r, app_nil_r].
  destruct (truthy text && (len (strip text) >? 0)%Z); simpl;
    [|now rewrite app_nil_r, app_nil_r].
  destruct (create_text_chunks_default text (secure_filename (filename file)));
    simpl; now rewrite ?app_nil_r.
Qed.

Lemma fold_process_file_adds (files : list UploadedFile)
  (processed : list FileInfo) (errors : list string)
  (chunks : list Document) :
  fold_left (process_file secure_filename) files (processed, errors, chunks)
  = let '(p, e, c) := process_files files in
    (processed ++ p, errors ++ e, chunks ++ c).
Proof.
  revert processed errors chunks.
  induction files as [|f files IH]; intros processed errors chunks.
  - simpl. now rewrite !app_nil_r.
  - unfold process_files. cbn [fold_left].
    rewrite (process_file_adds processed errors chunks).
    destruct (process_file secure_filename ([], [], []) f) as [[p1 e1] c1].
    rewrite (IH p1 e1 c1), (IH (processed ++ p1) (errors ++ e1) (chunks ++ c1)).
    destruct (process_files files) as [[p2 e2] c2].
    now rewrite !app_assoc.
Qed.

(** X1.  The files of one request are handled one after the other and
    independently: the processed files, the errors and the segments of a
    request are those of its first files followed by those of the rest. *)
Theorem process_files_app (files1 files2 : list UploadedFile) :
  process_files (files1 ++ files2)
  = let '(p1, e1, c1) := process_files files1 in
    let '(p2, e2, c2) := process_files files2 in
    (p1 ++ p2, e1 ++ e2, c1 ++ c2).
Proof.
  unfold process_files at 1. rewrite fold_left_app.
  fold (process_files files1).
  destruct (process_files files1) as [[p1 e1] c1].
  apply fold_process_file_adds.
Qed.

(** A file the loop turns down, with the error it records: not a PDF by
    its name, saved with size 0, not readable, or without text. *)
Inductive rejected (file : UploadedFile) : string -> Prop :=
| rejected_name :
    filename file <> "" ->
    endswith ".pdf" (lower (filename file)) = false ->
    rejected file (filename file ++ ": Only PDF files are allowed")
| rejected_empty :
    filename file <> "" ->
    endswith ".pdf" (lower (filename file)) = true ->
    file_size file = 0%Z ->
    rejected file (secure_filename (filename file) ++ ": File is empty")
| rejected_unreadable (e : exn) :
    filename file <> "" ->
    endswith ".pdf" (lower (filename file)) = true ->
    file_size file <> 0%Z ->
    extracted file = Raise e ->
    rejected file
      ("Error processing " ++ secure_filename (filename file) ++ ": "
       ++ str_exn e)
| rejected_blank (text : string) :
    filename file <> "" ->
    endswith ".pdf" (lower (filename file)) = true ->
    file_size file <> 0%Z ->
    extracted file = Ok text ->
    strip text = "" ->
    rejected file
      (secure_filename (filename file) ++ ": No text could be extracted").

Lemma process_rejected (file : UploadedFile) (message : string) :
  rejected file message ->
  process_file secure_filename ([], [], []) file = ([], [message], []).
Proof.
  intros H. unfold process_file.
  destruct H as [Hn Hp | Hn Hp Hs | e Hn Hp Hs He | text Hn Hp Hs He Ht];
    apply String.eqb_neq in Hn; rewrite Hn, Hp; simpl; try reflexivity.
  - rewrite Hs. reflexivity.
  - apply Z.eqb_neq in Hs. rewrite Hs, He. reflexivity.
  - apply Z.eqb_neq in Hs. rewrite Hs, He. simpl.
    rewrite Ht. simpl. rewrite andb_false_r. reflexivity.
Qed.

(** X2.  A file that is turned down does not stop the request: it leaves
    one error message, in its place among the errors, and the processed
    files and the segments are those of the files around it. *)
Theorem rejected_file_is_skipped (files1 files2 : list UploadedFile)
  (file : UploadedFile) (message : string) :
  rejected file message ->
  process_files (files1 ++ file :: files2)
  = let '(p1, e1, c1) := process_files files1 in
    let '(p2, e2, c2) := process_files files2 in
    (p1 ++ p2, e1 ++ message :: e2, c1 ++ c2).
Proof.
  intros H. unfold process_files at 1. rewrite fold_left_app.
  fold (process_files files1).
  destruct (process_files files1) as [[p1 e1] c1].
  cbn [fold_left]. rewrite process_file_adds, (process_rejected file message H).
  rewrite fold_process_file_adds.
  destruct (process_files files2) as [[p2 e2] c2].
  now rewrite !app_nil_r, <- !app_assoc.
Qed.

Lemma create_text_chunks_within (text filename : string) (size overlap : Z) :
  (0 <= overlap < size)%Z ->
  exists docs,
    create_text_chunks text filename size overlap = Ok docs
    /\ all_within size docs.
Proof.
  intros Hcfg.
  destruct (split_text_bounded (TextSplitter.mk size overlap separators) text)
    as [chunks [E Hb]]; [exact Hcfg | exact empty_separator_listed |].
  unfold create_text_chunks. rewrite splitter_valid by assumption.
  simpl exc_bind. rewrite E. simpl exc_bind.
  eexists. split; [reflexivity|]. apply len_page_content_bounded, Hb.
Qed.

(** X3.  A file that is accepted (a PDF by its name, not empty, with text
    that is not blank) adds one entry to the processed files, under its
    secured name, with its number of segments and the length of its text,
    and adds its segments, each at most 1000 characters long: the
    defaults of [create_text_chunks] never fail. *)
Theorem accepted_file_is_chunked (file : UploadedFile) (text : string) :
  filename file <> "" ->
  endswith ".pdf" (lower (filename file)) = true ->
  file_size file <> 0%Z ->
  extracted file = Ok text ->
  strip text <> "" ->
  exists chunks,
    create_text_chunks text (secure_filename (filename file)) 1000 200
    = Ok chunks
    /\ all_within 1000 chunks
    /\ process_files [file]
       = ([mkFileInfo (secure_filename (filename file))
             (str_Z (Z.of_nat (length chunks)) ++ " chunks") (len text)],
          [], chunks).
Proof.
  intros Hn Hp Hs He Ht.
  destruct (create_text_chunks_within text (secure_filename (filename file))
              1000 200) as [chunks [E Hb]]; [lia|].
  exists chunks. split; [exact E|]. split; [exact Hb|].
  unfold process_files. cbn [fold_left]. unfold process_file.
  apply String.eqb_neq in Hn. apply Z.eqb_neq in Hs.
  rewrite Hn, Hp, Hs, He. simpl.
  assert (Htruthy : truthy text = true).
  { apply truthy_true. intros ->. now apply Ht. }
  assert (Hlen : (len (strip text) >? 0)%Z = true).
  { destruct (strip text) eqn:Es; [contradiction|].
    apply Z.gtb_lt. unfold len. simpl String.length. lia. }
  rewrite Htruthy, Hlen. simpl.
  unfold create_text_chunks_default. rewrite E. reflexivity.
Qed.

(** No segment without a processed file. *)
Lemma process_files_none_processed (files : list UploadedFile) :
  fst (fst (process_files files)) = [] -> snd (process_files files) = [].
Proof.
  induction files as [|f files IH]; [reflexivity|].
  assert (Hone : fst (fst (process_file secure_filename ([], [], []) f)) = []
                 -> snd (process_file secure_filename ([], [], []) f) = []).
  { unfold process_file.
    destruct (String.eqb (filename f) ""); [reflexivity|].
    destruct (negb (endswith ".pdf" (lower (filename f)))); [reflexivity|].
    destruct (file_size f =? 0)%Z; [reflexivity|].
    destruct (extracted f) as [text | e]; simpl; [|reflexivity].
    destruct (truthy text && (len (strip text) >? 0)%Z); simpl; [|reflexivity].
    destruct (create_text_chunks_default text (secure_filename (filename f)));
      simpl; [discriminate | reflexivity]. }
  unfold process_files. cbn [fold_left].
  destruct (process_file secure_filename ([], [], []) f) as [[p1 e1] c1].
  rewrite fold_process_file_adds.
  destruct (process_files files) as [[p2 e2] c2].
  simpl in *. intros H. apply app_eq_nil in H. destruct H as [H1 H2].
  rewrite (Hone H1), (IH H2). reflexivity.
Qed.

End FilesFacts.

(* ------------------------------------------------------------------ *)
(** ** Embedding, retrieval, generation and the routes *)

Lemma py_index_In {A : Type} (l : list A) (i : Z) (x : A) :
  py_index l i = Ok x -> In x l.
Proof.
  unfold py_index.
  destruct ((if (i <? 0)%Z then (i + Z.of_nat (length l))%Z else i) <? 0)%Z;
    [discriminate|].
  destruct (nth_error l _) as [y|] eqn:E; [|discriminate].
  intros [= <-]. eapply nth_error_In, E.
Qed.

Lemma gather_step_In (chunks acc acc' : list Document) (indices : list Z) :
  for_each (gather_step chunks) indices acc = Ok acc' ->
  Forall (fun doc => In doc chunks) acc ->
  Forall (fun doc => In doc chunks) acc'.
Proof.
  revert acc. induction indices as [|i l IH]; intros acc H Hacc.
  - injection H as <-. exact Hacc.
  - simpl in H. unfold gather_step at 1 in H.
    destruct (i <? Z.of_nat (length chunks))%Z.
    + destruct (py_index chunks i) as [c|e] eqn:E; [|discriminate H].
      simpl in H. apply (IH _ H). apply Forall_app. split; [exact Hacc|].
      constructor; [|constructor]. eapply py_index_In, E.
    + simpl in H. apply (IH _ H Hacc).
Qed.

Lemma contains_app_r (needle pre text : string) :
  contains needle text = true -> contains needle (pre ++ text) = true.
Proof.
  intros H. induction pre as [|c pre IH]; [exact H|].
  change (contains needle (String c (pre ++ text)) = true).
  simpl contains. rewrite IH. apply orb_true_r.
Qed.

Lemma prefix_app_l (needle text post : string) :
  String.prefix needle text = true ->
  String.prefix needle (text ++ post) = true.
Proof.
  revert text. induction needle as [|c n IH]; intros text H.
  - now destruct (text ++ post)%string.
  - destruct text as [|c' t]; simpl in H; [discriminate|].
    simpl. destruct (ascii_dec c c'); [now apply IH | discriminate].
Qed.

Lemma contains_app_l (needle text post : string) :
  contains needle text = true -> contains needle (text ++ post) = true.
Proof.
  induction text as [|c t IH]; intros H.
  - simpl in H. rewrite orb_false_r in H.
    destruct needle; [|discriminate H].
    destruct post; reflexivity.
  - simpl in H. apply orb_true_iff in H.
    change (contains needle (String c (t ++ post)) = true).
    simpl contains. apply orb_true_iff. destruct H as [H | H].
    + left. now apply (prefix_app_l needle (String c t) post).
    + right. now apply IH.
Qed.

Lemma contains_refl (s : string) : contains s s = true.
Proof.
  apply contains_prefix. rewrite <- (append_empty_r s) at 2.
  apply prefix_append_self.
Qed.

(** A joined text contains every piece. *)
Lemma contains_join (sep : string) (l : list string) (x : string) :
  In x l -> contains x (join sep l) = true.
Proof.
  unfold join. induction l as [|y l IH]; [easy|].
  intros [-> | H].
  - destruct l; simpl; [apply contains_refl|].
    apply contains_app_l, contains_refl.
  - destruct l as [|z l]; [easy|].
    change (String.concat sep (y :: z :: l))
      with (y ++ sep ++ String.concat sep (z :: l))%string.
    apply contains_app_r, contains_app_r, IH, H.
Qed.

Section PipelineFacts.
Variable vec : Type.
Variable dim : vec -> Z.
Variable l2 : vec -> vec -> Q.
Variable encode : list string -> Exc (list vec).
Variable generate_content : string -> Exc string.
Variable secure_filename : string -> string.

Abbreviation World := (World vec).
Abbreviation create := (create_embeddings vec dim encode).
Abbreviation up := (upload vec dim encode secure_filename).
Abbreviation search := (search_similar_documents vec dim l2 encode).
Abbreviation generate := (generate_response vec generate_content).
Abbreviation chat := (chat_message vec dim l2 encode generate_content).
Abbreviation manager := (ai_manager vec).

(** The segments cannot be embedded: the encoder was not loaded, it
    raises, or it answers without a row. *)
Definition embedding_fails (chunks : list Document) (w : World) : Prop :=
  embeddings_available vec (manager w) = false
  \/ (exists e, encode (map page_content chunks) = Raise e)
  \/ encode (map page_content chunks) = Ok [].

Lemma create_embeddings_fails (chunks : list Document) (w : World) :
  embedding_fails chunks w ->
  fst (create chunks w) = Ok false
  /\ manager (snd (create chunks w)) = manager w.
Proof.
  unfold embedding_fails, create_embeddings, bind, self, try_except, log,
    lift.
  destruct (embeddings_available vec (manager w)) eqn:Ha; simpl.
  - intros [H | [[e H] | H]]; [discriminate H | |]; rewrite H; simpl; auto.
  - auto.
Qed.

(** X4.  When the segments cannot be embedded, [create_embeddings] answers
    [False] and does not raise; the manager keeps the chunks, the
    embeddings and the index it had, and the index is not called: at most
    the one call of the encoder is made. *)
Theorem create_embeddings_failure (chunks : list Document) (w : World) :
  embedding_fails chunks w ->
  create chunks w = (Ok false, w)
  \/ create chunks w
     = (Ok false,
        mkWorld vec (manager w)
          (calls vec w ++ [CallEncode (map page_content chunks)])).
Proof.
  unfold embedding_fails, create_embeddings, bind, self, try_except, log,
    lift.
  destruct (embeddings_available vec (manager w)) eqn:Ha; simpl.
  - intros [H | [[e H] | H]]; [discriminate H | |]; rewrite H; simpl; auto.
  - auto.
Qed.

Lemma create_embeddings_returns (chunks : list Document) (w : World) :
  exists b w', create chunks w = (Ok b, w').
Proof.
  unfold create_embeddings, bind, self.
  destruct (embeddings_available vec (manager w)); simpl.
  - apply try_except_returns. intros e w1. now exists false, w1.
  - now exists false, w.
Qed.

(** X5.  The upload route never raises, whatever the request and the
    encoder do.  When it reports a failure, nothing has changed: the
    session and the world are as before.  When it reports success, the
    counts it reports are those of the request's processed files and
    segments, the errors are those of the files turned down, and the
    session lists the processed files after the ones it had. *)
Theorem upload_outcome (session : Session)
  (request_files : option (list UploadedFile)) (w : World) :
  exists reply session' w',
    up session request_files w = (Ok (reply, session'), w')
    /\ match reply with
       | UploadFailure _ => session' = session /\ w' = w
       | UploadSuccess _ n total _ errors =>
           exists files,
             request_files = Some files
             /\ fst (fst (process_files secure_filename files)) <> []
             /\ n = Z.of_nat
                      (length (fst (fst (process_files secure_filename files))))
             /\ total = Z.of_nat
                          (length (snd (process_files secure_filename files)))
             /\ errors = snd (fst (process_files secure_filename files))
             /\ session'
                = mkSession (username session)
                    (Some (get_list (uploaded_files session)
                           ++ fst (fst (process_files secure_filename files))))
                    (messages session)
       end.
Proof.
  unfold upload.
  destruct (username session) as [user|]; [|exists (UploadFailure "Not authenticated"), session, w; auto].
  destruct request_files as [files|];
    [|exists (UploadFailure "No files provided"), session, w; auto].
  destruct (forallb (fun f => String.eqb (filename f) "") files);
    [exists (UploadFailure "No valid files selected"), session, w; auto|].
  pose proof (process_files_none_processed secure_filename files) as Hnone.
  unfold process_files in *.
  destruct (fold_left (process_file secure_filename) files ([], [], []))
    as [[processed errors] batch] eqn:Efold. simpl in Hnone.
  destruct processed as [|p processed].
  - rewrite (Hnone eq_refl). unfold bind, self, ret.
    destruct errors; eexists; exists session, w;
      (split; [reflexivity | simpl; auto]).
  - unfold bind at 1.
    assert (Hc : exists b w1,
               match batch with
               | [] => ret vec false
               | _ :: _ => create batch
               end w = (Ok b, w1)).
    { destruct batch; [now exists false, w|]. apply create_embeddings_returns. }
    destruct Hc as [b [w1 Hc]]. rewrite Hc. unfold bind, self, ret.
    eexists. eexists. exists w1. split; [reflexivity|].
    exists files. rewrite Efold. simpl.
    split; [reflexivity|]. split; [discriminate|].
    split; [reflexivity|]. split; [reflexivity|]. split; reflexivity.
Qed.

(** X6.  When the segments of a request cannot be embedded, the route
    still reports success and the session lists the files as uploaded,
    while the manager keeps the corpus and the index it had: later
    questions are answered from the earlier corpus. *)
Theorem upload_with_failed_embedding (session : Session)
  (files : list UploadedFile) (user : string) (w : World) :
  username session = Some user ->
  snd (process_files secure_filename files) <> [] ->
  embedding_fails (snd (process_files secure_filename files)) w ->
  exists message n total flag errors session' w',
    up session (Some files) w
    = (Ok (UploadSuccess message n total flag errors, session'), w')
    /\ manager w' = manager w
    /\ get_list (uploaded_files session')
       = get_list (uploaded_files session)
         ++ fst (fst (process_files secure_filename files))
    /\ fst (fst (process_files secure_filename files)) <> [].
Proof.
  intros Hu Hb Hf. unfold upload. rewrite Hu.
  destruct (forallb (fun f => String.eqb (filename f) "") files) eqn:Hall.
  { exfalso. apply Hb. unfold process_files.
    now rewrite (process_unnamed secure_filename). }
  pose proof (process_files_none_processed secure_filename files) as Hnone.
  unfold process_files in *.
  destruct (fold_left (process_file secure_filename) files ([], [], []))
    as [[processed errors] batch]. simpl in *.
  destruct batch as [|c batch]; [contradiction|].
  destruct processed as [|p processed]; [now specialize (Hnone eq_refl)|].
  destruct (create_embeddings_fails (c :: batch) w Hf) as [E1 E2].
  unfold bind at 1.
  destruct (create (c :: batch) w) as [[b | e] w1]; [|discriminate E1].
  simpl in E2. unfold bind, self, ret.
  do 6 eexists. exists w1. split; [reflexivity|]. simpl.
  split; [exact E2|]. split; [reflexivity | discriminate].
Qed.

(** X8.  When the encoder raises on the query, or [k] is not positive,
    the search answers the empty list and does not raise, and leaves the
    manager as it was. *)
Theorem search_failure_is_empty (query : string) (k : Z) (w : World) :
  (exists e, encode [query] = Raise e) \/ (k <= 0)%Z ->
  fst (search query k w) = Ok []
  /\ manager (snd (search query k w)) = manager w.
Proof.
  intros H. split; [|apply search_keeps_manager].
  unfold search_similar_documents, bind, self, try_except, log, lift, ret.
  destruct (embeddings_available vec (manager w)); [|reflexivity].
  destruct (faiss_index vec (manager w)) as [idx|]; [|reflexivity].
  simpl. destruct (encode [query]) as [rows | e] eqn:E; [|reflexivity].
  destruct H as [[e H] | H]; [discriminate H|].
  simpl. unfold Faiss.search.
  destruct (Faiss.row_length vec dim rows) as [d' | e']; [|reflexivity].
  simpl exc_bind.
  destruct (negb (d' =? Faiss.d vec idx)%Z); [reflexivity|].
  destruct (k <=? 0)%Z eqn:Ek; [reflexivity | apply Z.leb_gt in Ek; lia].
Qed.

(** X9.  The search never raises, and every document it returns is a
    chunk of the manager's corpus. *)
Theorem search_results_in_corpus (query : string) (k : Z) (w : World) :
  exists docs w',
    search query k w = (Ok docs, w')
    /\ Forall (fun doc => In doc (document_chunks vec (manager w))) docs.
Proof.
  unfold search_similar_documents, bind, self, try_except, log, lift, ret.
  destruct (embeddings_available vec (manager w));
    [|exists [], w; split; [reflexivity | constructor]].
  destruct (faiss_index vec (manager w)) as [idx|];
    [|exists [], w; split; [reflexivity | constructor]].
  simpl. destruct (encode [query]) as [rows | e];
    [|eexists; eexists; split; [reflexivity | constructor]].
  simpl. destruct (Faiss.search vec dim l2 idx rows k) as [indices | e];
    [|eexists; eexists; split; [reflexivity | constructor]].
  simpl. destruct (py_index indices 0) as [row | e];
    [|eexists; eexists; split; [reflexivity | constructor]].
  simpl. destruct (gather_chunks (document_chunks vec (manager w)) row)
    as [docs | e] eqn:E;
    [|eexists; eexists; split; [reflexivity | constructor]].
  exists docs. eexists. split; [reflexivity|].
  rewrite gather_chunks_unfold in E.
  apply (gather_step_In _ _ _ _ E). constructor.
Qed.

Lemma context_of_top_three (docs : list Document) :
  context_of (firstn 3 docs) = context_of docs.
Proof.
  destruct docs as [|d docs]; [reflexivity|].
  unfold context_of. rewrite firstn_firstn. reflexivity.
Qed.

(** X10.  Only the first three documents count: the generator gives the
    same response, and sends the same prompt, for a list of documents and
    for its first three. *)
Theorem generate_uses_top_three (query : string) (docs : list Document)
  (w : World) :
  generate query (firstn 3 docs) w = generate query docs w.
Proof.
  unfold generate_response. now rewrite context_of_top_three.
Qed.

(** X11.  When the model is available and answers, the response is the
    model's text; the model is called once, with a prompt that contains
    the question and the text of each of the first three documents. *)
Theorem generate_answers_from_context (query text : string)
  (docs : list Document) (w : World) :
  gemini_available vec (manager w) = true ->
  generate_content (prompt_template (context_of docs) query) = Ok text ->
  generate query docs w
  = (Ok text,
     mkWorld vec (manager w)
       (calls vec w ++ [CallGenerate (prompt_template (context_of docs) query)]))
  /\ contains query (prompt_template (context_of docs) query) = true
  /\ Forall (fun doc =>
               contains (page_content doc)
                 (prompt_template (context_of docs) query) = true)
       (firstn 3 docs).
Proof.
  intros Hg Ht. split; [|split].
  - unfold generate_response, bind, self, try_except, log, lift.
    rewrite Hg. simpl. rewrite Ht. reflexivity.
  - unfold prompt_template.
    do 9 apply contains_app_r. apply contains_app_l, contains_refl.
  - apply Forall_forall. intros doc Hdoc.
    unfold prompt_template.
    do 5 apply contains_app_r. apply contains_app_l.
    destruct docs as [|d docs]; [destruct Hdoc|].
    unfold context_of. apply contains_join, in_map, Hdoc.
Qed.

Lemma generate_keeps_manager (query : string) (docs : list Document)
  (w : World) :
  manager (snd (generate query docs w)) = manager w.
Proof.
  unfold generate_response, bind, self, try_except, log, lift, ret.
  destruct (gemini_available vec (manager w)); [|reflexivity].
  simpl. destruct (generate_content _); reflexivity.
Qed.

(** X12.  A request without a login, or one whose body is a JSON object
    with no [message] key or with a blank text under it, is turned down:
    the reply is a failure, no turn is recorded, and the world is left as
    it was. *)
Theorem chat_message_rejects (session : Session)
  (request_json : Exc JsonBody) (now : string) (w : World) :
  username session = None \/ message_of request_json = Ok "" ->
  exists message,
    chat session request_json now w
    = (Ok (ChatFailure message, session), w)
    /\ (message = "Not authenticated" \/ message = "Empty message").
Proof.
  intros H. unfold chat_message.
  destruct (username session) as [user|].
  - destruct H as [H | H]; [discriminate H|]. rewrite H.
    exists "Empty message". split; [reflexivity | now right].
  - exists "Not authenticated". split; [reflexivity | now left].
Qed.

(** X13.  Asking never changes the manager: whatever the session, the
    body of the request and the models do, the chunks, the embeddings and
    the index are the same after the chat route as before. *)
Theorem chat_keeps_manager (session : Session)
  (request_json : Exc JsonBody) (now : string) (w : World) :
  manager (snd (chat session request_json now w)) = manager w.
Proof.
  destruct (username session) as [user|] eqn:Hu.
  - destruct (message_of request_json) as [message | e] eqn:Hb.
    + destruct (String.eqb_spec message "") as [Hm | Hm].
      * unfold chat_message. rewrite Hu, Hb, Hm. reflexivity.
      * rewrite (chat_message_turn _ _ _ _ _ _ _ _ user message)
          by assumption.
        destruct (get_list (uploaded_files session)); [reflexivity|].
        unfold bind.
        pose proof (search_keeps_manager vec dim l2 encode message 5 w)
          as Hs.
        destruct (search message 5 w) as [[docs | e] w1];
          simpl in Hs; [|exact Hs].
        pose proof (generate_keeps_manager message docs w1) as Hg.
        destruct (generate message docs w1) as [[r | e] w2];
          simpl in Hg |- *; congruence.
    + unfold chat_message. rewrite Hu, Hb. reflexivity.
  - unfold chat_message. rewrite Hu. reflexivity.
Qed.

End PipelineFacts.

(* ------------------------------------------------------------------ *)
(** ** Facts on text extraction *)

(** The text of the pages that have one, a line end after each. *)
Definition page_lines (texts : list string) : string :=
  join "" (map (fun t => (t ++ nl)%string) (filter truthy texts)).

Lemma read_pages_from (texts : list string) (text : string) :
  for_each add_page (map Ok texts) text = Ok (text ++ page_lines texts)%string.
Proof.
  revert text. induction texts as [|t texts IH]; intros text.
  - simpl. now rewrite append_empty_r.
  - simpl for_each. unfold add_page at 1. simpl exc_bind. rewrite IH.
    unfold page_lines.
    simpl filter. destruct (truthy t); [|reflexivity].
    simpl map. rewrite join_empty_cons, !append_assoc. reflexivity.
Qed.

(** X14.  When every page can be read, the extracted text is the text of
    the pages that have one, each followed by a line end, in page order,
    with the white space at both ends removed; pages without text add
    nothing. *)
Theorem extract_text_joins_pages (texts : list string) :
  extract_text_from_pdf (Ok (map Ok texts)) = Ok (strip (page_lines texts))
  /\ page_lines (filter truthy texts) = page_lines texts.
Proof.
  split.
  - unfold extract_text_from_pdf, read_pages. simpl exc_bind.
    rewrite read_pages_from. reflexivity.
  - unfold page_lines. f_equal. f_equal.
    induction texts as [|t texts IH]; [reflexivity|].
    simpl. destruct (truthy t) eqn:E; simpl; rewrite ?E, IH; reflexivity.
Qed.

Lemma read_pages_raises (pages : list Page) (text : string) (e : exn) :
  for_each add_page pages text = Raise e
  <-> exists texts rest, pages = map Ok texts ++ Raise e :: rest.
Proof.
  revert text. induction pages as [|[t | e'] pages IH]; intros text.
  - simpl. split; [discriminate|].
    intros [texts [rest H]]. now destruct texts.
  - simpl for_each. unfold add_page at 1. simpl exc_bind. rewrite IH. split.
    + intros [texts [rest ->]]. now exists (t :: texts), rest.
    + intros [[|t' texts] [rest H]]; [discriminate H|].
      injection H as _ ->. now exists texts, rest.
  - simpl. split.
    + intros [= ->]. now exists [], pages.
    + intros [[|t' texts] [rest H]]; [now injection H as -> | discriminate H].
Qed.

(** X15.  Extraction raises exactly when the file cannot be opened or
    parsed, or a page cannot be read; the exception is that of the reader
    or of the first page that fails, passed on unchanged. *)
Theorem extract_text_raises (reader : PdfReader) (e : exn) :
  extract_text_from_pdf reader = Raise e
  <-> reader = Raise e
      \/ exists texts rest, reader = Ok (map Ok texts ++ Raise e :: rest).
Proof.
  unfold extract_text_from_pdf, read_pages.
  destruct reader as [pages | e']; simpl exc_bind.
  - split.
    + intros H. right.
      destruct (for_each add_page pages "") as [text | e''] eqn:E;
        [discriminate H|].
      injection H as ->. apply read_pages_raises in E.
      destruct E as [texts [rest ->]]. now exists texts, rest.
    + intros [H | [texts [rest H]]]; [discriminate H|].
      injection H as ->.
      assert (E : for_each add_page (map Ok texts ++ Raise e :: rest) ""
                  = Raise e)
        by (apply read_pages_raises; now exists texts, rest).
      rewrite E. reflexivity.
  - split.
    + intros [= ->]. now left.
    + intros [[= ->] | [texts [rest H]]]; [reflexivity | discriminate H].
Qed.

(** *** Texts that are nothing but white space *)

Lemma lstrip_append_blank (a b : string) :
  lstrip a = "" -> lstrip (a ++ b) = lstrip b.
Proof.
  induction a as [|c a IH]; [reflexivity|]. simpl.
  destruct (isspace c); [exact IH | discriminate].
Qed.

Lemma rstrip_left_clean_empty (s : string) :
  left_clean s -> rstrip s = "" -> s = "".
Proof.
  destruct s as [|c s]; [reflexivity|]. simpl. intros Hc.
  destruct (rstrip s); [rewrite Hc|]; discriminate.
Qed.

Lemma strip_blank (s : string) : strip s = "" <-> lstrip s = "".
Proof.
  unfold strip. split.
  - apply rstrip_left_clean_empty, lstrip_left_clean.
  - now intros ->.
Qed.

Lemma page_lines_blank (texts : list string) :
  Forall (fun t => strip t = "") texts -> strip (page_lines texts) = "".
Proof.
  intros H. apply strip_blank. unfold page_lines.
  induction H as [|t texts Ht Hts IH]; [reflexivity|].
  simpl filter. destruct (truthy t); [|exact IH].
  simpl map. rewrite join_empty_cons, append_assoc.
  apply strip_blank in Ht. rewrite (lstrip_append_blank _ _ Ht). exact IH.
Qed.

(** X16.  A PDF whose pages carry no text but white space (a scan) is
    read without an error and is turned down by the upload, with the
    message that no text could be extracted. *)
Theorem scanned_pdf_is_rejected (secure_filename : string -> string)
  (name : string) (size : Z) (texts : list string) :
  name <> "" ->
  endswith ".pdf" (lower name) = true ->
  size <> 0%Z ->
  Forall (fun t => strip t = "") texts ->
  extract_text_from_pdf (Ok (map Ok texts)) = Ok ""
  /\ rejected secure_filename
       (mkUploadedFile name size (extract_text_from_pdf (Ok (map Ok texts))))
       (secure_filename name ++ ": No text could be extracted").
Proof.
  intros Hn Hp Hs Ht.
  assert (E : extract_text_from_pdf (Ok (map Ok texts)) = Ok "").
  { unfold extract_text_from_pdf, read_pages. simpl exc_bind.
    rewrite read_pages_from. simpl exc_bind.
    change ("" ++ page_lines texts)%string with (page_lines texts).
    now rewrite page_lines_blank. }
  split; [exact E|]. rewrite E.
  apply (rejected_blank secure_filename
           (mkUploadedFile name size (Ok "")) ""); auto.
Qed.

(** *** [process_pdf] *)

Lemma processor_file_tags (filename now : string) (total_characters total : Z)
  (i : Z) (chunk : string) :
  let meta :=
    Dict.update
      [("source", Dict.VStr filename); ("file_type", Dict.VStr "pdf");
       ("total_characters", Dict.VInt total_characters);
       ("processed_at", Dict.VStr now)]
      [("chunk_id", Dict.VInt i); ("total_chunks", Dict.VInt total);
       ("chunk_size", Dict.VInt (len chunk))] in
  Dict.get "source" meta = Some (Dict.VStr filename)
  /\ Dict.get "file_type" meta = Some (Dict.VStr "pdf")
  /\ Dict.get "total_characters" meta = Some (Dict.VInt total_characters)
  /\ Dict.get "chunk_size" meta = Some (Dict.VInt (len chunk)).
Proof. repeat split. Qed.

(** The tags [process_pdf] answers for. *)
Definition filed_under (filename : string) (total_characters : Z)
  (doc : Document) : Prop :=
  tag "source" doc = Some (Dict.VStr filename)
  /\ tag "file_type" doc = Some (Dict.VStr "pdf")
  /\ tag "total_characters" doc = Some (Dict.VInt total_characters).

(** X17.  With a valid configuration, [process_pdf] returns only when the
    file has text: the list it returns is not empty, its segments are at
    most [size] characters long, and each is filed under the name of the
    file, as a PDF, with the length of the whole text.  A file without
    text, and an object that is neither a path nor readable, raise the
    "no text" exception. *)
Theorem process_pdf_outcome (basename : string -> string) (now : string)
  (size overlap : Z) (processor : PDFProcessor.t) (pdf_file : PdfFile) :
  (0 <= overlap < size)%Z ->
  PDFProcessor.init size overlap = Ok processor ->
  match PDFProcessorMore.process_pdf basename now processor pdf_file with
  | Ok docs =>
      docs <> []
      /\ all_within size docs
      /\ exists text,
           PDFProcessorMore.extract_text_from_pdf pdf_file = Ok text
           /\ strip text <> ""
           /\ Forall
                (filed_under (PDFProcessorMore.filename_of basename pdf_file)
                   (len text))
                docs
  | Raise e =>
      PDFProcessorMore.extract_text_from_pdf pdf_file = Raise e
      \/ (exists text,
            PDFProcessorMore.extract_text_from_pdf pdf_file = Ok text
            /\ strip text = "" /\ e = PDFProcessorMore.no_text_error)
      \/ e = PDFProcessorMore.no_chunks_error
  end.
Proof.
  intros Hcfg Hinit.
  unfold PDFProcessor.init in Hinit.
  rewrite splitter_valid in Hinit by assumption. injection Hinit as <-.
  unfold PDFProcessorMore.process_pdf.
  destruct (PDFProcessorMore.extract_text_from_pdf pdf_file) as [text | e];
    simpl exc_bind; [|now left].
  destruct (truthy (strip text)) eqn:Et; simpl negb; cbv iota.
  - apply truthy_true in Et.
    unfold PDFProcessor.create_document_chunks.
    simpl PDFProcessor.text_splitter.
    assert (Htext : truthy text = true).
    { apply truthy_true. intros ->. now apply Et. }
    apply truthy_true in Et. rewrite Htext, Et. simpl negb. simpl orb.
    cbv iota.
    destruct (split_text_bounded (TextSplitter.mk size overlap separators)
                text) as [chunks [E Hb]];
      [exact Hcfg | exact empty_separator_listed |].
    rewrite E. simpl exc_bind.
    set (docs := collect_documents _ (enumerate chunks)).
    assert (Hw : all_within size docs)
      by (apply len_page_content_bounded, Hb).
    assert (Hf : Forall
                   (filed_under
                      (PDFProcessorMore.filename_of basename pdf_file)
                      (len text)) docs).
    { apply Forall_forall. intros doc Hdoc.
      apply collect_documents_In in Hdoc.
      destruct Hdoc as [i [chunk [_ [_ ->]]]].
      unfold filed_under, tag. simpl metadata.
      repeat split. }
    destruct docs as [|d docs'] eqn:Ed; [now right; right|].
    split; [discriminate|]. split; [exact Hw|].
    exists text. apply truthy_true in Et. auto.
  - apply truthy_false in Et. right. left. exists text. auto.
Qed.

(* ------------------------------------------------------------------ *)
(** ** Facts on [Config.validate_file] *)

Lemma contains_dot_cons (a : ascii) (s : string) :
  contains "." (String a s) = Ascii.eqb a "."%char || contains "." s.
Proof.
  change (contains "." (String a s))
    with (String.prefix "." (String a s) || contains "." s).
  change (String.prefix "." (String a s))
    with (if ascii_dec "."%char a then String.prefix "" s else false).
  destruct (ascii_dec "."%char a) as [<- | Hne].
  - now destruct s.
  - destruct (Ascii.eqb_spec a "."%char); [congruence | reflexivity].
Qed.

(** The two results of [rsplit]. *)
Lemma rsplit_dot_spec (s : string) :
  (contains "." s = false /\ Config.rsplit_dot s = [s])
  \/ (exists h t,
        contains "." s = true /\ Config.rsplit_dot s = [h; t]
        /\ s = (h ++ "." ++ t)%string /\ contains "." t = false).
Proof.
  induction s as [|a s IH]; [now left|].
  rewrite contains_dot_cons. simpl Config.rsplit_dot.
  destruct IH as [[Hc E] | [h [t [Hc [E [Hs Ht]]]]]]; rewrite E, Hc.
  - destruct (Ascii.eqb_spec a "."%char) as [-> | Hne].
    + right. exists "", s. auto.
    + left. auto.
  - right. exists (String a h), t. rewrite orb_true_r. subst s. auto.
Qed.

Lemma endswith_suffix (p s : string) :
  endswith p s = true <-> exists pre, s = (pre ++ p)%string.
Proof.
  induction s as [|c s IH].
  - simpl. rewrite orb_false_r. split.
    + intros H. apply String.eqb_eq in H. subst p. now exists "".
    + intros [pre H]. destruct pre; [|discriminate H]. simpl in H. subst p.
      reflexivity.
  - simpl. split.
    + intros H. apply orb_true_iff in H. destruct H as [H | H].
      * apply String.eqb_eq in H. subst p. now exists "".
      * apply IH in H. destruct H as [pre ->]. now exists (String c pre).
    + intros [pre H]. apply orb_true_iff. destruct pre as [|c' pre].
      * left. simpl in H. subst p. apply String.eqb_refl.
      * right. injection H as _ ->. apply IH. now exists pre.
Qed.

Lemma lower_append (a b : string) :
  lower (a ++ b) = (lower a ++ lower b)%string.
Proof. induction a as [|c a IH]; simpl; [reflexivity | now rewrite IH]. Qed.

Lemma lower_char_dot (c : ascii) :
  Ascii.eqb (lower_char c) "."%char = Ascii.eqb c "."%char.
Proof.
  destruct c as [[|] [|] [|] [|] [|] [|] [|] [|]]; vm_compute; reflexivity.
Qed.

Lemma contains_dot_lower (s : string) :
  contains "." (lower s) = contains "." s.
Proof.
  induction s as [|c s IH]; [reflexivity|].
  simpl lower. rewrite !contains_dot_cons, lower_char_dot, IH. reflexivity.
Qed.

(** A text is cut at its last dot in one way only. *)
Lemma last_dot_unique (a a' b b' : string) :
  (a ++ "." ++ b)%string = (a' ++ "." ++ b')%string ->
  contains "." b = false -> contains "." b' = false -> b = b'.
Proof.
  revert a'. induction a as [|c a IH]; intros [|c' a'] H Hb Hb'.
  - now injection H.
  - injection H as _ H.
    assert (C : contains "." b = true)
      by (rewrite H; apply (contains_inside a' "." b')).
    congruence.
  - injection H as _ H.
    assert (C : contains "." b' = true)
      by (rewrite <- H; apply (contains_inside a "." b)).
    congruence.
  - injection H as _ H. now apply (IH a').
Qed.

(** X18.  [Config.validate_file] does not raise, and accepts exactly the
    names the upload route accepts: those that end, in lower case, with
    [.pdf]. *)
Theorem validate_file_is_upload_check (filename : string) :
  Config.validate_file filename = Ok (endswith ".pdf" (lower filename)).
Proof.
  unfold Config.validate_file.
  destruct (rsplit_dot_spec filename)
    as [[Hc E] | [h [t [Hc [E [Hs Ht]]]]]]; rewrite Hc.
  - f_equal. symmetry. apply not_true_is_false. intros H.
    apply endswith_suffix in H. destruct H as [pre H].
    rewrite <- contains_dot_lower, H in Hc.
    change ".pdf" with ("." ++ "pdf")%string in Hc.
    now rewrite contains_inside in Hc.
  - rewrite E. simpl. rewrite orb_false_r. f_equal.
    rewrite Hs, lower_append. change (lower ("." ++ t)) with ("." ++ lower t)%string.
    destruct (String.eqb_spec (lower t) "pdf") as [Ep | Ep].
    + symmetry. apply endswith_suffix. exists (lower h). now rewrite Ep.
    + symmetry. apply not_true_is_false. intros H.
      apply endswith_suffix in H. destruct H as [pre H].
      apply Ep.
      apply (last_dot_unique (lower h) pre (lower t) "pdf" H);
        [now rewrite contains_dot_lower | reflexivity].
Qed.

(* ------------------------------------------------------------------ *)
(** ** Facts on [SimpleDatabaseManager] *)

Lemma strdict_get_set {V : Type} (k k' : string) (v : V)
  (d : StrDict.t V) :
  StrDict.get V k (StrDict.set V k' v d)
  = if String.eqb k k' then Some v else StrDict.get V k d.
Proof.
  induction d as [|[k0 v0] d IH]; simpl.
  - destruct (String.eqb k k'); reflexivity.
  - destruct (String.eqb_spec k' k0) as [-> | Hne]; simpl.
    + destruct (String.eqb k k0); reflexivity.
    + destruct (String.eqb_spec k k0) as [-> | Hne'].
      * destruct (String.eqb_spec k0 k'); [congruence | reflexivity].
      * exact IH.
Qed.

(** X19.  Registering a user name that is not taken succeeds, and the
    account works at once: the same name and password authenticate, with
    the display name (the user name when none is given); any other
    password is refused; and the other accounts are as before. *)
Theorem register_then_authenticate (self : SimpleDatabaseManager.t)
  (username password display_name : string) :
  SimpleDatabaseManager.user_exists self username = false ->
  exists self',
    SimpleDatabaseManager.register_user self username password display_name
    = (true, self')
    /\ SimpleDatabaseManager.user_exists self' username = true
    /\ SimpleDatabaseManager.authenticate_user self' username password
       = Some (SimpleDatabaseManager.mkUserInfo
                 (if truthy display_name then display_name else username)
                 username)
    /\ (forall other,
          other <> password ->
          SimpleDatabaseManager.authenticate_user self' username other = None)
    /\ (forall name other,
          name <> username ->
          SimpleDatabaseManager.authenticate_user self' name other
          = SimpleDatabaseManager.authenticate_user self name other).
Proof.
  unfold SimpleDatabaseManager.user_exists,
    SimpleDatabaseManager.register_user. intros H. rewrite H.
  eexists. split; [reflexivity|].
  unfold SimpleDatabaseManager.authenticate_user, StrDict.mem. simpl.
  rewrite !strdict_get_set, !String.eqb_refl. simpl.
  split; [reflexivity|]. split; [reflexivity|]. split.
  - intros other Ho. apply String.eqb_neq in Ho. now rewrite Ho.
  - intros name other Hn. rewrite strdict_get_set.
    apply String.eqb_neq in Hn. now rewrite Hn.
Qed.

(** X20.  Registration never touches an account that exists: whether the
    requested name is free or taken, every existing account authenticates
    after the call exactly as before, and a taken name is refused. *)
Theorem register_keeps_existing_accounts (self : SimpleDatabaseManager.t)
  (username password display_name name : string) :
  SimpleDatabaseManager.user_exists self name = true ->
  (forall pw,
     SimpleDatabaseManager.authenticate_user
       (snd (SimpleDatabaseManager.register_user self username password
               display_name)) name pw
     = SimpleDatabaseManager.authenticate_user self name pw)
  /\ (username = name ->
      SimpleDatabaseManager.register_user self username password display_name
      = (false, self)).
Proof.
  unfold SimpleDatabaseManager.user_exists,
    SimpleDatabaseManager.register_user. intros H. split.
  - intros pw.
    destruct (StrDict.mem SimpleDatabaseManager.User username
                (SimpleDatabaseManager.users self)) eqn:E; [reflexivity|].
    unfold SimpleDatabaseManager.authenticate_user. simpl.
    rewrite strdict_get_set.
    destruct (String.eqb_spec name username) as [-> | Hne];
      [congruence | reflexivity].
  - intros ->. now rewrite H.
Qed.

(* ------------------------------------------------------------------ *)
(** ** Facts on the in-memory store of [DatabaseManager] *)

Section SortedFacts.
Context {A : Type}.
Variable key : A -> Z.

Definition by_key (a b : A) : Prop := (key a <= key b)%Z.

Lemma insert_by_key_perm (e : A) (l : list A) :
  Permutation (e :: l) (insert_by_key key e l).
Proof.
  induction l as [|h t IH]; simpl; [reflexivity|].
  destruct (key h <=? key e)%Z; [|reflexivity].
  rewrite perm_swap. now constructor.
Qed.

Lemma sorted_perm (l : list A) : Permutation l (sorted key l).
Proof.
  unfold sorted.
  enough (G : forall acc,
             Permutation (acc ++ l)
               (fold_left (fun acc e => insert_by_key key e acc) l acc))
    by exact (G []).
  induction l as [|e l IH]; intros acc; simpl.
  - now rewrite app_nil_r.
  - rewrite <- IH. rewrite <- insert_by_key_perm. simpl.
    symmetry. apply Permutation_middle.
Qed.

Lemma insert_by_key_sorted (e : A) (l : list A) :
  Sorted by_key l -> Sorted by_key (insert_by_key key e l).
Proof.
  induction l as [|h t IH]; simpl; intros S.
  - repeat constructor.
  - destruct (key h <=? key e)%Z eqn:E.
    + apply Sorted_inv in S as [S Hh]. constructor; [now apply IH|].
      destruct t as [|h' t']; simpl.
      * constructor. now apply Z.leb_le.
      * destruct (key h' <=? key e)%Z.
        -- constructor. now inversion Hh.
        -- constructor. now apply Z.leb_le.
    + constructor; [exact S|]. constructor.
      apply Z.leb_gt in E. unfold by_key. lia.
Qed.

Lemma sorted_sorted (l : list A) : Sorted by_key (sorted key l).
Proof.
  unfold sorted.
  enough (G : forall acc, Sorted by_key acc ->
             Sorted by_key
               (fold_left (fun acc e => insert_by_key key e acc) l acc))
    by (apply G; constructor).
  induction l as [|e l IH]; intros acc S; simpl; [exact S|].
  apply IH. now apply insert_by_key_sorted.
Qed.

Lemma insert_by_key_last (e : A) (l : list A) :
  (forall x, In x l -> (key x <= key e)%Z) ->
  insert_by_key key e l = l ++ [e].
Proof.
  induction l as [|h t IH]; simpl; intros H; [reflexivity|].
  assert (E : (key h <=? key e)%Z = true) by (apply Z.leb_le; auto).
  rewrite E, IH; auto.
Qed.

Lemma sorted_snoc (e : A) (l : list A) :
  (forall x, In x l -> (key x <= key e)%Z) ->
  sorted key (l ++ [e]) = sorted key l ++ [e].
Proof.
  intros H. unfold sorted. rewrite fold_left_app. simpl.
  apply insert_by_key_last. intros x Hx. apply H.
  eapply Permutation_in; [symmetry; apply sorted_perm | exact Hx].
Qed.

End SortedFacts.

Lemma slice_from_suffix {A : Type} (start : Z) (l : list A) :
  exists earlier, l = earlier ++ slice_from start l.
Proof.
  unfold slice_from. eexists. symmetry. apply firstn_skipn.
Qed.

Lemma slice_from_all {A : Type} (start : Z) (l : list A) :
  (start <= - Z.of_nat (length l) \/ start = 0)%Z -> slice_from start l = l.
Proof.
  unfold slice_from. intros H.
  destruct (start <? 0)%Z eqn:E.
  - apply Z.ltb_lt in E.
    replace (Z.to_nat _) with 0%nat by lia. reflexivity.
  - apply Z.ltb_ge in E.
    replace (Z.to_nat _) with 0%nat by lia. reflexivity.
Qed.

Lemma length_slice_from_last {A : Type} (n : Z) (l : list A) :
  (0 < n)%Z ->
  Z.of_nat (length (slice_from (- n) l)) = Z.min n (Z.of_nat (length l)).
Proof.
  unfold slice_from. intros H.
  assert (E : (- n <? 0)%Z = true) by (apply Z.ltb_lt; lia).
  rewrite E, length_skipn. lia.
Qed.

Lemma slice_from_snoc {A : Type} (n : Z) (l : list A) (e : A) :
  (0 < n)%Z ->
  exists earlier, slice_from (- n) (l ++ [e]) = earlier ++ [e].
Proof.
  unfold slice_from. intros H.
  assert (E : (- n <? 0)%Z = true) by (apply Z.ltb_lt; lia).
  rewrite E, length_app. simpl length.
  rewrite skipn_app.
  replace (_ - length l)%nat with 0%nat by lia.
  simpl. eauto.
Qed.

Lemma filter_filter_out {A : Type} (f g : A -> bool) (l : list A) :
  (forall x, g x = true -> f x = false) ->
  filter g (filter (fun x => negb (f x)) l) = filter g l.
Proof.
  intros H. induction l as [|a l IH]; simpl; [reflexivity|].
  destruct (f a) eqn:Ef; simpl.
  - destruct (g a) eqn:Eg; [|exact IH].
    apply H in Eg. congruence.
  - now rewrite IH.
Qed.

Lemma filter_none {A : Type} (f : A -> bool) (l : list A) :
  filter f (filter (fun x => negb (f x)) l) = [].
Proof.
  induction l as [|a l IH]; simpl; [reflexivity|].
  destruct (f a) eqn:Ef; simpl; [exact IH|]. now rewrite Ef.
Qed.

Lemma Sorted_skipn {A : Type} (R : A -> A -> Prop) (n : nat) (l : list A) :
  Sorted R l -> Sorted R (skipn n l).
Proof.
  revert l. induction n as [|n IH]; intros [|a l] S; simpl; auto.
  apply IH. now apply Sorted_inv in S.
Qed.

Section HistoryFacts.
Import DatabaseManager.

Abbreviation history := DatabaseManager.get_conversation_history.
Abbreviation of_conversation self u c :=
  (filter (in_conversation u c) (messages self)).

Lemma in_conversation_spec (u c : string) (msg : MessageData) :
  in_conversation u c msg = true <->
  username msg = u /\ conversation_id msg = c.
Proof.
  unfold in_conversation. rewrite andb_true_iff, !String.eqb_eq. tauto.
Qed.

(** X21.  The history of a conversation, read from the in-memory store,
    holds only stored messages of that user and that conversation, oldest
    first. *)
Theorem history_is_of_conversation (self : t) (u c : string) (limit : Z) :
  Sorted (by_key timestamp) (history self u c limit)
  /\ forall msg,
       In msg (history self u c limit) ->
       In msg (messages self) /\ username msg = u /\ conversation_id msg = c.
Proof.
  unfold get_conversation_history. split.
  - unfold slice_from. apply Sorted_skipn, sorted_sorted.
  - intros msg H.
    destruct (slice_from_suffix (- limit)
                (sorted timestamp (of_conversation self u c)))
      as [earlier E].
    assert (I : In msg (of_conversation self u c)).
    { eapply Permutation_in; [symmetry; apply (sorted_perm timestamp)|].
      rewrite E. apply in_or_app. now right. }
    apply filter_In in I as [I M]. apply in_conversation_spec in M.
    tauto.
Qed.

(** X22.  With a positive limit the history holds the latest [limit]
    messages of the conversation, or all of them when there are fewer. *)
Theorem history_keeps_latest (self : t) (u c : string) (limit : Z) :
  (0 < limit)%Z ->
  Z.of_nat (length (history self u c limit))
  = Z.min limit (Z.of_nat (length (of_conversation self u c)))
  /\ exists earlier,
       sorted timestamp (of_conversation self u c)
       = earlier ++ history self u c limit.
Proof.
  intros H. unfold get_conversation_history. split.
  - rewrite length_slice_from_last by exact H.
    now rewrite <- (Permutation_length (sorted_perm timestamp _)).
  - apply slice_from_suffix.
Qed.

(** X23.  A limit of 0 does not give an empty history: it gives the whole
    conversation, as any limit that is at least its length does. *)
Theorem history_limit_zero_is_unlimited (self : t) (u c : string)
  (limit : Z) :
  (Z.of_nat (length (of_conversation self u c)) <= limit)%Z ->
  history self u c 0 = history self u c limit
  /\ length (history self u c 0) = length (of_conversation self u c).
Proof.
  intros H. unfold get_conversation_history.
  pose proof (Permutation_length
                (sorted_perm timestamp (of_conversation self u c))) as L.
  rewrite !slice_from_all; [now split | left; lia | right; reflexivity].
Qed.

(** X24.  Deleting a conversation from the in-memory store succeeds,
    leaves that conversation with an empty history, and leaves the history
    of every other conversation as it was. *)
Theorem delete_conversation_clears_history (self : t) (u c : string)
  (limit : Z) :
  exists self',
    delete_conversation self u c = (true, self')
    /\ history self' u c limit = []
    /\ forall u' c',
         (u', c') <> (u, c) ->
         history self' u' c' limit = history self u' c' limit.
Proof.
  eexists. split; [reflexivity|].
  unfold get_conversation_history. simpl messages. split.
  - rewrite filter_none. unfold slice_from. simpl. apply skipn_nil.
  - intros u' c' Hne. rewrite filter_filter_out; [reflexivity|].
    intros msg M. apply in_conversation_spec in M as [Mu Mc].
    destruct (in_conversation u c msg) eqn:E; [|reflexivity].
    apply in_conversation_spec in E as [Eu Ec]. congruence.
Qed.

(** X25.  When the clock has not gone back since the stored messages were
    saved, a message saved to the in-memory store is the last one of its
    conversation's history (for a positive limit), and the history of
    every other conversation is as it was. *)
Theorem saved_message_is_latest (self : t) (u c role text : string)
  (now : Z) (now_text : string) (limit : Z) :
  (0 < limit)%Z ->
  (forall msg, In msg (messages self) -> (timestamp msg <= now)%Z) ->
  exists self',
    save_conversation_message self u c role text now now_text = (true, self')
    /\ (exists earlier,
          history self' u c limit
          = earlier ++ [mkMessageData u c role text now now_text])
    /\ forall u' c',
         (u', c') <> (u, c) ->
         history self' u' c' limit = history self u' c' limit.
Proof.
  intros Hl Hclock. eexists. split; [reflexivity|].
  unfold get_conversation_history. simpl messages.
  split.
  - rewrite filter_app. simpl filter.
    unfold in_conversation at 2. simpl. rewrite !String.eqb_refl. simpl.
    rewrite sorted_snoc.
    + now apply slice_from_snoc.
    + intros x Hx. apply filter_In in Hx as [Hx _]. simpl. auto.
  - intros u' c' Hne. rewrite filter_app. simpl filter.
    destruct (in_conversation u' c' _) eqn:E.
    + apply in_conversation_spec in E as [Eu Ec]. simpl in Eu, Ec.
      congruence.
    + now rewrite app_nil_r.
Qed.

End HistoryFacts.

Section StrDictFacts.
Variable V : Type.

Lemma strdict_set_keys (k k0 : string) (v : V) (d : StrDict.t V) :
  In k0 (map fst (StrDict.set V k v d)) <-> k0 = k \/ In k0 (map fst d).
Proof.
  induction d as [|[k1 v1] d IH]; simpl.
  - intuition.
  - destruct (String.eqb_spec k k1) as [-> | Hne]; simpl.
    + intuition.
    + rewrite IH. intuition.
Qed.

Lemma strdict_set_NoDup (k : string) (v : V) (d : StrDict.t V) :
  NoDup (map fst d) -> NoDup (map fst (StrDict.set V k v d)).
Proof.
  induction d as [|[k1 v1] d IH]; simpl; intros N.
  - constructor; [intros [] | constructor].
  - apply NoDup_cons_iff in N as [N1 N2].
    destruct (String.eqb_spec k k1) as [-> | Hne]; simpl.
    + now constructor.
    + constructor; [|now apply IH].
      rewrite strdict_set_keys. intros [E | I]; [congruence | contradiction].
Qed.

Lemma strdict_get_In (k : string) (v : V) (d : StrDict.t V) :
  NoDup (map fst d) -> In (k, v) d -> StrDict.get V k d = Some v.
Proof.
  induction d as [|[k1 v1] d IH]; simpl; intros N H; [destruct H|].
  destruct H as [E | I].
  - injection E as -> ->. now rewrite String.eqb_refl.
  - apply NoDup_cons_iff in N as [N1 N2].
    destruct (String.eqb_spec k k1) as [-> | Hne]; [|now apply IH].
    exfalso. apply N1. change k1 with (fst (k1, v)). now apply in_map.
Qed.

Lemma strdict_get_Some_In (k : string) (v : V) (d : StrDict.t V) :
  StrDict.get V k d = Some v -> In (k, v) d.
Proof.
  induction d as [|[k1 v1] d IH]; simpl; [discriminate|].
  destruct (String.eqb_spec k k1) as [-> | Hne].
  - intros [= ->]. now left.
  - intros H. right. now apply IH.
Qed.

End StrDictFacts.

Section ListingFacts.
Import DatabaseManager.

(** The entry that the messages [ms] of one conversation, in the order
    they were saved, add up to. *)
Definition summary_of (k : string) (ms : list MessageData)
  : option Summary :=
  match ms with
  | [] => None
  | first :: rest =>
      Some (mkSummary k (title_of (content first))
              (content (last rest first)) (timestamp (last rest first))
              (Z.of_nat (S (length rest))) (created_at first))
  end.

Abbreviation in_conv k :=
  (fun msg : MessageData => String.eqb (conversation_id msg) k).

Lemma add_message_get (d : StrDict.t Summary) (m : MessageData)
  (k : string) :
  StrDict.get Summary k (add_message d m)
  = if String.eqb k (conversation_id m)
    then match StrDict.get Summary (conversation_id m) d with
         | None =>
             Some (mkSummary (conversation_id m) (title_of (content m))
                     (content m) (timestamp m) 1 (created_at m))
         | Some conv =>
             Some (mkSummary (sum_conversation_id conv) (title conv)
                     (content m) (timestamp m) (message_count conv + 1)
                     (sum_created_at conv))
         end
    else StrDict.get Summary k d.
Proof.
  unfold add_message.
  destruct (StrDict.get Summary (conversation_id m) d);
    now rewrite strdict_get_set.
Qed.

Lemma add_message_NoDup (d : StrDict.t Summary) (m : MessageData) :
  NoDup (map fst d) -> NoDup (map fst (add_message d m)).
Proof.
  unfold add_message.
  destruct (StrDict.get Summary (conversation_id m) d);
    apply strdict_set_NoDup.
Qed.

Lemma conversations_NoDup (ms : list MessageData) (d : StrDict.t Summary) :
  NoDup (map fst d) -> NoDup (map fst (fold_left add_message ms d)).
Proof.
  revert d. induction ms as [|m ms IH]; intros d N; simpl; [exact N|].
  now apply IH, add_message_NoDup.
Qed.

Lemma conversations_get (ms : list MessageData) (k : string) :
  StrDict.get Summary k (fold_left add_message ms [])
  = summary_of k (filter (in_conv k) ms).
Proof.
  induction ms as [|m ms IH] using rev_ind; [reflexivity|].
  rewrite fold_left_app, filter_app. simpl fold_left. simpl filter.
  rewrite add_message_get.
  rewrite (String.eqb_sym k).
  destruct (String.eqb_spec (conversation_id m) k) as [E | Hne].
  - rewrite E, IH.
    destruct (filter (in_conv k) ms) as [|first rest]; simpl.
    + now rewrite <- E.
    + rewrite last_last, length_app. simpl.
      do 2 f_equal. lia.
  - now rewrite app_nil_r.
Qed.

Lemma filter_user_conversation (u k : string) (ms : list MessageData) :
  filter (in_conv k) (filter (fun msg => String.eqb (username msg) u) ms)
  = filter (in_conversation u k) ms.
Proof.
  induction ms as [|m ms IH]; simpl; [reflexivity|].
  unfold in_conversation at 1.
  destruct (String.eqb (username m) u); simpl.
  - destruct (String.eqb (conversation_id m) k); now rewrite IH.
  - exact IH.
Qed.

Lemma In_slice_to {A : Type} (stop : Z) (l : list A) (x : A) :
  In x (slice_to stop l) -> In x l.
Proof.
  unfold slice_to. intros H.
  rewrite <- (firstn_skipn (Z.to_nat
    (if (stop <? 0)%Z then Z.max 0 (Z.of_nat (length l) + stop)
     else Z.min (Z.of_nat (length l)) stop)) l).
  apply in_or_app. now left.
Qed.

Lemma NoDup_prefix {A : Type} (n : nat) (l : list A) :
  NoDup l -> NoDup (firstn n l).
Proof.
  intros N. rewrite <- (firstn_skipn n l) in N.
  now apply NoDup_app_remove_r in N.
Qed.

Lemma slice_to_all {A : Type} (stop : Z) (l : list A) :
  (Z.of_nat (length l) <= stop)%Z -> slice_to stop l = l.
Proof.
  unfold slice_to. intros H.
  assert (E : (stop <? 0)%Z = false) by (apply Z.ltb_ge; lia).
  rewrite E. apply firstn_all2. lia.
Qed.

Lemma length_strdict_set {V : Type} (k : string) (v : V)
  (d : StrDict.t V) :
  (length (StrDict.set V k v d) <= S (length d))%nat.
Proof.
  induction d as [|[k1 v1] d IH]; simpl; [lia|].
  destruct (String.eqb k k1); simpl; lia.
Qed.

Lemma length_conversations (ms : list MessageData)
  (d : StrDict.t Summary) :
  (length (fold_left add_message ms d) <= length d + length ms)%nat.
Proof.
  revert d. induction ms as [|m ms IH]; intros d; simpl; [lia|].
  specialize (IH (add_message d m)).
  assert (length (add_message d m) <= S (length d))%nat; [|lia].
  unfold add_message.
  destruct (StrDict.get Summary (conversation_id m) d);
    apply length_strdict_set.
Qed.

Lemma listed_entry (ms : list MessageData) (k : string) (conv : Summary) :
  In (k, conv) (fold_left add_message ms []) ->
  summary_of k (filter (in_conv k) ms) = Some conv.
Proof.
  intros I. rewrite <- conversations_get.
  apply strdict_get_In; [|exact I].
  apply conversations_NoDup. constructor.
Qed.

Lemma summary_of_id (k : string) (ms : list MessageData) (conv : Summary) :
  summary_of k ms = Some conv -> sum_conversation_id conv = k.
Proof.
  destruct ms; simpl; [discriminate|]. now intros [= <-].
Qed.

(** X26.  The listing of a user's conversations read from the in-memory
    store has one entry per conversation.  An entry counts the messages the
    user saved in its conversation, shows the text and the time of the
    last of them, and takes its title and creation time from the first. *)
Theorem listing_summarises_conversations (self : t) (u : string)
  (limit : Z) :
  NoDup (map sum_conversation_id (get_user_conversations self u limit))
  /\ forall conv,
       In conv (get_user_conversations self u limit) ->
       exists first rest,
         filter (in_conversation u (sum_conversation_id conv))
           (messages self) = first :: rest
         /\ title conv = title_of (content first)
         /\ sum_created_at conv = created_at first
         /\ last_message conv = content (last rest first)
         /\ last_timestamp conv = timestamp (last rest first)
         /\ message_count conv = Z.of_nat (S (length rest)).
Proof.
  unfold get_user_conversations.
  set (ms := filter (fun msg => String.eqb (username msg) u) (messages self)).
  split.
  - unfold slice_to. rewrite <- firstn_map. apply NoDup_prefix.
    rewrite map_map.
    rewrite (map_ext_in _ fst).
    + apply conversations_NoDup. constructor.
    + intros [k conv] I. simpl.
      apply listed_entry in I. now apply summary_of_id in I.
  - intros conv I. apply In_slice_to in I.
    apply in_map_iff in I as [[k conv'] [E I]]. simpl in E. subst conv'.
    apply listed_entry in I.
    pose proof (summary_of_id _ _ _ I) as Ek. subst k.
    unfold ms in I. rewrite filter_user_conversation in I.
    destruct (filter (in_conversation u (sum_conversation_id conv))
                (messages self)) as [|first rest]; [discriminate|].
    exists first, rest. split; [reflexivity|].
    simpl in I. injection I as <-. simpl. tauto.
Qed.

(** X27.  Every conversation in which the user saved a message is in the
    listing, when the limit is at least the number of stored messages. *)
Theorem listing_is_complete (self : t) (u : string) (limit : Z)
  (msg : MessageData) :
  (Z.of_nat (length (messages self)) <= limit)%Z ->
  In msg (messages self) ->
  username msg = u ->
  exists conv,
    In conv (get_user_conversations self u limit)
    /\ sum_conversation_id conv = conversation_id msg.
Proof.
  intros Hl Hm Hu. unfold get_user_conversations.
  set (ms := filter (fun msg => String.eqb (username msg) u) (messages self)).
  rewrite slice_to_all.
  - pose proof (conversations_get ms (conversation_id msg)) as G.
    assert (I : In msg (filter (in_conv (conversation_id msg)) ms)).
    { apply filter_In. split; [|apply String.eqb_refl].
      apply filter_In. split; [exact Hm | now apply String.eqb_eq]. }
    destruct (filter (in_conv (conversation_id msg)) ms) as [|first rest];
      [destruct I|].
    simpl in G. apply strdict_get_Some_In in G.
    eexists. split.
    + apply in_map_iff. eexists. split; [|exact G]. reflexivity.
    + reflexivity.
  - rewrite length_map.
    pose proof (length_conversations ms []) as L.
    pose proof (filter_length_le
                  (fun msg => String.eqb (username msg) u) (messages self)).
    fold ms in H. simpl in L. lia.
Qed.

End ListingFacts.

Section ClearFacts.
Variable vec : Type.
Variable dim : vec -> Z.
Variable l2 : vec -> vec -> Q.
Variable encode : list string -> Exc (list vec).
Variable generate_content : string -> Exc string.

(** X28.  Once the files are cleared, a question is answered with the
    request to upload documents first, whatever the manager still holds
    of the cleared documents: the encoder, the index and the generative
    model are not called and the manager is not touched. *)
Theorem chat_after_clear_files (session : Session)
  (request_json : Exc JsonBody) (now user message : string)
  (w : World vec) :
  username session = Some user ->
  message_of request_json = Ok message ->
  message <> "" ->
  uploaded_files (clear_files session) = Some []
  /\ chat_message vec dim l2 encode generate_content (clear_files session)
       request_json now w
     = (Ok (ChatSuccess upload_first_message now,
            with_turn (clear_files session) message upload_first_message
              now),
        w).
Proof.
  intros Hu Hb Hm.
  assert (Hc : clear_files session
               = mkSession (username session) (Some []) (messages session))
    by (unfold clear_files; now rewrite Hu).
  rewrite Hc. split; [reflexivity|].
  rewrite (chat_message_turn vec dim l2 encode generate_content _ _ _ user
             message);
    [reflexivity | exact Hu | exact Hb | exact Hm].
Qed.

End ClearFacts.

(* ------------------------------------------------------------------ *)
(** * More runs of the application *)

Module MoreExamples.
Import Example.

Definition out_of_memory : exn := Exception "RuntimeError" "out of memory".

(** An encoder that always fails. *)
Definition failing_encode (texts : list string) : Exc (list vec) :=
  Raise out_of_memory.

Definition notes : UploadedFile :=
  mkUploadedFile "notes.txt" 12 (Ok "some notes").

Definition report : UploadedFile :=
  mkUploadedFile "Report.PDF" 2048 (Ok "Revenue grew in the third quarter.").

Lemma rejected_file_is_skipped_witness :
  rejected secure_filename notes "notes.txt: Only PDF files are allowed"
  /\ process_files secure_filename (hello_files ++ notes :: first_files)
     = let '(p1, e1, c1) := process_files secure_filename hello_files in
       let '(p2, e2, c2) := process_files secure_filename first_files in
       (p1 ++ p2, e1 ++ "notes.txt: Only PDF files are allowed" :: e2,
        c1 ++ c2).
Proof.
  assert (H : rejected secure_filename notes
                "notes.txt: Only PDF files are allowed").
  { apply (rejected_name secure_filename notes);
      [vm_compute; discriminate | vm_compute; reflexivity]. }
  split; [exact H|].
  exact (rejected_file_is_skipped secure_filename hello_files first_files
           notes "notes.txt: Only PDF files are allowed" H).
Defined.

Lemma accepted_file_is_chunked_witness :
  exists chunks,
    create_text_chunks "Revenue grew in the third quarter."
      (secure_filename (filename report)) 1000 200
    = Ok chunks
    /\ all_within 1000 chunks
    /\ process_files secure_filename [report]
       = ([mkFileInfo (secure_filename (filename report))
             (str_Z (Z.of_nat (length chunks)) ++ " chunks")
             (len "Revenue grew in the third quarter.")],
          [], chunks).
Proof.
  assert (H1 : filename report <> "") by (vm_compute; discriminate).
  assert (H2 : endswith ".pdf" (lower (filename report)) = true)
    by (vm_compute; reflexivity).
  assert (H3 : file_size report <> 0%Z) by (vm_compute; discriminate).
  assert (H4 : extracted report = Ok "Revenue grew in the third quarter.")
    by reflexivity.
  assert (H5 : strip "Revenue grew in the third quarter." <> "")
    by (vm_compute; discriminate).
  exact (accepted_file_is_chunked secure_filename report
           "Revenue grew in the third quarter." H1 H2 H3 H4 H5).
Defined.

Lemma encoder_out_of_memory (chunks : list Document) (w : World vec) :
  embedding_fails vec failing_encode chunks w.
Proof. right. left. exists out_of_memory. reflexivity. Defined.

Lemma create_embeddings_failure_witness :
  create_embeddings vec dim failing_encode (corpus after_hello) started
  = (Ok false, started)
  \/ create_embeddings vec dim failing_encode (corpus after_hello) started
     = (Ok false,
        mkWorld vec (ai_manager vec started)
          (calls vec started
           ++ [CallEncode (map page_content (corpus after_hello))])).
Proof.
  exact (create_embeddings_failure vec dim failing_encode
           (corpus after_hello) started
           (encoder_out_of_memory (corpus after_hello) started)).
Defined.

Lemma upload_with_failed_embedding_witness :
  exists message n total flag errors session' w',
    upload vec dim failing_encode secure_filename logged_in
      (Some hello_files) started
    = (Ok (UploadSuccess message n total flag errors, session'), w')
    /\ ai_manager vec w' = ai_manager vec started
    /\ get_list (uploaded_files session')
       = get_list (uploaded_files logged_in)
         ++ fst (fst (process_files secure_filename hello_files))
    /\ fst (fst (process_files secure_filename hello_files)) <> [].
Proof.
  assert (H1 : username logged_in = Some "demo") by reflexivity.
  assert (H2 : snd (process_files secure_filename hello_files) <> [])
    by (vm_compute; discriminate).
  exact (upload_with_failed_embedding vec dim failing_encode secure_filename
           logged_in hello_files "demo" started H1 H2
           (encoder_out_of_memory _ started)).
Defined.

Lemma search_on_full_index_witness :
  exists labels docs w',
    search_similar_documents vec dim l2 encode "lorem" 2 (snd after_first)
    = (Ok docs, w')
    /\ Forall2
         (labelled (document_chunks vec (ai_manager vec (snd after_first))))
         labels docs
    /\ length labels = Z.to_nat 2
    /\ Forall (FaissFacts.label_of 2) labels
    /\ NoDup labels
    /\ StronglySorted
         (FaissFacts.no_farther vec l2 [5%Q; 1%Q]
            [[995%Q; 1%Q]; [401%Q; 1%Q]])
         labels
    /\ forall i j,
         In i labels ->
         FaissFacts.label_of 2 j ->
         ~ In j labels ->
         FaissFacts.no_farther vec l2 [5%Q; 1%Q]
           [[995%Q; 1%Q]; [401%Q; 1%Q]] i j.
Proof.
  assert (H1 : embeddings_available vec (ai_manager vec (snd after_first))
               = true) by (vm_compute; reflexivity).
  assert (H2 : faiss_index vec (ai_manager vec (snd after_first))
               = Some (Faiss.mk vec 2 [[995%Q; 1%Q]; [401%Q; 1%Q]]))
    by (vm_compute; reflexivity).
  assert (H3 : Faiss.ntotal vec (Faiss.mk vec 2 [[995%Q; 1%Q]; [401%Q; 1%Q]])
               = length (document_chunks vec (ai_manager vec (snd after_first))))
    by (vm_compute; reflexivity).
  assert (H4 : encode ["lorem"] = Ok [[5%Q; 1%Q]])
    by (vm_compute; reflexivity).
  assert (H5 : dim [5%Q; 1%Q]
               = Faiss.d vec (Faiss.mk vec 2 [[995%Q; 1%Q]; [401%Q; 1%Q]]))
    by reflexivity.
  assert (H6 : (0 < 2 <= Z.of_nat (Faiss.ntotal vec
                  (Faiss.mk vec 2 [[995%Q; 1%Q]; [401%Q; 1%Q]])))%Z)
    by (vm_compute; split; [reflexivity | discriminate]).
  exact (search_on_full_index vec dim l2 encode "lorem" 2 (snd after_first)
           (Faiss.mk vec 2 [[995%Q; 1%Q]; [401%Q; 1%Q]]) [5%Q; 1%Q]
           H1 H2 H3 H4 H5 H6).
Defined.

(** The run: the nearer second segment comes first. *)
Example search_on_full_index_run :
  fst (search_similar_documents vec dim l2 encode "lorem" 1 (snd after_first))
  = Ok (skipn 1 (corpus after_first))
  /\ fst (search_similar_documents vec dim l2 encode "lorem" 2
            (snd after_first))
     = Ok (rev (corpus after_first)).
Proof. split; vm_compute; reflexivity. Qed.

Lemma search_failure_is_empty_witness :
  fst (search_similar_documents vec dim l2 failing_encode "what is this about?"
         5 (snd after_hello))
  = Ok []
  /\ ai_manager vec
       (snd (search_similar_documents vec dim l2 failing_encode
               "what is this about?" 5 (snd after_hello)))
     = ai_manager vec (snd after_hello).
Proof.
  exact (search_failure_is_empty vec dim l2 failing_encode
           "what is this about?"
           5 (snd after_hello)
           (or_introl (ex_intro _ out_of_memory eq_refl))).
Defined.

Lemma generate_answers_from_context_witness :
  generate_response vec generate_content "what is this about?"
    (corpus after_hello) (snd after_hello)
  = (Ok "It is a test document.",
     mkWorld vec (ai_manager vec (snd after_hello))
       (calls vec (snd after_hello)
        ++ [CallGenerate
              (prompt_template (context_of (corpus after_hello))
                 "what is this about?")]))
  /\ contains "what is this about?"
       (prompt_template (context_of (corpus after_hello))
          "what is this about?") = true
  /\ Forall (fun doc =>
               contains (page_content doc)
                 (prompt_template (context_of (corpus after_hello))
                    "what is this about?") = true)
       (firstn 3 (corpus after_hello)).
Proof.
  assert (H1 : gemini_available vec (ai_manager vec (snd after_hello)) = true)
    by (vm_compute; reflexivity).
  exact (generate_answers_from_context vec generate_content
           "what is this about?" "It is a test document."
           (corpus after_hello) (snd after_hello) H1 eq_refl).
Defined.

Lemma chat_message_rejects_witness :
  exists message,
    chat_message vec dim l2 encode generate_content logged_in (asks "   ")
      "2025-01-01 12:00:00" started
    = (Ok (ChatFailure message, logged_in), started)
    /\ (message = "Not authenticated" \/ message = "Empty message").
Proof.
  assert (H : message_of (asks "   ") = Ok "") by (vm_compute; reflexivity).
  exact (chat_message_rejects vec dim l2 encode generate_content logged_in
           (asks "   ") "2025-01-01 12:00:00" started (or_intror H)).
Defined.

(** The same for a body without the key [message]. *)
Example chat_without_message_key :
  chat_message vec dim l2 encode generate_content logged_in
    (Ok (JsonObject None)) "2025-01-01 12:00:00" started
  = (Ok (ChatFailure "Empty message", logged_in), started).
Proof. vm_compute. reflexivity. Qed.

Lemma chat_after_clear_files_witness :
  uploaded_files (clear_files (fst after_hello)) = Some []
  /\ chat_message vec dim l2 encode generate_content
       (clear_files (fst after_hello)) (asks "what is this about?")
       "2025-01-01 12:00:00" (snd after_hello)
     = (Ok (ChatSuccess upload_first_message "2025-01-01 12:00:00",
            with_turn (clear_files (fst after_hello)) "what is this about?"
              upload_first_message "2025-01-01 12:00:00"),
        snd after_hello).
Proof.
  assert (H1 : username (fst after_hello) = Some "demo")
    by (vm_compute; reflexivity).
  assert (H2 : message_of (asks "what is this about?")
               = Ok "what is this about?")
    by (vm_compute; reflexivity).
  assert (H3 : "what is this about?" <> "") by discriminate.
  exact (chat_after_clear_files vec dim l2 encode generate_content
           (fst after_hello) (asks "what is this about?")
           "2025-01-01 12:00:00" "demo" "what is this about?"
           (snd after_hello) H1 H2 H3).
Defined.

(** A scan: three pages without a text layer. *)
Definition scan_pages : list string := [""; "   "; nl].

Lemma scanned_pdf_is_rejected_witness :
  extract_text_from_pdf (Ok (map Ok scan_pages)) = Ok ""
  /\ rejected secure_filename
       (mkUploadedFile "scan.pdf" 2048
          (extract_text_from_pdf (Ok (map Ok scan_pages))))
       (secure_filename "scan.pdf" ++ ": No text could be extracted").
Proof.
  assert (H1 : "scan.pdf" <> "") by discriminate.
  assert (H2 : endswith ".pdf" (lower "scan.pdf") = true)
    by (vm_compute; reflexivity).
  assert (H3 : 2048%Z <> 0%Z) by discriminate.
  assert (H4 : Forall (fun t => strip t = "") scan_pages)
    by (repeat constructor).
  exact (scanned_pdf_is_rejected secure_filename "scan.pdf" 2048 scan_pages
           H1 H2 H3 H4).
Defined.

Definition default_processor : PDFProcessor.t :=
  PDFProcessor.mk (TextSplitter.mk 1000 200 separators).

(** [os.path.basename] on the one path of this run. *)
Definition basename (path : string) : string := "hello.pdf".

Definition hello_pdf : PdfFile :=
  FilePath "uploads/hello.pdf"
    (Ok [Ok "Hello world."; Ok "This is a test document."]).

Lemma process_pdf_outcome_witness :
  match
    PDFProcessorMore.process_pdf basename "2025-01-01T12:00:00"
      default_processor hello_pdf
  with
  | Ok docs =>
      docs <> []
      /\ all_within 1000 docs
      /\ exists text,
           PDFProcessorMore.extract_text_from_pdf hello_pdf = Ok text
           /\ strip text <> ""
           /\ Forall
                (filed_under (PDFProcessorMore.filename_of basename hello_pdf)
                   (len text))
                docs
  | Raise e =>
      PDFProcessorMore.extract_text_from_pdf hello_pdf = Raise e
      \/ (exists text,
            PDFProcessorMore.extract_text_from_pdf hello_pdf = Ok text
            /\ strip text = "" /\ e = PDFProcessorMore.no_text_error)
      \/ e = PDFProcessorMore.no_chunks_error
  end.
Proof.
  assert (H1 : (0 <= 200 < 1000)%Z) by lia.
  assert (H2 : PDFProcessor.init 1000 200 = Ok default_processor)
    by (vm_compute; reflexivity).
  exact (process_pdf_outcome basename "2025-01-01T12:00:00" 1000 200
           default_processor hello_pdf H1 H2).
Defined.

(** The run is of the first kind: the file gives segments. *)
Example process_pdf_gives_segments :
  exists docs,
    PDFProcessorMore.process_pdf basename "2025-01-01T12:00:00"
      default_processor hello_pdf
    = Ok docs
    /\ docs <> [].
Proof. eexists. split; [vm_compute; reflexivity | discriminate]. Qed.

Lemma register_then_authenticate_witness :
  exists self',
    SimpleDatabaseManager.register_user SimpleDatabaseManager.init "alice"
      "wonderland" ""
    = (true, self')
    /\ SimpleDatabaseManager.user_exists self' "alice" = true
    /\ SimpleDatabaseManager.authenticate_user self' "alice" "wonderland"
       = Some (SimpleDatabaseManager.mkUserInfo
                 (if truthy "" then "" else "alice") "alice")
    /\ (forall other,
          other <> "wonderland" ->
          SimpleDatabaseManager.authenticate_user self' "alice" other = None)
    /\ (forall name other,
          name <> "alice" ->
          SimpleDatabaseManager.authenticate_user self' name other
          = SimpleDatabaseManager.authenticate_user
              SimpleDatabaseManager.init name other).
Proof.
  exact (register_then_authenticate SimpleDatabaseManager.init "alice"
           "wonderland" "" eq_refl).
Defined.

Lemma register_keeps_existing_accounts_witness :
  (forall pw,
     SimpleDatabaseManager.authenticate_user
       (snd (SimpleDatabaseManager.register_user SimpleDatabaseManager.init
               "admin" "guessed" "Mallory")) "admin" pw
     = SimpleDatabaseManager.authenticate_user SimpleDatabaseManager.init
         "admin" pw)
  /\ ("admin" = "admin" ->
      SimpleDatabaseManager.register_user SimpleDatabaseManager.init "admin"
        "guessed" "Mallory"
      = (false, SimpleDatabaseManager.init)).
Proof.
  exact (register_keeps_existing_accounts SimpleDatabaseManager.init "admin"
           "guessed" "Mallory" "admin" eq_refl).
Defined.

(** An in-memory store with two conversations of one user and one of
    another; the second message was saved with an earlier clock reading
    than the first. *)
Definition store : DatabaseManager.t :=
  DatabaseManager.mk []
    [DatabaseManager.mkMessageData "demo" "c1" "user" "what is this about?"
       20 "2025-01-01 12:00:20";
     DatabaseManager.mkMessageData "demo" "c1" "assistant"
       "It is a test document." 10 "2025-01-01 12:00:10";
     DatabaseManager.mkMessageData "demo" "c2" "user" "hello" 30
       "2025-01-01 12:00:30";
     DatabaseManager.mkMessageData "admin" "c1" "user" "status?" 35
       "2025-01-01 12:00:35";
     DatabaseManager.mkMessageData "demo" "c1" "user" "and the date?" 40
       "2025-01-01 12:00:40"].

Lemma history_keeps_latest_witness :
  Z.of_nat (length (DatabaseManager.get_conversation_history store "demo"
                      "c1" 2))
  = Z.min 2
      (Z.of_nat
         (length (filter (DatabaseManager.in_conversation "demo" "c1")
                    (DatabaseManager.messages store))))
  /\ exists earlier,
       sorted DatabaseManager.timestamp
         (filter (DatabaseManager.in_conversation "demo" "c1")
            (DatabaseManager.messages store))
       = earlier
         ++ DatabaseManager.get_conversation_history store "demo" "c1" 2.
Proof.
  assert (H : (0 < 2)%Z) by lia.
  exact (history_keeps_latest store "demo" "c1" 2 H).
Defined.

Lemma history_limit_zero_is_unlimited_witness :
  DatabaseManager.get_conversation_history store "demo" "c1" 0
  = DatabaseManager.get_conversation_history store "demo" "c1" 50
  /\ length (DatabaseManager.get_conversation_history store "demo" "c1" 0)
     = length (filter (DatabaseManager.in_conversation "demo" "c1")
                 (DatabaseManager.messages store)).
Proof.
  assert (H : (Z.of_nat
                 (length (filter (DatabaseManager.in_conversation "demo" "c1")
                            (DatabaseManager.messages store))) <= 50)%Z)
    by (vm_compute; discriminate).
  exact (history_limit_zero_is_unlimited store "demo" "c1" 50 H).
Defined.

Lemma saved_message_is_latest_witness :
  exists self',
    DatabaseManager.save_conversation_message store "demo" "c2" "assistant"
      "Hello!" 45 "2025-01-01 12:00:45"
    = (true, self')
    /\ (exists earlier,
          DatabaseManager.get_conversation_history self' "demo" "c2" 50
          = earlier
            ++ [DatabaseManager.mkMessageData "demo" "c2" "assistant"
                  "Hello!" 45 "2025-01-01 12:00:45"])
    /\ forall u' c',
         (u', c') <> ("demo", "c2") ->
         DatabaseManager.get_conversation_history self' u' c' 50
         = DatabaseManager.get_conversation_history store u' c' 50.
Proof.
  assert (H1 : (0 < 50)%Z) by lia.
  assert (H2 : forall msg,
             In msg (DatabaseManager.messages store) ->
             (DatabaseManager.timestamp msg <= 45)%Z).
  { intros msg [<- | [<- | [<- | [<- | [<- | []]]]]]; simpl; lia. }
  exact (saved_message_is_latest store "demo" "c2" "assistant" "Hello!" 45
           "2025-01-01 12:00:45" 50 H1 H2).
Defined.

Lemma listing_is_complete_witness :
  exists conv,
    In conv (DatabaseManager.get_user_conversations store "demo" 20)
    /\ DatabaseManager.sum_conversation_id conv = "c2".
Proof.
  assert (H1 : (Z.of_nat (length (DatabaseManager.messages store)) <= 20)%Z)
    by (vm_compute; discriminate).
  assert (H2 : In (DatabaseManager.mkMessageData "demo" "c2" "user" "hello"
                     30 "2025-01-01 12:00:30")
                 (DatabaseManager.messages store))
    by (simpl; auto).
  exact (listing_is_complete store "demo" 20
           (DatabaseManager.mkMessageData "demo" "c2" "user" "hello" 30
              "2025-01-01 12:00:30") H1 H2 eq_refl).
Defined.

(** The listing and a history of this store, run. *)
Example store_listing :
  map (fun conv =>
         (DatabaseManager.sum_conversation_id conv,
          DatabaseManager.message_count conv,
          DatabaseManager.last_message conv))
    (DatabaseManager.get_user_conversations store "demo" 20)
  = [("c1", 3%Z, "and the date?"); ("c2", 1%Z, "hello")]
  /\ map DatabaseManager.content
       (DatabaseManager.get_conversation_history store "demo" "c1" 2)
     = ["what is this about?"; "and the date?"].
Proof. split; vm_compute; reflexivity. Qed.

End MoreExamples.
